(** * ChatBots: the cleaning-service chat widget

    A shallow embedding of the two protocol-handling pieces of the
    repository,

    - [Route]   : [app/api/chat/route.ts], the server-side Stream Reformatter
                  ([POST] and the [transform] callback of its TransformStream);
    - [Chatbot] : [components/chatbot.tsx], the browser-side Incremental Reply
                  Renderer ([sendMessage] and [handleSubmit]);

    together with the parts of the JavaScript runtime the two pieces call:
    strings of UTF-16 code units, [TextDecoder] and [TextEncoder],
    [JSON.parse], [JSON.stringify], property access, truthiness and string
    coercion on values that come out of [JSON.parse].

    The network, the clock and the request body are inputs of the model:
    what [fetch] settles to, what [Date.now()] returns, what [req.json()]
    gives.  State is passed explicitly; what a turn does to the outside is
    recorded as a trace of events.  Of the markup of the component the
    module [View] keeps what depends on the state.  Console output, the
    styling, the headers of the requests and the [maxDuration] limit that
    the host enforces are left out.

    The properties follow the definitions.  Line numbers are those of the
    source files. *)

From Stdlib Require Import List NArith ZArith Bool Lia String Ascii.
From Stdlib Require Import Floats.SpecFloat.
Import ListNotations.

Local Open Scope N_scope.

(** ** JavaScript strings

    A JavaScript string is a sequence of 16-bit code units. *)

Module JSString.

Definition code_unit := N.
Definition jsstring := list code_unit.

(** String literals of the source that hold only ASCII characters. *)
Definition lit (s : string) : jsstring :=
  List.map N_of_ascii (list_ascii_of_string s).

Definition LF : code_unit := 10.
Definition QUOTE : code_unit := 34.
Definition BACKSLASH : code_unit := 92.

(** [a === b] on strings. *)
Fixpoint eqb (a b : jsstring) : bool :=
  match a, b with
  | [], [] => true
  | x :: a', y :: b' => (x =? y) && eqb a' b'
  | _, _ => false
  end.

(** [s.startsWith(p)] *)
Fixpoint startsWith (s p : jsstring) : bool :=
  match p, s with
  | [], _ => true
  | x :: p', y :: s' => (x =? y) && startsWith s' p'
  | _ :: _, [] => false
  end.

(** [s.slice(n)] for a non-negative [n]. *)
Definition slice (s : jsstring) (n : nat) : jsstring := skipn n s.

(** [s.split("\n")]: the pieces between line feeds; never empty. *)
Fixpoint split (s : jsstring) : list jsstring :=
  match s with
  | [] => [[]]
  | c :: s' =>
      if c =? LF then [] :: split s'
      else match split s' with
           | l :: ls => (c :: l) :: ls
           | [] => [[c]]
           end
  end.

(** WhiteSpace and LineTerminator code units, the ones [trim] strips. *)
Definition is_space (c : code_unit) : bool :=
  ((9 <=? c) && (c <=? 13)) || (c =? 32) || (c =? 160) || (c =? 5760)
  || ((8192 <=? c) && (c <=? 8202)) || (c =? 8232) || (c =? 8233)
  || (c =? 8239) || (c =? 8287) || (c =? 12288) || (c =? 65279).

Fixpoint trimStart (s : jsstring) : jsstring :=
  match s with
  | c :: s' => if is_space c then trimStart s' else s
  | [] => []
  end.

Definition trimEnd (s : jsstring) : jsstring := rev (trimStart (rev s)).

(** [s.trim()] *)
Definition trim (s : jsstring) : jsstring := trimEnd (trimStart s).

(** Truthiness of a string: [!!s]. *)
Definition truthy (s : jsstring) : bool :=
  match s with [] => false | _ => true end.

(** Decimal digits of a non-negative integer, as [String(n)] prints a
    number below 10^21. *)
Fixpoint digits_fuel (fuel : nat) (n : N) (acc : jsstring) : jsstring :=
  match fuel with
  | O => acc
  | S fuel' =>
      let acc' := (48 + n mod 10) :: acc in
      if n / 10 =? 0 then acc' else digits_fuel fuel' (n / 10) acc'
  end.

Definition decimal (n : N) : jsstring :=
  digits_fuel (S (N.to_nat (N.log2 n))) n [].

End JSString.

(** ** UTF-8: [TextDecoder] and [TextEncoder]

    The decoder is the UTF-8 decoder of the Encoding standard, run the way
    [decode(chunk, { stream: true })] runs it: its state survives from one
    call to the next, the end of a chunk flushes nothing, an ill-formed
    sequence yields U+FFFD, and a byte order mark at the very start of the
    stream is dropped. *)

Module UTF8.
Import JSString.

Definition byte := N.
Definition bytes := list byte.

Record decoder := {
  code_point : N;
  bytes_seen : N;
  bytes_needed : N;
  lower_boundary : N;
  upper_boundary : N
}.

Definition decoder_init : decoder :=
  {| code_point := 0; bytes_seen := 0; bytes_needed := 0;
     lower_boundary := 128; upper_boundary := 191 |}.

Definition REPLACEMENT : N := 65533.
Definition BOM : N := 65279.

(** A byte met while no sequence is open. *)
Definition lead (b : byte) : decoder * list N :=
  if b <=? 127 then (decoder_init, [b])
  else if (194 <=? b) && (b <=? 223) then
    ({| code_point := N.land b 31; bytes_seen := 0; bytes_needed := 1;
        lower_boundary := 128; upper_boundary := 191 |}, [])
  else if (224 <=? b) && (b <=? 239) then
    ({| code_point := N.land b 15; bytes_seen := 0; bytes_needed := 2;
        lower_boundary := if b =? 224 then 160 else 128;
        upper_boundary := if b =? 237 then 159 else 191 |}, [])
  else if (240 <=? b) && (b <=? 244) then
    ({| code_point := N.land b 7; bytes_seen := 0; bytes_needed := 3;
        lower_boundary := if b =? 240 then 144 else 128;
        upper_boundary := if b =? 244 then 143 else 191 |}, [])
  else (decoder_init, [REPLACEMENT]).

(** One byte through the decoder: the new state and the code points it
    emits (none, one, or U+FFFD followed by what the byte itself starts). *)
Definition handler (d : decoder) (b : byte) : decoder * list N :=
  if bytes_needed d =? 0 then lead b
  else if (lower_boundary d <=? b) && (b <=? upper_boundary d) then
    let cp := N.lor (N.shiftl (code_point d) 6) (N.land b 63) in
    let seen := bytes_seen d + 1 in
    if seen =? bytes_needed d then (decoder_init, [cp])
    else ({| code_point := cp; bytes_seen := seen;
             bytes_needed := bytes_needed d;
             lower_boundary := 128; upper_boundary := 191 |}, [])
  else
    let '(d', out) := lead b in (d', REPLACEMENT :: out).

Fixpoint run (d : decoder) (bs : bytes) : decoder * list N :=
  match bs with
  | [] => (d, [])
  | b :: bs' =>
      let '(d1, out1) := handler d b in
      let '(d2, out2) := run d1 bs' in
      (d2, out1 ++ out2)
  end.

(** A code point appended to a JavaScript string. *)
Definition utf16 (cp : N) : jsstring :=
  if cp <? 65536 then [cp]
  else [55296 + (cp - 65536) / 1024; 56320 + (cp - 65536) mod 1024].

(** Serialising the decoded code points: the first code point of the
    stream is dropped when it is the byte order mark. *)
Fixpoint serialize (bom_seen : bool) (cps : list N) : bool * jsstring :=
  match cps with
  | [] => (bom_seen, [])
  | cp :: cps' =>
      let '(seen, s) := serialize true cps' in
      (seen, if negb bom_seen && (cp =? BOM) then s else utf16 cp ++ s)
  end.

(** The state of a [TextDecoder] object between two streaming calls. *)
Record TextDecoder := {
  utf8 : decoder;
  BOM_seen : bool
}.

Definition new_TextDecoder : TextDecoder :=
  {| utf8 := decoder_init; BOM_seen := false |}.

(** [decoder.decode(chunk, { stream: true })] *)
Definition decode (t : TextDecoder) (chunk : bytes) : TextDecoder * jsstring :=
  let '(d, cps) := run (utf8 t) chunk in
  let '(seen, s) := serialize (BOM_seen t) cps in
  ({| utf8 := d; BOM_seen := seen |}, s).

Definition is_lead_surrogate (c : N) : bool := (55296 <=? c) && (c <=? 56319).
Definition is_trail_surrogate (c : N) : bool := (56320 <=? c) && (c <=? 57343).
Definition is_surrogate (c : N) : bool := (55296 <=? c) && (c <=? 57343).

(** The scalar values of a string: surrogate pairs are combined, a lone
    surrogate becomes U+FFFD. *)
Fixpoint scalar_values (s : jsstring) : list N :=
  match s with
  | [] => []
  | c :: s' =>
      if is_lead_surrogate c then
        match s' with
        | c2 :: s'' =>
            if is_trail_surrogate c2
            then (65536 + (c - 55296) * 1024 + (c2 - 56320)) :: scalar_values s''
            else REPLACEMENT :: scalar_values s'
        | [] => [REPLACEMENT]
        end
      else if is_trail_surrogate c then REPLACEMENT :: scalar_values s'
      else c :: scalar_values s'
  end.

Definition encode_scalar (cp : N) : bytes :=
  if cp <=? 127 then [cp]
  else if cp <=? 2047 then
    [N.lor 192 (N.shiftr cp 6); N.lor 128 (N.land cp 63)]
  else if cp <=? 65535 then
    [N.lor 224 (N.shiftr cp 12);
     N.lor 128 (N.land (N.shiftr cp 6) 63);
     N.lor 128 (N.land cp 63)]
  else
    [N.lor 240 (N.shiftr cp 18);
     N.lor 128 (N.land (N.shiftr cp 12) 63);
     N.lor 128 (N.land (N.shiftr cp 6) 63);
     N.lor 128 (N.land cp 63)].

(** [encoder.encode(s)] *)
Definition encode (s : jsstring) : bytes :=
  flat_map encode_scalar (scalar_values s).

End UTF8.

(** ** Numbers

    A JavaScript number is a binary64 floating-point value.  The values that
    reach the two components come out of [JSON.parse]; they are read from
    their decimal literal with one correct rounding, and printed by
    [Number::toString]: the shortest decimal that reads back as the same
    value. *)

Module Number.
Import JSString.

Definition prec : Z := 53.
Definition emax : Z := 1024.

Definition number := spec_float.

(** The value of the decimal [m * 10^e], negated when [neg], rounded to the
    nearest binary64 (ties to even). *)
Definition of_decimal (neg : bool) (m : N) (e : Z) : number :=
  match m with
  | N0 => S754_zero neg
  | Npos p =>
      if (0 <=? e)%Z
      then binary_normalize prec emax
             (cond_Zopp neg (Zpos p * 10 ^ e)%Z) 0%Z neg
      else SFdiv prec emax (S754_finite neg p 0%Z)
             (S754_finite false (Z.to_pos (10 ^ (- e))%Z) 0%Z)
  end.

Definition of_N (n : N) : number := of_decimal false n 0%Z.

Definition is_zero (x : number) : bool :=
  match x with S754_zero _ => true | _ => false end.

Definition is_finite (x : number) : bool :=
  match x with S754_zero _ | S754_finite _ _ _ => true | _ => false end.

(** [x / 10^p] for the positive value [x = m * 2^e], as a fraction of two
    positive integers. *)
Definition scaled (m : positive) (e : Z) (p : Z) : Z * Z :=
  ((Zpos m * 2 ^ (Z.max e 0) * 10 ^ (Z.max (- p) 0))%Z,
   (2 ^ (Z.max (- e) 0) * 10 ^ (Z.max p 0))%Z).

(** The least [n], searched upwards from [n0], with [m * 2^e < 10^n]. *)
Fixpoint magnitude (fuel : nat) (m : positive) (e : Z) (n0 : Z) : Z :=
  match fuel with
  | O => n0
  | S fuel' =>
      let '(a, b) := scaled m e n0 in
      if (a <? b)%Z then n0 else magnitude fuel' m e (n0 + 1)%Z
  end.

(** The digits [s] and the exponent [n] of the shortest decimal
    [s * 10^(n-k)], with [k] digits, that reads back as [x = m * 2^e];
    [k] is tried from [k0] upwards. *)
Fixpoint shortest (fuel : nat) (m : positive) (e : Z) (n : Z) (k0 : Z)
  : Z * Z * Z :=
  let x := S754_finite false m e in
  let '(a, b) := scaled m e (n - k0) in
  let lo := (a / b)%Z in
  let r := (a mod b)%Z in
  let hi := (lo + 1)%Z in
  let ok_lo := SFeqb (of_decimal false (Z.to_N lo) (n - k0)) x in
  let ok_hi := SFeqb (of_decimal false (Z.to_N hi) (n - k0)) x in
  let pick_hi :=
    if (hi =? 10 ^ k0)%Z then (10 ^ (k0 - 1), n + 1, k0)%Z else (hi, n, k0) in
  let pick_lo := (lo, n, k0) in
  let found :=
    if ok_lo && ok_hi then
      match (2 * r ?= b)%Z with
      | Lt => Some pick_lo
      | Gt => Some pick_hi
      | Eq => Some (if Z.even lo then pick_lo else pick_hi)
      end
    else if ok_lo then Some pick_lo
    else if ok_hi then Some pick_hi
    else None in
  match found, fuel with
  | Some res, _ => res
  | None, S fuel' => shortest fuel' m e n (k0 + 1)%Z
  | None, O => (lo, n, k0)
  end.

Definition zeros (n : Z) : jsstring := repeat 48 (Z.to_nat n).

(** [Number::toString(x)] in radix 10, for a positive finite [x]. *)
Definition toString_pos (m : positive) (e : Z) : jsstring :=
  let n0 := magnitude 700 m e (-330)%Z in
  let '(s, n, k) := shortest 17 m e n0 1%Z in
  let ds := decimal (Z.to_N s) in
  if ((k <=? n) && (n <=? 21))%Z then ds ++ zeros (n - k)
  else if ((0 <? n) && (n <=? 21))%Z then
    firstn (Z.to_nat n) ds ++ lit "." ++ skipn (Z.to_nat n) ds
  else if ((-6 <? n) && (n <=? 0))%Z then
    lit "0." ++ zeros (- n) ++ ds
  else
    let ex := (n - 1)%Z in
    let sign := if (ex <? 0)%Z then lit "-" else lit "+" in
    let mant :=
      if (k =? 1)%Z then ds else firstn 1 ds ++ lit "." ++ skipn 1 ds in
    mant ++ lit "e" ++ sign ++ decimal (Z.to_N (Z.abs ex)).

(** [String(x)] *)
Definition toString (x : number) : jsstring :=
  match x with
  | S754_nan => lit "NaN"
  | S754_zero _ => lit "0"
  | S754_infinity false => lit "Infinity"
  | S754_infinity true => lit "-Infinity"
  | S754_finite false m e => toString_pos m e
  | S754_finite true m e => lit "-" ++ toString_pos m e
  end.

End Number.

(** ** Exceptions

    A JavaScript computation either completes normally or throws. *)

Module Completion.
Import JSString.

Inductive error :=
| SyntaxError
| TypeError
| NetworkError
| Error (message : jsstring).

Inductive completion (A : Type) :=
| Normal (a : A)
| Throw (e : error).

Arguments Normal {A} a.
Arguments Throw {A} e.

Definition bind {A B} (c : completion A) (k : A -> completion B)
  : completion B :=
  match c with
  | Normal a => k a
  | Throw e => Throw e
  end.

(** [try { c } catch { h }] *)
Definition try_catch {A} (c : completion A) (h : error -> A) : A :=
  match c with
  | Normal a => a
  | Throw e => h e
  end.

(** [try { body } catch (e) { handler } finally { finalizer }] over a state
    [W] that each block may change before it completes or throws. *)
Definition try_catch_finally {W}
  (body : W -> W * completion unit)
  (handler : error -> W -> W * completion unit)
  (finalizer : W -> W * completion unit) (w : W) : W * completion unit :=
  let '(w1, r1) := body w in
  let '(w2, r2) :=
    match r1 with
    | Normal _ => (w1, r1)
    | Throw e => handler e w1
    end in
  let '(w3, r3) := finalizer w2 in
  (w3, match r3 with Normal _ => r2 | Throw e => Throw e end).

End Completion.

Notation "x <- c ;; k" := (Completion.bind c (fun x => k))
  (at level 61, c at next level, right associativity).

(** ** JSON values, [JSON.parse] and [JSON.stringify] *)

Module JSON.
Import JSString UTF8 Completion.

(** The values [JSON.parse] can return.  The properties of an object are
    kept in the order in which the object enumerates them. *)
#[local] Unset Elimination Schemes.
Inductive json :=
| JNull
| JBool (b : bool)
| JNum (x : Number.number)
| JStr (s : jsstring)
| JArr (elements : list json)
| JObj (properties : list (jsstring * json)).
#[local] Set Elimination Schemes.

Definition is_digit (c : code_unit) : bool := (48 <=? c) && (c <=? 57).

Fixpoint digits_value (acc : N) (ds : jsstring) : N :=
  match ds with
  | [] => acc
  | d :: ds' => digits_value (10 * acc + (d - 48)) ds'
  end.

(** An array index: the canonical decimal form of an integer below
    2^32 - 1. *)
Definition array_index (key : jsstring) : option N :=
  match key with
  | [] => None
  | d :: rest =>
      if forallb is_digit key && (negb (d =? 48) || match rest with [] => true | _ => false end)
      then let n := digits_value 0 key in
           if n <=? 4294967294 then Some n else None
      else None
  end.

Fixpoint lookup (key : jsstring) (ps : list (jsstring * json)) : option json :=
  match ps with
  | [] => None
  | (k, v) :: ps' => if eqb k key then Some v else lookup key ps'
  end.

Fixpoint replace (key : jsstring) (v : json) (ps : list (jsstring * json))
  : list (jsstring * json) :=
  match ps with
  | [] => []
  | (k, w) :: ps' =>
      if eqb k key then (k, v) :: ps' else (k, w) :: replace key v ps'
  end.

(** A new array-index key goes before the first key that is a larger
    index or no index at all. *)
Fixpoint insert_index (i : N) (key : jsstring) (v : json)
  (ps : list (jsstring * json)) : list (jsstring * json) :=
  match ps with
  | [] => [(key, v)]
  | (k, w) :: ps' =>
      match array_index k with
      | Some j => if j <? i then (k, w) :: insert_index i key v ps'
                  else (key, v) :: ps
      | None => (key, v) :: ps
      end
  end.

(** Defining the property [key] of an object under construction: a repeated
    key keeps its place and takes the new value. *)
Definition define (key : jsstring) (v : json) (ps : list (jsstring * json))
  : list (jsstring * json) :=
  match lookup key ps with
  | Some _ => replace key v ps
  | None =>
      match array_index key with
      | Some i => insert_index i key v ps
      | None => ps ++ [(key, v)]
      end
  end.

(** *** Parsing *)

Definition is_ws (c : code_unit) : bool :=
  (c =? 32) || (c =? 9) || (c =? 10) || (c =? 13).

Fixpoint skip_ws (s : jsstring) : jsstring :=
  match s with
  | c :: s' => if is_ws c then skip_ws s' else s
  | [] => []
  end.

Definition hex_digit (c : code_unit) : option N :=
  if (48 <=? c) && (c <=? 57) then Some (c - 48)
  else if (97 <=? c) && (c <=? 102) then Some (c - 87)
  else if (65 <=? c) && (c <=? 70) then Some (c - 55)
  else None.

Definition hex4 (a b c d : code_unit) : option code_unit :=
  match hex_digit a, hex_digit b, hex_digit c, hex_digit d with
  | Some x, Some y, Some z, Some w => Some (((x * 16 + y) * 16 + z) * 16 + w)
  | _, _, _, _ => None
  end.

(** The character a one-letter escape stands for. *)
Definition simple_escape (c : code_unit) : option code_unit :=
  if c =? 34 then Some 34
  else if c =? 92 then Some 92
  else if c =? 47 then Some 47
  else if c =? 98 then Some 8
  else if c =? 102 then Some 12
  else if c =? 110 then Some 10
  else if c =? 114 then Some 13
  else if c =? 116 then Some 9
  else None.

Definition cons_fst {A} (c : code_unit) (r : option (jsstring * A))
  : option (jsstring * A) :=
  match r with
  | Some (s, rest) => Some (c :: s, rest)
  | None => None
  end.

(** The characters of a string literal, after its opening quote, and what
    follows its closing quote. *)
Fixpoint parse_chars (s : jsstring) : option (jsstring * jsstring) :=
  match s with
  | [] => None
  | c :: r =>
      if c =? 34 then Some ([], r)
      else if c =? 92 then
        match r with
        | [] => None
        | e :: r1 =>
            if e =? 117 then
              match r1 with
              | h1 :: h2 :: h3 :: h4 :: r2 =>
                  match hex4 h1 h2 h3 h4 with
                  | Some u => cons_fst u (parse_chars r2)
                  | None => None
                  end
              | _ => None
              end
            else
              match simple_escape e with
              | Some x => cons_fst x (parse_chars r1)
              | None => None
              end
        end
      else if c <? 32 then None
      else cons_fst c (parse_chars r)
  end.

(** [eat c s]: what follows the first code unit of [s] when that is [c]. *)
Definition eat (c : code_unit) (s : jsstring) : option jsstring :=
  match s with
  | x :: r => if x =? c then Some r else None
  | [] => None
  end.

Fixpoint take_digits (s : jsstring) : jsstring * jsstring :=
  match s with
  | c :: s' =>
      if is_digit c
      then let '(ds, r) := take_digits s' in (c :: ds, r)
      else ([], s)
  | [] => ([], [])
  end.

(** One digit at least. *)
Definition take_digits1 (s : jsstring) : option (jsstring * jsstring) :=
  match take_digits s with
  | ([], _) => None
  | (ds, r) => Some (ds, r)
  end.

(** The integer part of a number: a lone zero, or digits that do not start
    with a zero. *)
Definition parse_int (s : jsstring) : option (jsstring * jsstring) :=
  match eat 48 s with
  | Some r => Some ([48], r)
  | None => take_digits1 s
  end.

(** The optional fraction: a point and its digits. *)
Definition parse_frac (s : jsstring) : option (jsstring * jsstring) :=
  match eat 46 s with
  | Some r => take_digits1 r
  | None => Some ([], s)
  end.

(** The optional exponent: [e] or [E], an optional sign, digits. *)
Definition parse_exp (s : jsstring) : option (Z * jsstring) :=
  match (match eat 101 s with Some r => Some r | None => eat 69 s end) with
  | Some r =>
      let '(eneg, r1) :=
        match eat 45 r with
        | Some r' => (true, r')
        | None =>
            match eat 43 r with
            | Some r' => (false, r')
            | None => (false, r)
            end
        end in
      match take_digits1 r1 with
      | Some (ep, r2) =>
          let e := Z.of_N (digits_value 0 ep) in
          Some (if eneg then (- e)%Z else e, r2)
      | None => None
      end
  | None => Some (0%Z, s)
  end.

(** A number literal: sign, integer part, fraction, exponent. *)
Definition parse_number (s : jsstring) : option (Number.number * jsstring) :=
  let '(neg, s1) :=
    match eat 45 s with
    | Some r => (true, r)
    | None => (false, s)
    end in
  match parse_int s1 with
  | None => None
  | Some (ip, s2) =>
      match parse_frac s2 with
      | None => None
      | Some (fp, s3) =>
          match parse_exp s3 with
          | None => None
          | Some (e, s4) =>
              Some (Number.of_decimal neg (digits_value 0 (ip ++ fp))
                      (e - Z.of_nat (List.length fp))%Z, s4)
          end
      end
  end.

(** The literals [null], [true] and [false]. *)
Definition parse_literal (s : jsstring) : option (json * jsstring) :=
  if startsWith s (lit "null") then Some (JNull, slice s 4)
  else if startsWith s (lit "true") then Some (JBool true, slice s 4)
  else if startsWith s (lit "false") then Some (JBool false, slice s 5)
  else None.

(** A value that is no array and no object: a string, a literal or a
    number. *)
Definition parse_scalar (s : jsstring) : option (json * jsstring) :=
  match eat 34 s with
  | Some r =>
      match parse_chars r with
      | Some (str, r') => Some (JStr str, r')
      | None => None
      end
  | None =>
      match parse_literal s with
      | Some res => Some res
      | None =>
          match parse_number s with
          | Some (x, r') => Some (JNum x, r')
          | None => None
          end
      end
  end.

(** A value; the elements of an array after its opening bracket; the
    members of an object after its opening brace.  Each call uses up one
    unit of [fuel]. *)
Fixpoint parse_value (fuel : nat) (s : jsstring) : option (json * jsstring) :=
  match fuel with
  | O => None
  | S fuel' =>
      let s := skip_ws s in
      match eat 91 s with
      | Some r =>
          match eat 93 (skip_ws r) with
          | Some r' => Some (JArr [], r')
          | None => parse_elements fuel' [] r
          end
      | None =>
          match eat 123 s with
          | Some r =>
              match eat 125 (skip_ws r) with
              | Some r' => Some (JObj [], r')
              | None => parse_members fuel' [] r
              end
          | None => parse_scalar s
          end
      end
  end
with parse_elements (fuel : nat) (acc : list json) (s : jsstring)
  : option (json * jsstring) :=
  match fuel with
  | O => None
  | S fuel' =>
      match parse_value fuel' s with
      | None => None
      | Some (v, r) =>
          match eat 44 (skip_ws r) with
          | Some r' => parse_elements fuel' (v :: acc) r'
          | None =>
              match eat 93 (skip_ws r) with
              | Some r' => Some (JArr (rev (v :: acc)), r')
              | None => None
              end
          end
      end
  end
with parse_members (fuel : nat) (acc : list (jsstring * json)) (s : jsstring)
  : option (json * jsstring) :=
  match fuel with
  | O => None
  | S fuel' =>
      match eat 34 (skip_ws s) with
      | None => None
      | Some r =>
          match parse_chars r with
          | None => None
          | Some (key, r1) =>
              match eat 58 (skip_ws r1) with
              | None => None
              | Some r2 =>
                  match parse_value fuel' r2 with
                  | None => None
                  | Some (v, r3) =>
                      match eat 44 (skip_ws r3) with
                      | Some r4 => parse_members fuel' (define key v acc) r4
                      | None =>
                          match eat 125 (skip_ws r3) with
                          | Some r4 => Some (JObj (define key v acc), r4)
                          | None => None
                          end
                      end
                  end
              end
          end
      end
  end.

(** [JSON.parse(text)]: [None] stands for the SyntaxError it throws. *)
Definition parse (text : jsstring) : option json :=
  match parse_value (S (List.length text)) text with
  | Some (v, r) => match skip_ws r with [] => Some v | _ => None end
  | None => None
  end.

(** *** Printing *)

Definition hex_char (d : N) : code_unit :=
  if d <? 10 then 48 + d else 87 + d.

(** [\uXXXX], in lower-case hexadecimal. *)
Definition unicode_escape (c : code_unit) : jsstring :=
  [92; 117; hex_char (c / 4096); hex_char ((c / 256) mod 16);
   hex_char ((c / 16) mod 16); hex_char (c mod 16)].

Definition quote_one (c : code_unit) : jsstring :=
  if c =? 8 then [92; 98]
  else if c =? 9 then [92; 116]
  else if c =? 10 then [92; 110]
  else if c =? 12 then [92; 102]
  else if c =? 13 then [92; 114]
  else if c =? 34 then [92; 34]
  else if c =? 92 then [92; 92]
  else if c <? 32 then unicode_escape c
  else [c].

Fixpoint quote_chars (s : jsstring) : jsstring :=
  match s with
  | [] => []
  | c :: s' =>
      if is_lead_surrogate c then
        match s' with
        | c2 :: s'' =>
            if is_trail_surrogate c2 then c :: c2 :: quote_chars s''
            else unicode_escape c ++ quote_chars s'
        | [] => unicode_escape c
        end
      else if is_trail_surrogate c then unicode_escape c ++ quote_chars s'
      else quote_one c ++ quote_chars s'
  end.

(** [JSON.stringify(s)] for a string [s]. *)
Definition quote (s : jsstring) : jsstring :=
  [QUOTE] ++ quote_chars s ++ [QUOTE].

(** [JSON.stringify(v)] *)
Fixpoint stringify (v : json) : jsstring :=
  match v with
  | JNull => lit "null"
  | JBool true => lit "true"
  | JBool false => lit "false"
  | JNum x => if Number.is_finite x then Number.toString x else lit "null"
  | JStr s => quote s
  | JArr l =>
      lit "[" ++
      (fix elements (l : list json) : jsstring :=
         match l with
         | [] => []
         | [x] => stringify x
         | x :: l' => stringify x ++ lit "," ++ elements l'
         end) l
      ++ lit "]"
  | JObj ps =>
      lit "{" ++
      (fix members (ps : list (jsstring * json)) : jsstring :=
         match ps with
         | [] => []
         | [(k, x)] => quote k ++ lit ":" ++ stringify x
         | (k, x) :: ps' => quote k ++ lit ":" ++ stringify x ++ lit "," ++ members ps'
         end) ps
      ++ lit "}"
  end.

(** *** The operators the two components apply to parsed values *)

(** [!!v] for a value that may be [undefined]. *)
Definition truthy (v : option json) : bool :=
  match v with
  | None => false
  | Some JNull => false
  | Some (JBool b) => b
  | Some (JNum x) =>
      match x with S754_zero _ | S754_nan => false | _ => true end
  | Some (JStr s) => JSString.truthy s
  | Some (JArr _) | Some (JObj _) => true
  end.

(** [String(v)], as string concatenation coerces its operand.  An array is
    joined with commas, [null] elements printing as nothing; an object
    prints through [Object.prototype.toString] unless an own property
    [toString], which is no function, hides it: then no conversion is left
    and a TypeError is thrown. *)
Fixpoint ToString (v : json) : completion jsstring :=
  match v with
  | JNull => Normal (lit "null")
  | JBool true => Normal (lit "true")
  | JBool false => Normal (lit "false")
  | JNum x => Normal (Number.toString x)
  | JStr s => Normal s
  | JArr l =>
      (fix join (l : list json) : completion jsstring :=
         match l with
         | [] => Normal []
         | x :: l' =>
             s <- match x with JNull => Normal [] | _ => ToString x end ;;
             match l' with
             | [] => Normal s
             | _ => t <- join l' ;; Normal (s ++ lit "," ++ t)
             end
         end) l
  | JObj ps =>
      match lookup (lit "toString") ps with
      | Some _ => Throw TypeError
      | None => Normal (lit "[object Object]")
      end
  end.

(** [v[key]] on a value that is neither [null] nor [undefined], for a [key]
    that names no inherited property; [None] is [undefined]. *)
Definition member (v : json) (key : jsstring) : option json :=
  match v with
  | JObj ps => lookup key ps
  | JArr l =>
      match array_index key with
      | Some i => nth_error l (N.to_nat i)
      | None =>
          if eqb key (lit "length")
          then Some (JNum (Number.of_N (N.of_nat (List.length l))))
          else None
      end
  | JStr s =>
      match array_index key with
      | Some i =>
          match nth_error s (N.to_nat i) with
          | Some c => Some (JStr [c])
          | None => None
          end
      | None =>
          if eqb key (lit "length")
          then Some (JNum (Number.of_N (N.of_nat (List.length s))))
          else None
      end
  | _ => None
  end.

(** [v?.[key]] further down an optional chain. *)
Definition optional_member (v : option json) (key : jsstring) : option json :=
  match v with
  | None | Some JNull => None
  | Some w => member w key
  end.

End JSON.

(** ** HTTP responses

    The body of a response is a stream of byte chunks that either closes or
    fails once its chunks have been delivered. *)

Module Http.
Import JSString UTF8.

Record Stream := {
  chunks : list bytes;
  errored : bool
}.

Record Response := {
  status : N;
  headers : list (jsstring * jsstring);
  body : option Stream
}.

(** [response.ok] *)
Definition ok (r : Response) : bool := (200 <=? status r) && (status r <=? 299).

(** What [fetch] settles to: the promise is rejected, or it resolves to a
    response. *)
Inductive FetchResult :=
| Rejected
| Resolved (r : Response).

End Http.

(** ** The Stream Reformatter: [app/api/chat/route.ts] *)

Module Route.
Import JSString UTF8 JSON Completion Http.

Definition maxDuration : N := 30.

Definition SYSTEM_PROMPT : jsstring := lit
"You are Sparkle Assistant, a friendly and professional customer service representative for a residential and commercial cleaning business.

Your responsibilities:
- Answer questions about cleaning services (residential, commercial, deep cleaning, move-in/move-out, etc.)
- Provide general pricing information and explain that exact quotes require an assessment
- Help customers understand what's included in different cleaning packages
- Assist with scheduling inquiries
- Address common concerns about cleaning products, pet safety, and eco-friendly options
- Collect customer information for booking requests

Service offerings:
- Standard Cleaning: Regular maintenance cleaning for homes and offices
- Deep Cleaning: Thorough top-to-bottom cleaning including baseboards, inside appliances, etc.
- Move-In/Move-Out Cleaning: Comprehensive cleaning for property transitions
- Commercial Cleaning: Office buildings, retail spaces, and commercial properties
- Specialty Services: Carpet cleaning, window washing, post-construction cleanup

Be helpful, warm, and professional. If you don't know specific pricing, explain that a representative will provide a custom quote. Always encourage customers to book a free consultation.".

(** A message of the request body, as the callback of [messages.map]
    types it: [{ role: string; content?: string; parts?: Array<{ type:
    string; text?: string }> }]. *)
Record part := {
  type : jsstring;
  text : option jsstring
}.

Record msg := {
  role : jsstring;
  content : option jsstring;
  parts : option (list part)
}.

(** A message as it is sent upstream: [{ role, content }]. *)
Record coreMessage := {
  core_role : jsstring;
  core_content : jsstring
}.

(** [a || b] on operands that are strings or [undefined]. *)
Definition or_else (a b : option jsstring) : option jsstring :=
  match a with
  | Some (_ :: _) => a
  | _ => b
  end.

(** [ts.join("")]: an [undefined] element joins as nothing. *)
Definition join (ts : list (option jsstring)) : jsstring :=
  List.concat (List.map (fun t => match t with Some s => s | None => [] end) ts).

(** [msg.parts?.filter((p) => p.type === "text").map((p) => p.text).join("")] *)
Definition text_of_parts (m : msg) : option jsstring :=
  match parts m with
  | None => None
  | Some ps =>
      Some (join (List.map text
                    (filter (fun p => eqb (type p) (lit "text")) ps)))
  end.

(** The callback of [messages.map] (lines 37-46). *)
Definition coreMessage_of (m : msg) : coreMessage :=
  {| core_role := role m;
     core_content :=
       match or_else (or_else (content m) (text_of_parts m)) (Some []) with
       | Some s => s
       | None => []
       end |}.

Definition coreMessages (messages : list msg) : list coreMessage :=
  List.map coreMessage_of messages.

Definition messagesWithSystem (messages : list msg) : list coreMessage :=
  {| core_role := lit "system"; core_content := SYSTEM_PROMPT |}
  :: coreMessages messages.

(** The request [POST] sends to the provider. *)
Record UpstreamRequest := {
  url : jsstring;
  method : jsstring;
  authorization : jsstring;
  model : jsstring;
  messages : list coreMessage;
  stream : bool
}.

Definition upstream_request (OPENAI_API_KEY : option jsstring)
  (msgs : list msg) : UpstreamRequest :=
  {| url := lit "https://api.openai.com/v1/chat/completions";
     method := lit "POST";
     authorization :=
       lit "Bearer " ++
       match OPENAI_API_KEY with Some k => k | None => lit "undefined" end;
     model := lit "gpt-4o-mini";
     messages := messagesWithSystem msgs;
     stream := true |}.

(** *** The TransformStream (lines 74-110) *)

Definition finishMessage : json :=
  JObj [(lit "type", JStr (lit "finish"));
        (lit "finishReason", JStr (lit "stop"))].

(** The line [d:{...}] that ends a reformatted stream. *)
Definition finish_line : jsstring :=
  lit "d:" ++ stringify finishMessage ++ [LF].

(** The line [0:...] that carries one delta. *)
Definition delta_line (content : json) : jsstring :=
  lit "0:" ++ stringify content ++ [LF].

(** [parsed.choices?.[0]?.delta?.content]: reading [choices] off [null]
    throws, every later step of the chain stops at [null] or [undefined]. *)
Definition content_of (parsed : json) : completion (option json) :=
  match parsed with
  | JNull => Throw TypeError
  | _ =>
      Normal
        (optional_member
           (optional_member
              (optional_member (member parsed (lit "choices")) (lit "0"))
              (lit "delta"))
           (lit "content"))
  end.

(** The body of the inner [try] (lines 97-103): the new [fullContent] and
    the chunks enqueued. *)
Definition try_parse (fullContent data : jsstring)
  : completion (jsstring * list bytes) :=
  parsed <- match parse data with
            | Some v => Normal v
            | None => Throw SyntaxError
            end ;;
  content <- content_of parsed ;;
  match content with
  | Some c =>
      if truthy content then
        str <- ToString c ;;
        Normal (fullContent ++ str, [encode (delta_line c)])
      else Normal (fullContent, [])
  | None => Normal (fullContent, [])
  end.

(** One turn of the [for] loop over the lines of a chunk (lines 85-107). *)
Definition transform_line (fullContent line : jsstring)
  : jsstring * list bytes :=
  if startsWith line (lit "data: ") then
    let data := slice line 6 in
    if eqb data (lit "[DONE]") then (fullContent, [encode finish_line])
    else try_catch (try_parse fullContent data) (fun _ => (fullContent, []))
  else (fullContent, []).

Fixpoint transform_lines (fullContent : jsstring) (lines : list jsstring)
  : jsstring * list bytes :=
  match lines with
  | [] => (fullContent, [])
  | line :: rest =>
      let '(fc1, out1) := transform_line fullContent line in
      let '(fc2, out2) := transform_lines fc1 rest in
      (fc2, out1 ++ out2)
  end.

(** What the callbacks of one TransformStream share: the decoder and the
    accumulated content. *)
Record TransformState := {
  decoder : TextDecoder;
  fullContent : jsstring
}.

Definition transform_init : TransformState :=
  {| decoder := new_TextDecoder; fullContent := [] |}.

(** [text.split("\n").filter((line) => line.trim() !== "")] *)
Definition lines_of (text : jsstring) : list jsstring :=
  filter (fun line => negb (eqb (trim line) [])) (split text).

(** [transform(chunk, controller)]: the new state and the chunks enqueued
    on the controller. *)
Definition transform (st : TransformState) (chunk : bytes)
  : TransformState * list bytes :=
  let '(dec, text) := decode (decoder st) chunk in
  let lines := lines_of text in
  let '(fc, out) := transform_lines (fullContent st) lines in
  ({| decoder := dec; fullContent := fc |}, out).

Fixpoint transform_all (st : TransformState) (cs : list bytes)
  : TransformState * list bytes :=
  match cs with
  | [] => (st, [])
  | c :: cs' =>
      let '(st1, out1) := transform st c in
      let '(st2, out2) := transform_all st1 cs' in
      (st2, out1 ++ out2)
  end.

(** [body.pipeThrough(transformStream)] with a fresh TransformStream. *)
Definition pipeThrough (s : Stream) : Stream :=
  {| chunks := snd (transform_all transform_init (chunks s));
     errored := errored s |}.

(** *** The handler (lines 31-125) *)

Definition error_body : jsstring :=
  stringify (JObj [(lit "error", JStr (lit "Failed to process chat request"))]).

Definition failure_response : Response :=
  {| status := 500;
     headers := [(lit "Content-Type", lit "application/json")];
     body := Some {| chunks := [encode error_body]; errored := false |} |}.

Definition stream_response (upstream_body : option Stream) : Response :=
  {| status := 200;
     headers := [(lit "Content-Type", lit "text/plain; charset=utf-8");
                 (lit "X-Vercel-AI-Data-Stream", lit "v1")];
     body := option_map pipeThrough upstream_body |}.

(** [await response.text()]: it fails when the body does; its value is only
    logged. *)
Definition response_text (r : Response) : completion unit :=
  match body r with
  | Some s => if errored s then Throw NetworkError else Normal tt
  | None => Normal tt
  end.

(** The body of the outer [try]: the response returned, or the exception
    thrown, and the requests sent upstream on the way.  [request_json] is
    what [await req.json()] gave for [messages]: a list, nothing
    ([undefined], on which [.map] throws), or a rejection. *)
Definition try_POST (OPENAI_API_KEY : option jsstring)
  (request_json : completion (option (list msg)))
  (fetch : UpstreamRequest -> FetchResult)
  : completion Response * list UpstreamRequest :=
  match request_json with
  | Throw e => (Throw e, [])
  | Normal None => (Throw TypeError, [])
  | Normal (Some msgs) =>
      let request := upstream_request OPENAI_API_KEY msgs in
      (match fetch request with
       | Rejected => Throw NetworkError
       | Resolved response =>
           if negb (ok response) then
             _ <- response_text response ;;
             Throw (Error (lit "OpenAI API error: " ++ decimal (status response)))
           else Normal (stream_response (body response))
       end, [request])
  end.

(** [POST(req)] *)
Definition POST (OPENAI_API_KEY : option jsstring)
  (request_json : completion (option (list msg)))
  (fetch : UpstreamRequest -> FetchResult)
  : Response * list UpstreamRequest :=
  let '(result, sent) := try_POST OPENAI_API_KEY request_json fetch in
  (try_catch result (fun _ => failure_response), sent).

End Route.

(** ** The Incremental Reply Renderer: [components/chatbot.tsx] *)

Module Chatbot.
Import JSString UTF8 JSON Completion Http.

Inductive Role := user | assistant.

Record Message := {
  id : jsstring;
  role : Role;
  content : jsstring
}.

(** The four [useState] cells of the component. *)
Record State := {
  isOpen : bool;
  input : jsstring;
  messages : list Message;
  isLoading : bool
}.

Definition initial_state : State :=
  {| isOpen := false; input := []; messages := []; isLoading := false |}.

(** What a turn does to the outside, in order: the state setters it calls
    (with the value the cell takes), the request it sends (the [messages]
    of its body), what it logs. *)
Inductive Event :=
| SetMessages (next : list Message)
| SetIsLoading (b : bool)
| SetInput (s : jsstring)
| Fetch (body : list (Role * jsstring))
| ConsoleError.

Definition world := (State * list Event)%type.

Definition setMessages (f : list Message -> list Message) (w : world) : world :=
  let '(st, tr) := w in
  let next := f (messages st) in
  ({| isOpen := isOpen st; input := input st; messages := next;
      isLoading := isLoading st |}, tr ++ [SetMessages next]).

Definition setIsLoading (b : bool) (w : world) : world :=
  let '(st, tr) := w in
  ({| isOpen := isOpen st; input := input st; messages := messages st;
      isLoading := b |}, tr ++ [SetIsLoading b]).

Definition setInput (s : jsstring) (w : world) : world :=
  let '(st, tr) := w in
  ({| isOpen := isOpen st; input := s; messages := messages st;
      isLoading := isLoading st |}, tr ++ [SetInput s]).

Definition emit (e : Event) (w : world) : world :=
  let '(st, tr) := w in (st, tr ++ [e]).

Definition apology : jsstring :=
  lit "Sorry, I encountered an error. Please try again.".

(** [prev.map((m) => (m.id === assistantId ? { ...m, content } : m))] *)
Definition with_content (assistantId content : jsstring) (prev : list Message)
  : list Message :=
  List.map (fun m =>
              if eqb (id m) assistantId
              then {| id := id m; role := role m; content := content |}
              else m) prev.

(** The body of the request: [[...messages, userMsg].map((m) => ({ role:
    m.role, content: m.content }))], over the [messages] the callback
    closed over. *)
Definition request_body (messages : list Message) (userMsg : Message)
  : list (Role * jsstring) :=
  List.map (fun m => (role m, content m)) (messages ++ [userMsg]).

(** The body of the inner [try] (lines 75-77): the parsed value appended
    to [fullContent] and republished. *)
Definition try_delta (assistantId fullContent line : jsstring) (w : world)
  : completion (jsstring * world) :=
  content <- match parse (slice line 2) with
             | Some v => Normal v
             | None => Throw SyntaxError
             end ;;
  str <- ToString content ;;
  let fullContent' := fullContent ++ str in
  Normal (fullContent', setMessages (with_content assistantId fullContent') w).

(** One turn of the [for] loop over the lines of a chunk (lines 71-82). *)
Definition read_line (assistantId fullContent line : jsstring) (w : world)
  : jsstring * world :=
  if startsWith line (lit "0:")
  then try_catch (try_delta assistantId fullContent line w)
         (fun _ => (fullContent, w))
  else (fullContent, w).

Fixpoint read_lines (assistantId fullContent : jsstring)
  (lines : list jsstring) (w : world) : jsstring * world :=
  match lines with
  | [] => (fullContent, w)
  | line :: rest =>
      let '(fc, w') := read_line assistantId fullContent line w in
      read_lines assistantId fc rest w'
  end.

(** [chunk.split("\n").filter((line) => line.trim())] *)
Definition lines_of (chunk : jsstring) : list jsstring :=
  filter (fun line => JSString.truthy (trim line)) (split chunk).

(** The [while] loop (lines 64-83) over the chunks [reader.read()] yields
    before the stream is done. *)
Fixpoint read_chunks (assistantId : jsstring) (decoder : TextDecoder)
  (fullContent : jsstring) (values : list bytes) (w : world)
  : jsstring * world :=
  match values with
  | [] => (fullContent, w)
  | value :: rest =>
      let '(decoder', chunk) := decode decoder value in
      let '(fc, w') := read_lines assistantId fullContent (lines_of chunk) w in
      read_chunks assistantId decoder' fc rest w'
  end.

(** The turn up to the point where [fetch] has been called (lines 29-51):
    the two appends, the loading flag, the request. *)
Definition sendMessage_start (messages : list Message)
  (userMessage : jsstring) (now1 now2 : N) (w : world) : world :=
  let userMsg :=
    {| id := lit "user-" ++ decimal now1; role := user;
       content := userMessage |} in
  let w := setMessages (fun prev => prev ++ [userMsg]) w in
  let w := setIsLoading true w in
  let assistantId := lit "assistant-" ++ decimal now2 in
  let w := setMessages
             (fun prev => prev ++ [{| id := assistantId; role := assistant;
                                      content := [] |}]) w in
  emit (Fetch (request_body messages userMsg)) w.

(** The rest of the [try] block, once [fetch] has settled (lines 53-83). *)
Definition try_read (assistantId : jsstring) (net : FetchResult) (w : world)
  : world * completion unit :=
  match net with
  | Rejected => (w, Throw NetworkError)
  | Resolved response =>
      if negb (ok response)
      then (w, Throw (Error (lit "Failed to send message")))
      else
        match body response with
        | None => (w, Throw (Error (lit "No response body")))
        | Some s =>
            let '(_, w') :=
              read_chunks assistantId new_TextDecoder [] (chunks s) w in
            (w', if errored s then Throw NetworkError else Normal tt)
        end
  end.

(** The turn from there on (lines 41-93): the response is read inside
    [try], [catch] writes the apology, [finally] clears the loading flag.
    The completion is how the promise of [sendMessage] settles. *)
Definition sendMessage_resume (now2 : N) (net : FetchResult) (w : world)
  : world * completion unit :=
  let assistantId := lit "assistant-" ++ decimal now2 in
  try_catch_finally
    (try_read assistantId net)
    (fun _ w =>
       (setMessages (with_content assistantId apology) (emit ConsoleError w),
        Normal tt))
    (fun w => (setIsLoading false w, Normal tt))
    w.

(** [sendMessage(userMessage)].  [messages] is the list the callback closed
    over, [now1] and [now2] are what the two calls of [Date.now()] return,
    [net] is what [fetch] settles to. *)
Definition sendMessage (messages : list Message) (userMessage : jsstring)
  (now1 now2 : N) (net : FetchResult) (w : world) : world * completion unit :=
  sendMessage_resume now2 net
    (sendMessage_start messages userMessage now1 now2 w).

(** [handleSubmit(e)]: [sendMessage(input)] runs up to its first [await],
    the input is cleared, and the turn goes on when [fetch] settles; the
    promise of [sendMessage] is not awaited. *)
Definition handleSubmit (now1 now2 : N) (net : FetchResult) (st : State)
  : world :=
  if negb (JSString.truthy (trim (input st))) || isLoading st then (st, [])
  else
    fst (sendMessage_resume now2 net
           (setInput []
              (sendMessage_start (messages st) (input st) now1 now2 (st, [])))).

(** The message lists the turn published, in order. *)
Fixpoint published (tr : list Event) : list (list Message) :=
  match tr with
  | [] => []
  | SetMessages next :: tr' => next :: published tr'
  | _ :: tr' => published tr'
  end.

End Chatbot.

(** * Properties

    ** Vocabulary of the statements *)

Module ChatbotSpec.
Import JSString UTF8 JSON Completion Http Chatbot.

(** The role/content pairs of a conversation, in conversation order. *)
Definition history (ms : list Message) : list (Role * jsstring) :=
  List.map (fun m => (role m, content m)) ms.

Definition userMsg_of (userMessage : jsstring) (now1 : N) : Message :=
  {| id := lit "user-" ++ decimal now1; role := user; content := userMessage |}.

Definition assistantId_of (now2 : N) : jsstring :=
  lit "assistant-" ++ decimal now2.

Definition placeholder_of (now2 : N) : Message :=
  {| id := assistantId_of now2; role := assistant; content := [] |}.

(** [frame assistantId a b]: [b] has the messages of [a], in the same
    order, with the same ids and roles; a message whose id is not
    [assistantId] is unchanged. *)
Definition frame (assistantId : jsstring) (a b : list Message) : Prop :=
  Forall2 (fun m m' =>
             id m' = id m /\ role m' = role m /\
             (id m <> assistantId -> m' = m)) a b.

(** [R] holds between each element of the list and the next. *)
Fixpoint chain {A} (R : A -> A -> Prop) (l : list A) : Prop :=
  match l with
  | a :: t => match t with
              | b :: _ => R a b /\ chain R t
              | [] => True
              end
  | [] => True
  end.

(** The successive message lists when the contents [cs] are republished
    one after the other. *)
Fixpoint snapshots (assistantId : jsstring) (cs : list jsstring)
  (ms : list Message) : list (list Message) :=
  match cs with
  | [] => []
  | c :: cs' =>
      let ms' := with_content assistantId c ms in
      ms' :: snapshots assistantId cs' ms'
  end.

Definition is_fetch (e : Event) : bool :=
  match e with Fetch _ => true | _ => false end.

(** The loading flag is set before the one request of the trace, and the
    trace ends with the flag being cleared. *)
Definition flag_brackets_network (tr : list Event) : Prop :=
  exists before between after body,
    tr = before ++ SetIsLoading true :: between ++ Fetch body :: after ++ [SetIsLoading false]
    /\ forallb (fun e => negb (is_fetch e)) (before ++ between ++ after) = true.

(** The request did not succeed: [fetch] was rejected, the status is no
    success, or the response has no body. *)
Definition request_failed (net : FetchResult) : Prop :=
  match net with
  | Rejected => True
  | Resolved r => ok r = false \/ body r = None
  end.

(** The contents [cs] republished one after the other. *)
Definition republished (assistantId : jsstring) (cs : list jsstring)
  (w : world) : world :=
  fold_left (fun w c => setMessages (with_content assistantId c) w) cs w.

(** Reading the deltas [ds] one after the other: each is appended to the
    accumulator, which is then republished. *)
Fixpoint read_deltas (assistantId fullContent : jsstring)
  (ds : list jsstring) (w : world) : jsstring * world :=
  match ds with
  | [] => (fullContent, w)
  | d :: ds' =>
      read_deltas assistantId (fullContent ++ d) ds'
        (setMessages (with_content assistantId (fullContent ++ d)) w)
  end.

End ChatbotSpec.

Module UTF8Spec.
Import JSString UTF8.

(** A scalar value: a code point that is no surrogate. *)
Definition is_scalar (cp : N) : bool :=
  (cp <? 1114112) && negb (is_surrogate cp).

(** A well-formed string: code units below 2^16, every lead surrogate
    followed by a trail surrogate, no other trail surrogate. *)
Fixpoint well_formed (s : jsstring) : bool :=
  match s with
  | [] => true
  | c :: s' =>
      if is_lead_surrogate c then
        match s' with
        | c2 :: s'' => is_trail_surrogate c2 && well_formed s''
        | [] => false
        end
      else negb (is_trail_surrogate c) && (c <? 65536) && well_formed s'
  end.

(** A string of 16-bit code units, paired or not. *)
Definition is_string (s : jsstring) : bool :=
  forallb (fun c => c <? 65536) s.

(** A string of 16-bit code units none of which is a surrogate. *)
Definition plain (s : jsstring) : bool :=
  forallb (fun c => negb (is_surrogate c) && (c <? 65536)) s.

(** A string without a line feed. *)
Definition no_LF (s : jsstring) : bool := forallb (fun c => negb (c =? LF)) s.

End UTF8Spec.

Module RouteSpec.
Import JSString UTF8 JSON Completion Http Route.

(** The text of the text-typed parts, concatenated in document order. *)
Definition text_typed_parts (ps : list part) : jsstring :=
  List.concat
    (List.map (fun p => match text p with Some t => t | None => [] end)
       (filter (fun p => eqb (type p) (lit "text")) ps)).

(** The content of a normalized message as C4 words it: the content when
    it is supplied, otherwise the text of the text-typed parts, otherwise
    the empty string. *)
Definition claimed_content (m : msg) : jsstring :=
  match content m with
  | Some c => c
  | None =>
      match parts m with
      | Some ps => text_typed_parts ps
      | None => []
      end
  end.

(** The same, with a content that is supplied but empty treated like one
    that is not supplied. *)
Definition normalized_content (m : msg) : jsstring :=
  match content m with
  | Some (c :: s) => c :: s
  | _ =>
      match parts m with
      | Some ps => text_typed_parts ps
      | None => []
      end
  end.

Definition system_message : coreMessage :=
  {| core_role := lit "system"; core_content := SYSTEM_PROMPT |}.

(** What the loop of [transform] enqueues for one line. *)
Definition emitted (line : jsstring) : list bytes :=
  snd (transform_line [] line).

(** The lines the loop of [transform] runs over, chunk after chunk. *)
Fixpoint lines_seen (dec : TextDecoder) (cs : list bytes) : list jsstring :=
  match cs with
  | [] => []
  | c :: cs' =>
      let '(dec', text) := decode dec c in
      lines_of text ++ lines_seen dec' cs'
  end.

(** A chunk of the provider's stream that holds the lines [g], each ended
    by a line feed, and nothing else. *)
Definition upstream_chunk (g : list jsstring) : bytes :=
  encode (List.concat (List.map (fun l => l ++ [LF]) g)).

(** A line that the encoder and the decoder leave as it is: well formed,
    without a line feed inside, not starting with a byte order mark. *)
Definition plain_line (l : jsstring) : bool :=
  UTF8Spec.well_formed l && UTF8Spec.no_LF l && negb (hd 0 l =? BOM).

(** The provider's end-of-stream line. *)
Definition done_line : jsstring := lit "data: [DONE]".

(** [has_content v c]: the parsed event [v] has a property [choices], which
    has a first element, which has a property [delta], which has the
    property [content] with value [c]. *)
Definition has_content (v c : json) : Prop :=
  exists choices first delta,
    member v (lit "choices") = Some choices
    /\ member choices (lit "0") = Some first
    /\ member first (lit "delta") = Some delta
    /\ member delta (lit "content") = Some c.

(** The remainder of an event line that is neither the end-of-stream
    sentinel nor JSON with a first-choice content. *)
Definition malformed (data : jsstring) : Prop :=
  data <> lit "[DONE]"
  /\ forall v c, parse data = Some v -> ~ has_content v c.

(** An event line that carries the non-empty string [s] as its content. *)
Definition carries (line s : jsstring) : Prop :=
  startsWith line (lit "data: ") = true
  /\ s <> []
  /\ exists v, parse (slice line 6) = Some v /\ has_content v (JStr s).

End RouteSpec.

(** The reformatted stream, line by line. *)
Module WireSpec.
Import JSString UTF8 JSON Completion Http.

Inductive wire_line :=
| Delta (d : jsstring)
| Finish.

(** A line without its line feed. *)
Definition line_body (l : wire_line) : jsstring :=
  match l with
  | Delta d => lit "0:" ++ stringify (JStr d)
  | Finish => lit "d:" ++ stringify Route.finishMessage
  end.

(** A line as the Reformatter writes it. *)
Definition render (l : wire_line) : jsstring :=
  match l with
  | Delta d => Route.delta_line (JStr d)
  | Finish => Route.finish_line
  end.

(** The bytes of a chunk that holds the lines [g] and nothing else. *)
Definition chunk_of (g : list wire_line) : bytes :=
  encode (List.concat (List.map render g)).

Fixpoint deltas_of (ls : list wire_line) : list jsstring :=
  match ls with
  | [] => []
  | Delta d :: ls' => d :: deltas_of ls'
  | Finish :: ls' => deltas_of ls'
  end.

(** The deltas are strings of 16-bit code units. *)
Definition valid_line (l : wire_line) : bool :=
  match l with
  | Delta d => UTF8Spec.is_string d
  | Finish => true
  end.

(** A stream of delta lines followed by the terminal line. *)
Definition reformatted (deltas : list jsstring) : list wire_line :=
  List.map Delta deltas ++ [Finish].

End WireSpec.

(** Concrete inputs used below. *)
Module Examples.
Import JSString UTF8 JSON Completion Http WireSpec.

Definition response_500 : Response :=
  {| status := 500; headers := []; body := None |}.

Definition response_401 : Response :=
  {| status := 401; headers := []; body := None |}.

(** The component with [hi] typed into its input. *)
Definition typed_hi : Chatbot.State :=
  {| Chatbot.isOpen := true; Chatbot.input := lit "hi";
     Chatbot.messages := []; Chatbot.isLoading := false |}.

(** The reformatted stream of the one delta [hi]. *)
Definition hi_stream : bytes := chunk_of (reformatted [lit "hi"]).

(** The reformatted stream of the one delta that is the letter U+00E9. *)
Definition e_acute_stream : bytes := chunk_of (reformatted [[233]]).

(** An event of the provider that carries the content [s]:
    [{"choices":[{"delta":{"content":s}}]}]. *)
Definition event (s : jsstring) : json :=
  JObj [(lit "choices",
         JArr [JObj [(lit "delta", JObj [(lit "content", JStr s)])]])].

Definition event_line (s : jsstring) : jsstring :=
  lit "data: " ++ stringify (event s).

(** The conversation and the provider's stream of the end-to-end scenario
    of the specification: the tokens [Yes], [, we] and [ do.], then the
    sentinel. *)
Definition carpet_question : jsstring := lit "Do you offer carpet cleaning?".

Definition carpet_request : list Route.msg :=
  [{| Route.role := lit "user"; Route.content := Some carpet_question;
      Route.parts := None |}].

Definition carpet_upstream : Response :=
  {| status := 200; headers := [];
     body :=
       Some {| chunks :=
                 [encode (event_line (lit "Yes") ++ [LF; LF]);
                  encode (event_line (lit ", we") ++ [LF; LF]
                          ++ event_line (lit " do.") ++ [LF; LF]);
                  encode (RouteSpec.done_line ++ [LF; LF])];
               errored := false |} |}.

(** The provider's stream for the one token [hi]. *)
Definition hi_upstream : bytes :=
  encode (event_line (lit "hi") ++ [LF; LF] ++ RouteSpec.done_line ++ [LF; LF]).

(** A stream that goes on after [data: [DONE]]. *)
Definition done_then_more : bytes :=
  encode (RouteSpec.done_line ++ [LF] ++ event_line (lit "x") ++ [LF]).

(** A stream with two lines [data: [DONE]]. *)
Definition done_twice : bytes :=
  encode (RouteSpec.done_line ++ [LF] ++ RouteSpec.done_line ++ [LF]).

(** A stream with an event that is no JSON between two events. *)
Definition garbled_upstream : bytes :=
  encode (event_line (lit "a") ++ [LF] ++ lit "data: {oops" ++ [LF]
          ++ event_line (lit "b") ++ [LF]).

(** A string with a quote, a backslash, a line feed, a control character,
    a non-ASCII letter, a surrogate pair and a lone surrogate. *)
Definition awkward : jsstring := [34; 92; 10; 1; 233; 55357; 56832; 55357].

End Examples.

(** ** The view of the component: the markup [Chatbot] returns
    ([components/chatbot.tsx], lines 111-222)

    Of the markup the model keeps what depends on the state: the icon of
    the toggle button, whether the window is shown, the message area, and
    the attributes of the input and of the send button. *)

Module View.
Import JSString Chatbot.

Inductive Icon := X | MessageCircle.

Inductive Justify := justify_end | justify_start.

Inductive Avatar := SparklesAvatar | UserAvatar.

(** [message.content || <the three bouncing dots>] *)
Inductive BubbleBody :=
| Text (s : jsstring)
| Dots.

(** One message of the list (lines 158-191): its [key], the side it is
    on, the avatar before the bubble, the colours of the bubble, what the
    bubble shows, the avatar after it. *)
Record Bubble := {
  bubble_key : jsstring;
  justify : Justify;
  avatar_before : option Avatar;
  user_colours : bool;
  bubble_body : BubbleBody;
  avatar_after : option Avatar
}.

(** The message area (lines 150-196): the welcome panel, or the list. *)
Inductive Area :=
| Welcome
| Bubbles (bs : list Bubble).

Record View := {
  toggle_icon : Icon;
  window_shown : bool;
  area : Area;
  input_value : jsstring;
  input_disabled : bool;
  submit_disabled : bool
}.

Definition bubble (message : Message) : Bubble :=
  {| bubble_key := id message;
     justify := match role message with
                | user => justify_end
                | assistant => justify_start
                end;
     avatar_before := match role message with
                      | assistant => Some SparklesAvatar
                      | user => None
                      end;
     user_colours := match role message with
                     | user => true
                     | assistant => false
                     end;
     bubble_body := if JSString.truthy (content message)
                    then Text (content message) else Dots;
     avatar_after := match role message with
                     | user => Some UserAvatar
                     | assistant => None
                     end |}.

(** What the component returns in the state [st]. *)
Definition render (st : State) : View :=
  {| toggle_icon := if isOpen st then X else MessageCircle;
     window_shown := isOpen st;
     area := match messages st with
             | [] => Welcome
             | _ => Bubbles (List.map bubble (messages st))
             end;
     input_value := input st;
     input_disabled := isLoading st;
     submit_disabled :=
       isLoading st || negb (JSString.truthy (trim (input st))) |}.

(** The [onChange] of the input: [setInput(e.target.value)]. *)
Definition onChange (value : jsstring) (st : State) : State :=
  {| isOpen := isOpen st; input := value;
     messages := messages st; isLoading := isLoading st |}.

End View.

(** ** Vocabulary of the properties of whole turns *)

Module TurnSpec.
Import JSString UTF8 JSON Completion Http.

(** [b] is [a] with something appended. *)
Definition extends (a b : jsstring) : Prop := exists d, b = a ++ d.

(** The number of lines [data: [DONE]] among [lines]. *)
Definition count_done (lines : list jsstring) : nat :=
  List.length (filter (fun l => eqb l RouteSpec.done_line) lines).

(** The number of terminal lines among the chunks [out]. *)
Definition count_finish (out : list bytes) : nat :=
  List.length (filter (fun c => eqb c (encode Route.finish_line)) out).

(** [line.startsWith("data: ")] *)
Definition is_data (line : jsstring) : bool := startsWith line (lit "data: ").

(** Every content the events among [lines] carry is a string of 16-bit
    code units. *)
Definition string_contents (lines : list jsstring) : Prop :=
  forall l v c,
    In l lines -> is_data l = true -> parse (slice l 6) = Some v ->
    RouteSpec.has_content v c ->
    exists s, c = JStr s /\ UTF8Spec.is_string s = true.

(** The content the loop of the Renderer has accumulated when it has read
    the chunks [values] of a response. *)
Definition accumulated (values : list bytes) : jsstring :=
  fst (Chatbot.read_chunks [] new_TextDecoder [] values
         (Chatbot.initial_state, [])).

(** The request body cannot be used: [req.json()] is rejected, or there is
    no [messages] in it. *)
Definition unusable (request_json : completion (option (list Route.msg)))
  : Prop :=
  match request_json with
  | Normal (Some _) => False
  | _ => True
  end.

(** No stream comes back from the provider: the request body cannot be
    used, [fetch] is rejected, or the provider's status is no success. *)
Definition no_stream (key : option jsstring)
  (request_json : completion (option (list Route.msg)))
  (fetch : Route.UpstreamRequest -> FetchResult) : Prop :=
  match request_json with
  | Normal (Some msgs) =>
      match fetch (Route.upstream_request key msgs) with
      | Rejected => True
      | Resolved r => ok r = false
      end
  | _ => True
  end.

(** One use of the form: the text typed into the input, then the form
    submitted; with what the two calls of [Date.now()] return and what
    [fetch] settles to if a turn starts. *)
Record Submission := {
  typed : jsstring;
  at1 : N;
  at2 : N;
  settles : FetchResult
}.

Definition submit (a : Submission) (st : Chatbot.State) : Chatbot.State :=
  fst (Chatbot.handleSubmit (at1 a) (at2 a) (settles a)
         (View.onChange (typed a) st)).

(** The component after the submissions [l], one after the other, from
    the state [st]. *)
Definition session (l : list Submission) (st : Chatbot.State)
  : Chatbot.State :=
  fold_left (fun st a => submit a st) l st.

(** The texts among those typed that have a code unit that is no white
    space. *)
Definition sent (l : list Submission) : list jsstring :=
  List.map typed (filter (fun a => negb (forallb is_space (typed a))) l).

Definition is_user (m : Chatbot.Message) : bool :=
  match Chatbot.role m with
  | Chatbot.user => true
  | Chatbot.assistant => false
  end.

(** The contents of the user messages, in order. *)
Definition user_contents (ms : list Chatbot.Message) : list jsstring :=
  List.map Chatbot.content (filter is_user ms).

(** Every user message has an id that [sendMessage] gives to user
    messages. *)
Definition user_ids (ms : list Chatbot.Message) : Prop :=
  Forall (fun m => is_user m = true ->
                   exists n, Chatbot.id m = lit "user-" ++ decimal n) ms.

(** One user message and one assistant message for each element. *)
Definition pairs {A} (l : list A) : list Chatbot.Role :=
  List.concat (List.map (fun _ => [Chatbot.user; Chatbot.assistant]) l).

End TurnSpec.

Module TurnExamples.
Import JSString UTF8 JSON Completion Http WireSpec Examples.

(** A response of the Reformatter whose stream breaks after the delta
    [Yes]. *)
Definition broken_response : Response :=
  {| status := 200; headers := [];
     body := Some {| chunks := [encode (render (Delta (lit "Yes")))];
                     errored := true |} |}.

(** A response of the Reformatter that holds the terminal line alone. *)
Definition silent_response : Response :=
  {| status := 200; headers := [];
     body := Some {| chunks := [encode (render Finish)];
                     errored := false |} |}.

(** An answer of the provider whose stream breaks after one event. *)
Definition broken_upstream : Response :=
  {| status := 200; headers := [];
     body := Some {| chunks := [encode (event_line (lit "Yes") ++ [LF; LF])];
                     errored := true |} |}.


(** The component with [ hi ], blanks included, typed into its input. *)
Definition typed_padded : Chatbot.State :=
  {| Chatbot.isOpen := true; Chatbot.input := lit " hi ";
     Chatbot.messages := []; Chatbot.isLoading := false |}.

(** Three uses of the form: a question whose request fails, blanks, and
    a question that is answered by the terminal line alone. *)
Definition three_submissions : list TurnSpec.Submission :=
  [{| TurnSpec.typed := lit "hi"; TurnSpec.at1 := 1; TurnSpec.at2 := 2;
      TurnSpec.settles := Rejected |};
   {| TurnSpec.typed := lit "  "; TurnSpec.at1 := 3; TurnSpec.at2 := 4;
      TurnSpec.settles := Rejected |};
   {| TurnSpec.typed := lit "ok?"; TurnSpec.at1 := 5; TurnSpec.at2 := 6;
      TurnSpec.settles := Resolved silent_response |}].

End TurnExamples.

(** ** Proof tools *)

(** Linear arithmetic with division and remainder by constants. *)
Ltac Zify.zify_post_hook ::= Z.to_euclidean_division_equations.

(** Rewrites the comparisons of the goal that linear arithmetic decides. *)
Ltac decide_cmp :=
  repeat match goal with
    | |- context [?a <=? ?b] =>
        first [ replace (a <=? b) with true by (symmetry; apply N.leb_le; lia)
              | replace (a <=? b) with false by (symmetry; apply N.leb_gt; lia) ]
    | |- context [?a <? ?b] =>
        first [ replace (a <? b) with true by (symmetry; apply N.ltb_lt; lia)
              | replace (a <? b) with false by (symmetry; apply N.ltb_ge; lia) ]
    | |- context [?a =? ?b] =>
        first [ replace (a =? b) with true by (symmetry; apply N.eqb_eq; lia)
              | replace (a =? b) with false by (symmetry; apply N.eqb_neq; lia) ]
    end;
  cbn [andb orb negb].

(** ** The Renderer *)

Module ChatbotFacts.
Import JSString UTF8 JSON Completion Http Chatbot ChatbotSpec Examples.

Lemma eqb_refl (s : jsstring) : eqb s s = true.
Proof.
  induction s as [|c s IH]; simpl; [reflexivity|].
  now rewrite N.eqb_refl, IH.
Qed.

Lemma eqb_eq (a b : jsstring) : eqb a b = true <-> a = b.
Proof.
  split.
  - revert b; induction a as [|x a IH]; intros [|y b] H; simpl in H;
      try discriminate; [reflexivity|].
    apply andb_true_iff in H as [H1 H2]. apply N.eqb_eq in H1.
    subst. f_equal. now apply IH.
  - intros ->. apply eqb_refl.
Qed.

Lemma published_app (t1 t2 : list Event) :
  published (t1 ++ t2) = published t1 ++ published t2.
Proof.
  induction t1 as [|e t1 IH]; simpl; [reflexivity|].
  destruct e; simpl; now rewrite IH.
Qed.

Lemma published_map (l : list (list Message)) :
  published (List.map SetMessages l) = l.
Proof. induction l as [|x l IH]; simpl; [reflexivity|]. now rewrite IH. Qed.

Lemma frame_with_content (aid c : jsstring) (ms : list Message) :
  frame aid ms (with_content aid c ms).
Proof.
  unfold frame, with_content.
  induction ms as [|m ms IH]; simpl; constructor; [|exact IH].
  destruct (eqb (id m) aid) eqn:E; simpl.
  - repeat split; intros H. exfalso. apply H. now apply eqb_eq.
  - repeat split; reflexivity.
Qed.

Lemma chain_snapshots (aid : jsstring) (cs : list jsstring) (ms : list Message) :
  chain (frame aid) (ms :: snapshots aid cs ms).
Proof.
  revert ms; induction cs as [|c cs IH]; intros ms; simpl; [exact I|].
  split; [apply frame_with_content|]. apply IH.
Qed.

Lemma republished_app (aid : jsstring) (cs1 cs2 : list jsstring) (w : world) :
  republished aid (cs1 ++ cs2) w = republished aid cs2 (republished aid cs1 w).
Proof. unfold republished. apply fold_left_app. Qed.

Lemma last_cons {A} (l : list A) (x d : A) : last (x :: l) d = last l x.
Proof.
  revert x d; induction l as [|y l IH]; intros x d; [reflexivity|].
  cbn [last] in *. destruct l as [|z l]; [reflexivity|].
  rewrite (IH y d), (IH y x). reflexivity.
Qed.

(** What republishing does to the state and to the trace. *)
Lemma republished_spec (aid : jsstring) (cs : list jsstring) (st : State)
  (tr : list Event) :
  republished aid cs (st, tr) =
  ({| isOpen := isOpen st; input := input st;
      messages := last (snapshots aid cs (messages st)) (messages st);
      isLoading := isLoading st |},
   tr ++ List.map SetMessages (snapshots aid cs (messages st))).
Proof.
  revert st tr; induction cs as [|c cs IH]; intros st tr.
  - cbn. rewrite app_nil_r. now destruct st.
  - unfold republished in *. cbn [fold_left]. unfold setMessages at 2.
    rewrite IH. cbn [isOpen input messages isLoading snapshots List.map].
    rewrite <- app_assoc. cbn [app]. now rewrite last_cons.
Qed.

Lemma read_line_republished (aid fc line : jsstring) (w : world) :
  exists cs, snd (read_line aid fc line w) = republished aid cs w.
Proof.
  unfold read_line. destruct (startsWith line (lit "0:")); [|now exists []].
  unfold try_delta. destruct (parse (slice line 2)) as [v|]; cbn; [|now exists []].
  destruct (ToString v) as [str|e]; cbn; [|now exists []].
  now exists [fc ++ str].
Qed.

Lemma read_lines_republished (aid : jsstring) (lines : list jsstring) :
  forall fc w, exists cs, snd (read_lines aid fc lines w) = republished aid cs w.
Proof.
  induction lines as [|line rest IH]; intros fc w; [now exists []|].
  cbn [read_lines]. destruct (read_line_republished aid fc line w) as [cs1 H1].
  destruct (read_line aid fc line w) as [fc1 w1]. cbn in H1. subst w1.
  destruct (IH fc1 (republished aid cs1 w)) as [cs2 H2].
  exists (cs1 ++ cs2). now rewrite republished_app.
Qed.

Lemma read_chunks_republished (aid : jsstring) (values : list bytes) :
  forall dec fc w,
    exists cs, snd (read_chunks aid dec fc values w) = republished aid cs w.
Proof.
  induction values as [|v rest IH]; intros dec fc w; [now exists []|].
  cbn [read_chunks]. destruct (decode dec v) as [dec' chunk].
  destruct (read_lines_republished aid (lines_of chunk) fc w) as [cs1 H1].
  destruct (read_lines aid fc (lines_of chunk) w) as [fc1 w1]. cbn in H1. subst w1.
  destruct (IH dec' fc1 (republished aid cs1 w)) as [cs2 H2].
  exists (cs1 ++ cs2). now rewrite republished_app.
Qed.

(** The turn, once [fetch] has settled, republishes some contents, the
    apology among them when the [try] block threw, clears the loading flag
    and settles normally. *)
Lemma sendMessage_resume_spec (now2 : N) (net : FetchResult) (w : world) :
  exists (cs : list jsstring) (failed : bool),
    sendMessage_resume now2 net w =
    (setIsLoading false
       (if failed
        then setMessages (with_content (assistantId_of now2) apology)
               (emit ConsoleError (republished (assistantId_of now2) cs w))
        else republished (assistantId_of now2) cs w),
     Normal tt).
Proof.
  unfold sendMessage_resume, try_catch_finally, try_read.
  fold (assistantId_of now2).
  destruct net as [|r].
  - exists (@nil jsstring), true; reflexivity.
  - destruct (ok r); cbn [negb]; [|now exists [], true].
    destruct (body r) as [s|]; [|now exists [], true].
    destruct (read_chunks_republished (assistantId_of now2) (chunks s)
                new_TextDecoder [] w) as [cs H].
    destruct (read_chunks _ _ _ _ _) as [fc w']. cbn in H. subst w'.
    exists cs, (errored s). now destruct (errored s).
Qed.

Lemma forallb_no_fetch_map (l : list (list Message)) :
  forallb (fun e => negb (is_fetch e)) (List.map SetMessages l) = true.
Proof. induction l as [|x l IH]; simpl; [reflexivity|exact IH]. Qed.

(** The rest of the turn only appends to the trace: message lists that
    republish contents of the placeholder, possibly a log entry, and the
    clearing of the flag at the very end; no request. *)
Lemma sendMessage_resume_trace (now2 : N) (net : FetchResult) (st : State)
  (tr : list Event) :
  exists (cs : list jsstring) (after : list Event) (st' : State),
    sendMessage_resume now2 net (st, tr) =
      ((st', tr ++ after ++ [SetIsLoading false]), Normal tt)
    /\ forallb (fun e => negb (is_fetch e)) after = true
    /\ published after = snapshots (assistantId_of now2) cs (messages st)
    /\ messages st' =
         last (snapshots (assistantId_of now2) cs (messages st)) (messages st)
    /\ isLoading st' = false /\ input st' = input st.
Proof.
  destruct (sendMessage_resume_spec now2 net (st, tr)) as (cs & failed & H).
  rewrite H. clear H. rewrite republished_spec.
  set (aid := assistantId_of now2).
  destruct failed.
  - exists (cs ++ [apology]).
    exists (List.map SetMessages (snapshots aid cs (messages st)) ++
            [ConsoleError;
             SetMessages (with_content aid apology
                            (last (snapshots aid cs (messages st)) (messages st)))]).
    eexists. cbn [emit setMessages setIsLoading isOpen input messages isLoading].
    split; [rewrite <- !app_assoc; reflexivity|].
    assert (Hs : snapshots aid (cs ++ [apology]) (messages st) =
                 snapshots aid cs (messages st) ++
                 [with_content aid apology
                    (last (snapshots aid cs (messages st)) (messages st))]).
    { generalize (messages st) as ms. induction cs as [|c cs IH]; intros ms;
        [reflexivity|].
      cbn [snapshots app]. rewrite IH, last_cons. reflexivity. }
    repeat split.
    + rewrite forallb_app, forallb_no_fetch_map. reflexivity.
    + rewrite published_app, published_map, Hs. reflexivity.
    + rewrite Hs, last_last. reflexivity.
  - exists cs, (List.map SetMessages (snapshots aid cs (messages st))).
    eexists. cbn [setIsLoading isOpen input messages isLoading].
    split; [rewrite <- !app_assoc; reflexivity|].
    repeat split.
    + apply forallb_no_fetch_map.
    + apply published_map.
Qed.

Lemma forallb_rev {A} (p : A -> bool) (l : list A) :
  forallb p (rev l) = forallb p l.
Proof.
  induction l as [|x l IH]; [reflexivity|].
  cbn [rev]. rewrite forallb_app, IH. cbn. now rewrite andb_true_r, andb_comm.
Qed.

Lemma trimStart_nil (s : jsstring) :
  trimStart s = [] <-> forallb is_space s = true.
Proof.
  induction s as [|c s IH]; simpl; [tauto|].
  destruct (is_space c); simpl; [exact IH|]. split; discriminate.
Qed.

Lemma trimStart_head (s : jsstring) :
  match trimStart s with
  | c :: _ => is_space c = false
  | [] => True
  end.
Proof.
  induction s as [|c s IH]; simpl; [exact I|].
  destruct (is_space c) eqn:E; [exact IH|exact E].
Qed.

(** [s.trim()] is empty exactly when [s] holds nothing but white space. *)
Lemma trim_nil (s : jsstring) : trim s = [] <-> forallb is_space s = true.
Proof.
  unfold trim, trimEnd. rewrite <- trimStart_nil.
  split.
  - intros H. apply (f_equal (@rev code_unit)) in H. rewrite rev_involutive in H.
    cbn in H. apply trimStart_nil in H. rewrite forallb_rev in H.
    pose proof (trimStart_head s) as Hh.
    destruct (trimStart s) as [|c t]; [reflexivity|].
    cbn in H. rewrite Hh in H. discriminate.
  - intros ->. reflexivity.
Qed.

Lemma sendMessage_start_spec (ms : list Message) (userMessage : jsstring)
  (now1 now2 : N) (st : State) (tr : list Event) :
  sendMessage_start ms userMessage now1 now2 (st, tr) =
  ({| isOpen := isOpen st; input := input st;
      messages := messages st ++ [userMsg_of userMessage now1] ++ [placeholder_of now2];
      isLoading := true |},
   tr ++ [SetMessages (messages st ++ [userMsg_of userMessage now1]);
          SetIsLoading true;
          SetMessages (messages st ++ [userMsg_of userMessage now1] ++ [placeholder_of now2]);
          Fetch (history (ms ++ [userMsg_of userMessage now1]))]).
Proof.
  unfold sendMessage_start, setMessages, setIsLoading, emit.
  cbn [isOpen input messages isLoading]. rewrite <- !List.app_assoc. reflexivity.
Qed.

(** C9. Frame property of the Renderer: of the message lists a turn
    publishes, the first two are the two appends; every later one (each
    per-delta republish and the overwrite of the error path) has the
    messages of the list before it, in the same order and with the same ids
    and roles, and changes nothing in a message whose id is not the id of
    the placeholder of the turn. *)
Theorem sendMessage_frame (ms : list Message) (userMessage : jsstring)
  (now1 now2 : N) (net : FetchResult) (st : State) :
  exists (first second : list Message) (later : list (list Message)),
    published (snd (fst (sendMessage ms userMessage now1 now2 net (st, []))))
      = first :: second :: later
    /\ first = messages st ++ [userMsg_of userMessage now1]
    /\ second = first ++ [placeholder_of now2]
    /\ chain (frame (assistantId_of now2)) (second :: later).
Proof.
  unfold sendMessage. rewrite sendMessage_start_spec.
  match goal with
  | |- context [sendMessage_resume now2 net (?s, ?t)] =>
      destruct (sendMessage_resume_trace now2 net s t)
        as (cs & after & st' & H & _ & Hp & _)
  end.
  rewrite H. cbn [fst snd app].
  cbn [published]. rewrite published_app, Hp. cbn [published messages].
  rewrite app_nil_r.
  do 3 eexists. split; [reflexivity|]. split; [reflexivity|].
  split; [now rewrite <- app_assoc|].
  apply chain_snapshots.
Qed.

(** C10. Turn gate of the Renderer: submitting while the loading flag is
    set, or with an input that is empty or holds only white space, leaves
    the state as it is and does nothing (no message appended, no request);
    otherwise, and in every call of [sendMessage], the flag is set before
    the one request of the turn and cleared by the last action of the turn,
    whatever [fetch] settles to. *)
Theorem handleSubmit_gate (now1 now2 : N) (net : FetchResult) (st : State) :
  ((isLoading st = true \/ forallb is_space (input st) = true) ->
   handleSubmit now1 now2 net st = (st, []))
  /\ ((isLoading st = false /\ forallb is_space (input st) = false) ->
      flag_brackets_network (snd (handleSubmit now1 now2 net st))
      /\ isLoading (fst (handleSubmit now1 now2 net st)) = false)
  /\ (forall (ms : list Message) (userMessage : jsstring),
        flag_brackets_network
          (snd (fst (sendMessage ms userMessage now1 now2 net (st, []))))
        /\ isLoading (fst (fst (sendMessage ms userMessage now1 now2 net (st, []))))
           = false).
Proof.
  split; [|split].
  - intros H. unfold handleSubmit.
    destruct (isLoading st); [now rewrite orb_true_r|].
    destruct H as [H|H]; [discriminate|].
    apply trim_nil in H. rewrite H. reflexivity.
  - intros [HL HS]. unfold handleSubmit. rewrite HL.
    destruct (trim (input st)) eqn:E.
    { apply trim_nil in E. congruence. }
    cbn [JSString.truthy negb orb]. rewrite sendMessage_start_spec.
    unfold setInput.
    match goal with
    | |- context [sendMessage_resume now2 net (?s, ?t)] =>
        destruct (sendMessage_resume_trace now2 net s t)
          as (cs & after & st' & H & Hf & _ & _ & Hl & _)
    end.
    rewrite H. cbn [fst snd app]. split; [|exact Hl].
    eexists (cons _ nil), (cons _ nil), (SetInput [] :: after). eexists.
    split; [reflexivity|].
    cbn. exact Hf.
  - intros ms userMessage. unfold sendMessage. rewrite sendMessage_start_spec.
    match goal with
    | |- context [sendMessage_resume now2 net (?s, ?t)] =>
        destruct (sendMessage_resume_trace now2 net s t)
          as (cs & after & st' & H & Hf & _ & _ & Hl & _)
    end.
    rewrite H. cbn [fst snd app]. split; [|exact Hl].
    eexists (cons _ nil), (cons _ nil), after. eexists.
    split; [reflexivity|].
    cbn. exact Hf.
Qed.

Lemma handleSubmit_gate_witness :
  handleSubmit 1 2 (Resolved response_500) initial_state = (initial_state, [])
  /\ (flag_brackets_network
        (snd (handleSubmit 1 2 (Resolved response_500) typed_hi))
      /\ isLoading (fst (handleSubmit 1 2 (Resolved response_500) typed_hi))
         = false).
Proof.
  split.
  - apply (proj1 (handleSubmit_gate 1 2 (Resolved response_500) initial_state)).
    right. reflexivity.
  - apply (proj1 (proj2 (handleSubmit_gate 1 2 (Resolved response_500) typed_hi))).
    split; reflexivity.
Defined.

Lemma sendMessage_resume_failed (now2 : N) (net : FetchResult) (w : world) :
  request_failed net ->
  sendMessage_resume now2 net w =
  (setIsLoading false
     (setMessages (with_content (assistantId_of now2) apology)
        (emit ConsoleError w)), Normal tt).
Proof.
  intros Hf. unfold sendMessage_resume, try_catch_finally, try_read.
  fold (assistantId_of now2).
  destruct net as [|r]; [reflexivity|].
  destruct Hf as [Hf|Hf]; rewrite Hf; [reflexivity|].
  destruct (ok r); reflexivity.
Qed.

(** C6. When the request of a turn fails ([fetch] rejected, a status that
    is no success, or a response without a body), [sendMessage] settles
    normally (nothing is thrown past the turn), the content of the
    placeholder is the apology, and the loading flag is cleared. *)
Theorem sendMessage_failure_apology (ms : list Message)
  (userMessage : jsstring) (now1 now2 : N) (net : FetchResult) (st : State) :
  request_failed net ->
  exists (st' : State) (tr : list Event),
    sendMessage ms userMessage now1 now2 net (st, []) = ((st', tr), Normal tt)
    /\ messages st' =
         with_content (assistantId_of now2) apology
           (messages st ++ [userMsg_of userMessage now1])
         ++ [{| id := assistantId_of now2; role := assistant;
                content := apology |}]
    /\ isLoading st' = false.
Proof.
  intros Hf. unfold sendMessage. rewrite sendMessage_start_spec.
  assert (Hw : forall prev,
             with_content (assistantId_of now2) apology
               (prev ++ [placeholder_of now2]) =
             with_content (assistantId_of now2) apology prev
             ++ [{| id := assistantId_of now2; role := assistant;
                    content := apology |}]).
  { intros prev. unfold with_content. rewrite map_app. cbn [List.map].
    unfold placeholder_of at 1 2 3. cbn [id role].
    now rewrite eqb_refl. }
  rewrite (sendMessage_resume_failed now2 net _ Hf).
  unfold setIsLoading, setMessages, emit. cbn [isOpen input messages isLoading].
  do 2 eexists. split; [reflexivity|]. cbn [messages isLoading].
  split; [|reflexivity].
  rewrite List.app_assoc. apply Hw.
Qed.

Lemma sendMessage_failure_apology_witness :
  request_failed (Resolved response_500)
  /\ exists (st' : State) (tr : list Event),
      sendMessage [] (lit "hi") 1 2 (Resolved response_500) (initial_state, [])
        = ((st', tr), Normal tt)
      /\ messages st' =
           with_content (assistantId_of 2) apology
             (messages initial_state ++ [userMsg_of (lit "hi") 1])
           ++ [{| id := assistantId_of 2; role := assistant;
                  content := apology |}]
      /\ isLoading st' = false.
Proof.
  split; [left; reflexivity|].
  apply sendMessage_failure_apology. left. reflexivity.
Defined.

(** C8, as stated, fails: in a first turn with the message [hi] the
    conversation after the two appends holds the user message and the
    placeholder, and the request carries the user message alone. *)
Lemma request_excludes_placeholder :
  let w := sendMessage_start [] (lit "hi") 1 2 (initial_state, []) in
  history (messages (fst w)) = [(user, lit "hi"); (assistant, [])]
  /\ In (Fetch [(user, lit "hi")]) (snd w)
  /\ ~ In (Fetch (history (messages (fst w)))) (snd w).
Proof.
  cbv zeta. rewrite sendMessage_start_spec. cbn [fst snd messages app].
  split; [reflexivity|]. split.
  - cbn. do 3 right. left. reflexivity.
  - cbn. intros [H|[H|[H|[H|[]]]]]; discriminate.
Qed.

(** C8, amended. In every turn the request is sent after the two appends
    and carries, as role/content pairs in conversation order, the
    conversation the callback closed over followed by the new user message:
    all of the conversation after the appends but its last message, the
    empty placeholder; the turn sends no other request. *)
Theorem request_carries_history (userMessage : jsstring) (now1 now2 : N)
  (net : FetchResult) (st : State) :
  exists later : list Event,
    snd (fst (sendMessage (messages st) userMessage now1 now2 net (st, []))) =
      [SetMessages (messages st ++ [userMsg_of userMessage now1]);
       SetIsLoading true;
       SetMessages (messages st ++ [userMsg_of userMessage now1]
                    ++ [placeholder_of now2]);
       Fetch (history (messages st ++ [userMsg_of userMessage now1]))]
      ++ later
    /\ forallb (fun e => negb (is_fetch e)) later = true
    /\ history (messages st ++ [userMsg_of userMessage now1]
                ++ [placeholder_of now2]) =
       history (messages st ++ [userMsg_of userMessage now1])
       ++ [(assistant, [])].
Proof.
  unfold sendMessage. rewrite sendMessage_start_spec.
  match goal with
  | |- context [sendMessage_resume now2 net (?s, ?t)] =>
      destruct (sendMessage_resume_trace now2 net s t)
        as (cs & after & st' & H & Hf & _)
  end.
  rewrite H. cbn [fst snd app].
  exists (after ++ [SetIsLoading false]). split; [reflexivity|].
  split.
  - rewrite forallb_app, Hf. reflexivity.
  - unfold history. rewrite !map_app. cbn [List.map app].
    rewrite <- List.app_assoc. reflexivity.
Qed.

End ChatbotFacts.

(** ** JSON strings *)

Module JSONFacts.
Import JSString UTF8 JSON Completion.

Lemma hex_digit_hex_char (d : N) : d < 16 -> hex_digit (hex_char d) = Some d.
Proof.
  intros H.
  assert (E : d = 0 \/ d = 1 \/ d = 2 \/ d = 3 \/ d = 4 \/ d = 5 \/ d = 6 \/
              d = 7 \/ d = 8 \/ d = 9 \/ d = 10 \/ d = 11 \/ d = 12 \/
              d = 13 \/ d = 14 \/ d = 15) by lia.
  repeat (destruct E as [E|E]; [subst d; reflexivity|]).
  subst d; reflexivity.
Qed.

Lemma hex4_unicode_escape (c : code_unit) :
  c < 65536 ->
  hex4 (hex_char (c / 4096)) (hex_char ((c / 256) mod 16))
       (hex_char ((c / 16) mod 16)) (hex_char (c mod 16)) = Some c.
Proof.
  intros H. unfold hex4.
  rewrite !hex_digit_hex_char by lia. f_equal. lia.
Qed.

(** An escape [\uXXXX] reads back as the code unit it was written for. *)
Lemma parse_chars_unicode_escape (c : code_unit) (s : jsstring) :
  c < 65536 ->
  parse_chars (unicode_escape c ++ s) = cons_fst c (parse_chars s).
Proof.
  intros H. unfold unicode_escape. cbn [app parse_chars].
  change (92 =? 34) with false. change (92 =? 92) with true.
  change (117 =? 117) with true. cbv iota.
  now rewrite hex4_unicode_escape.
Qed.

Lemma parse_chars_quote_one (c : code_unit) (s : jsstring) :
  is_surrogate c = false ->
  parse_chars (quote_one c ++ s) = cons_fst c (parse_chars s).
Proof.
  intros Hs. unfold quote_one.
  destruct (c =? 8) eqn:E8; [apply N.eqb_eq in E8; subst; reflexivity|].
  destruct (c =? 9) eqn:E9; [apply N.eqb_eq in E9; subst; reflexivity|].
  destruct (c =? 10) eqn:E10; [apply N.eqb_eq in E10; subst; reflexivity|].
  destruct (c =? 12) eqn:E12; [apply N.eqb_eq in E12; subst; reflexivity|].
  destruct (c =? 13) eqn:E13; [apply N.eqb_eq in E13; subst; reflexivity|].
  destruct (c =? 34) eqn:E34; [apply N.eqb_eq in E34; subst; reflexivity|].
  destruct (c =? 92) eqn:E92; [apply N.eqb_eq in E92; subst; reflexivity|].
  destruct (c <? 32) eqn:E32.
  - apply N.ltb_lt in E32. apply parse_chars_unicode_escape. lia.
  - cbn [app parse_chars]. now rewrite E34, E92, E32.
Qed.

Lemma parse_chars_literal (c : code_unit) (s : jsstring) :
  is_surrogate c = true ->
  parse_chars (c :: s) = cons_fst c (parse_chars s).
Proof.
  unfold is_surrogate. intros H. apply andb_true_iff in H as [H1 H2].
  apply N.leb_le in H1. cbn [parse_chars].
  assert (E1 : (c =? 34) = false) by (apply N.eqb_neq; lia).
  assert (E2 : (c =? 92) = false) by (apply N.eqb_neq; lia).
  assert (E3 : (c <? 32) = false) by (apply N.ltb_ge; lia).
  now rewrite E1, E2, E3.
Qed.

Lemma surrogate_cases (c : code_unit) :
  is_surrogate c = is_lead_surrogate c || is_trail_surrogate c.
Proof.
  unfold is_surrogate, is_lead_surrogate, is_trail_surrogate.
  destruct (55296 <=? c) eqn:A, (c <=? 56319) eqn:B, (56320 <=? c) eqn:C,
    (c <=? 57343) eqn:D; try reflexivity;
    repeat match goal with
           | H : (_ <=? _) = true |- _ => apply N.leb_le in H
           | H : (_ <=? _) = false |- _ => apply N.leb_gt in H
           end; lia.
Qed.

Lemma surrogate_bound (c : code_unit) : is_surrogate c = true -> c < 65536.
Proof.
  unfold is_surrogate. intros H. apply andb_true_iff in H as [_ H].
  apply N.leb_le in H. lia.
Qed.

(** Reading what [quote_chars] wrote, up to the closing quote, gives the
    string back, whatever its code units are. *)
Lemma parse_chars_quote_chars (n : nat) :
  forall s rest, (List.length s <= n)%nat ->
    parse_chars (quote_chars s ++ QUOTE :: rest) = Some (s, rest).
Proof.
  induction n as [|n IH]; intros s rest Hn.
  - destruct s; [reflexivity|cbn in Hn; lia].
  - destruct s as [|c s]; [reflexivity|].
    cbn [quote_chars]. cbn in Hn.
    destruct (is_lead_surrogate c) eqn:EL.
    + assert (Hc : is_surrogate c = true) by (now rewrite surrogate_cases, EL).
      destruct s as [|c2 s].
      * rewrite parse_chars_unicode_escape by now apply surrogate_bound.
        reflexivity.
      * destruct (is_trail_surrogate c2) eqn:ET.
        -- assert (Hc2 : is_surrogate c2 = true)
             by (rewrite surrogate_cases, ET; apply orb_true_r).
           cbn [app]. rewrite (parse_chars_literal c), (parse_chars_literal c2)
             by assumption.
           rewrite IH by (cbn in Hn; lia). reflexivity.
        -- rewrite <- app_assoc, parse_chars_unicode_escape
             by now apply surrogate_bound.
           rewrite IH by (cbn in *; lia). reflexivity.
    + destruct (is_trail_surrogate c) eqn:ET.
      * assert (Hc : is_surrogate c = true)
          by (rewrite surrogate_cases, ET; apply orb_true_r).
        rewrite <- app_assoc, parse_chars_unicode_escape
          by now apply surrogate_bound.
        rewrite IH by lia. reflexivity.
      * assert (Hc : is_surrogate c = false) by (now rewrite surrogate_cases, EL, ET).
        rewrite <- app_assoc, parse_chars_quote_one by assumption.
        rewrite IH by lia. reflexivity.
Qed.

(** [JSON.parse(JSON.stringify(s))] is [s], for every string [s]. *)
Lemma parse_quote (s : jsstring) : parse (quote s) = Some (JStr s).
Proof.
  unfold parse, quote. cbn [app List.length parse_value].
  change (skip_ws (QUOTE :: quote_chars s ++ [QUOTE]))
    with (QUOTE :: quote_chars s ++ [QUOTE]).
  cbv zeta. change (eat 91 (QUOTE :: quote_chars s ++ [QUOTE])) with (@None jsstring).
  change (eat 123 (QUOTE :: quote_chars s ++ [QUOTE])) with (@None jsstring).
  cbv iota. unfold parse_scalar.
  change (eat 34 (QUOTE :: quote_chars s ++ [QUOTE]))
    with (Some (quote_chars s ++ [QUOTE])).
  cbv iota.
  rewrite (parse_chars_quote_chars (List.length s) s []) by lia.
  reflexivity.
Qed.

End JSONFacts.

(** ** The Reformatter: the handler *)

Module RouteFacts.
Import JSString UTF8 JSON Completion Http Route RouteSpec Examples.

Lemma coreMessage_of_normalized (m : msg) :
  coreMessage_of m =
  {| core_role := role m; core_content := normalized_content m |}.
Proof.
  unfold coreMessage_of, normalized_content, text_of_parts, text_typed_parts,
    join, or_else.
  f_equal.
  destruct (content m) as [[|c s]|], (parts m) as [ps|]; try reflexivity.
  - rewrite map_map.
    destruct (List.concat _); reflexivity.
  - rewrite map_map.
    destruct (List.concat _); reflexivity.
Qed.

(** Off the one case of a content that is supplied and empty, the content
    is the one C4 words. *)
Lemma normalized_content_claimed (m : msg) :
  content m <> Some [] -> normalized_content m = claimed_content m.
Proof.
  unfold normalized_content, claimed_content.
  destruct (content m) as [[|c s]|]; intros H;
    [now elim H|reflexivity..].
Qed.

(** C4, as stated, fails: a message whose content is supplied as the
    empty string and which has a text part is sent upstream with the text
    of the part, not with its content. *)
Lemma empty_content_falls_through :
  let m := {| role := lit "user"; content := Some [];
              parts := Some [{| type := lit "text"; text := Some (lit "hi") |}] |} in
  claimed_content m = []
  /\ messagesWithSystem [m] =
     [system_message; {| core_role := lit "user"; core_content := lit "hi" |}]
  /\ messagesWithSystem [m] <>
     [system_message;
      {| core_role := role m; core_content := claimed_content m |}].
Proof.
  cbv zeta. split; [reflexivity|]. split; [reflexivity|].
  intros H. injection H as H. discriminate.
Qed.

(** C4, amended. For every received message list, the list sent upstream
    is the fixed system message followed by the normalized input messages
    in their original order, each with its role and with content: the
    content of the message when it is supplied and not empty, otherwise the
    text of its text-typed parts concatenated in document order, otherwise
    the empty string. *)
Theorem messagesWithSystem_normalized (key : option jsstring) (msgs : list msg) :
  messages (upstream_request key msgs) = messagesWithSystem msgs
  /\ messagesWithSystem msgs =
     system_message
     :: List.map (fun m => {| core_role := role m;
                              core_content := normalized_content m |}) msgs.
Proof.
  split; [reflexivity|].
  unfold messagesWithSystem, coreMessages, system_message. f_equal.
  apply map_ext. intros m. apply coreMessage_of_normalized.
Qed.

Lemma parse_error_body :
  parse error_body =
  Some (JObj [(lit "error", JStr (lit "Failed to process chat request"))]).
Proof. vm_compute. reflexivity. Qed.

(** C3. When the provider answers with a status that is no success, the
    Reformatter answers with status 500, which is no success, and a body
    that is the JSON text of an object with an [error] field; it does not
    answer with the delta stream, and it has sent the provider one request,
    no second one. *)
Theorem POST_upstream_failure (key : option jsstring) (msgs : list msg)
  (fetch : UpstreamRequest -> FetchResult) (r : Response) :
  fetch (upstream_request key msgs) = Resolved r ->
  ok r = false ->
  POST key (Normal (Some msgs)) fetch =
    (failure_response, [upstream_request key msgs])
  /\ ok failure_response = false
  /\ body failure_response =
       Some {| chunks := [encode error_body]; errored := false |}
  /\ exists props,
       parse error_body = Some (JObj props)
       /\ lookup (lit "error") props =
            Some (JStr (lit "Failed to process chat request")).
Proof.
  intros Hf Hok. split; [|split; [reflexivity|split; [reflexivity|]]].
  - unfold POST, try_POST. rewrite Hf, Hok. cbn [negb].
    destruct (response_text r); reflexivity.
  - eexists. split; [apply parse_error_body|reflexivity].
Qed.

Lemma POST_upstream_failure_witness :
  POST None (Normal (Some [])) (fun _ => Resolved response_401) =
    (failure_response, [upstream_request None []])
  /\ ok failure_response = false
  /\ body failure_response =
       Some {| chunks := [encode error_body]; errored := false |}
  /\ exists props,
       parse error_body = Some (JObj props)
       /\ lookup (lit "error") props =
            Some (JStr (lit "Failed to process chat request")).
Proof.
  apply (POST_upstream_failure None [] (fun _ => Resolved response_401)
           response_401); reflexivity.
Defined.

End RouteFacts.

(** ** The fuel of the parser

    [parse] gives [parse_value] more fuel than any text can use up: a text
    that some amount of fuel parses is parsed by [parse]. *)

Module ParserFacts.
Import JSString JSON.

Lemma eat_length (c : code_unit) (s r : jsstring) :
  eat c s = Some r -> List.length s = S (List.length r).
Proof.
  destruct s as [|x s]; cbn; [discriminate|].
  destruct (x =? c); [|discriminate]. now intros [= ->].
Qed.

Lemma skip_ws_length (s : jsstring) :
  (List.length (skip_ws s) <= List.length s)%nat.
Proof.
  induction s as [|c s IH]; cbn; [lia|].
  destruct (is_ws c); cbn; lia.
Qed.

Lemma parse_chars_length (n : nat) :
  forall s str r, (List.length s <= n)%nat ->
    parse_chars s = Some (str, r) -> (List.length r <= List.length s)%nat.
Proof.
  induction n as [|n IH]; intros s str r Hn H.
  - destruct s; [discriminate|cbn in Hn; lia].
  - destruct s as [|c s]; [discriminate|]. cbn in Hn. cbn [parse_chars] in H.
    assert (Hrec : forall t str' r', (List.length t <= n)%nat ->
              cons_fst c (parse_chars t) = Some (str', r') ->
              (List.length r' <= List.length t)%nat).
    { intros t str' r' Ht Hc. destruct (parse_chars t) as [[u v]|] eqn:E;
        [|discriminate].
      cbn in Hc. injection Hc as _ <-. now apply (IH t u v). }
    destruct (c =? 34).
    { injection H as _ <-. cbn. lia. }
    destruct (c =? 92).
    + destruct s as [|e r1]; [discriminate|].
      destruct (e =? 117).
      * destruct r1 as [|h1 [|h2 [|h3 [|h4 r2]]]]; try discriminate.
        destruct (hex4 h1 h2 h3 h4) as [u|]; [|discriminate].
        destruct (parse_chars r2) as [[a b]|] eqn:E; [|discriminate].
        cbn in H. injection H as _ <-.
        apply (IH r2 a b) in E; cbn in *; lia.
      * destruct (simple_escape e) as [x|]; [|discriminate].
        destruct (parse_chars r1) as [[a b]|] eqn:E; [|discriminate].
        cbn in H. injection H as _ <-.
        apply (IH r1 a b) in E; cbn in *; lia.
    + destruct (c <? 32); [discriminate|].
      apply Hrec in H; cbn; lia.
Qed.

Lemma take_digits_length (s : jsstring) :
  (List.length (snd (take_digits s)) <= List.length s)%nat.
Proof.
  induction s as [|c s IH]; cbn; [lia|].
  destruct (is_digit c); [|cbn; lia].
  destruct (take_digits s); cbn in *; lia.
Qed.

Lemma take_digits1_length (s ds r : jsstring) :
  take_digits1 s = Some (ds, r) -> (List.length r <= List.length s)%nat.
Proof.
  unfold take_digits1. pose proof (take_digits_length s) as H.
  destruct (take_digits s) as [[|d ds'] r']; [discriminate|].
  intros [= _ <-]. exact H.
Qed.

Lemma parse_number_length (s r : jsstring) (x : Number.number) :
  parse_number s = Some (x, r) -> (List.length r <= List.length s)%nat.
Proof.
  unfold parse_number.
  destruct (eat 45 s) as [s1|] eqn:E1.
  - apply eat_length in E1.
    destruct (parse_int s1) as [[ip s2]|] eqn:E2; [|discriminate].
    destruct (parse_frac s2) as [[fp s3]|] eqn:E3; [|discriminate].
    destruct (parse_exp s3) as [[e s4]|] eqn:E4; [|discriminate].
    intros [= _ <-].
    assert (List.length s2 <= List.length s1)%nat.
    { unfold parse_int in E2. destruct (eat 48 s1) eqn:E.
      - apply eat_length in E. injection E2 as _ <-. lia.
      - now apply take_digits1_length in E2. }
    assert (List.length s3 <= List.length s2)%nat.
    { unfold parse_frac in E3. destruct (eat 46 s2) eqn:E.
      - apply eat_length in E. apply take_digits1_length in E3. lia.
      - injection E3 as _ <-. lia. }
    assert (List.length s4 <= List.length s3)%nat.
    { unfold parse_exp in E4.
      destruct (match eat 101 s3 with Some r0 => Some r0 | None => eat 69 s3 end)
        as [r0|] eqn:E.
      - assert (List.length r0 < List.length s3)%nat.
        { destruct (eat 101 s3) eqn:Ea.
          - injection E as ->. apply eat_length in Ea. lia.
          - apply eat_length in E. lia. }
        destruct (eat 45 r0) as [r1|] eqn:Em.
        + apply eat_length in Em.
          destruct (take_digits1 r1) as [[ep r2]|] eqn:Ed; [|discriminate].
          apply take_digits1_length in Ed. injection E4 as _ <-. lia.
        + destruct (eat 43 r0) as [r1|] eqn:Ep.
          * apply eat_length in Ep.
            destruct (take_digits1 r1) as [[ep r2]|] eqn:Ed; [|discriminate].
            apply take_digits1_length in Ed. injection E4 as _ <-. lia.
          * destruct (take_digits1 r0) as [[ep r2]|] eqn:Ed; [|discriminate].
            apply take_digits1_length in Ed. injection E4 as _ <-. lia.
      - injection E4 as _ <-. lia. }
    lia.
  - destruct (parse_int s) as [[ip s2]|] eqn:E2; [|discriminate].
    destruct (parse_frac s2) as [[fp s3]|] eqn:E3; [|discriminate].
    destruct (parse_exp s3) as [[e s4]|] eqn:E4; [|discriminate].
    intros [= _ <-].
    assert (List.length s2 <= List.length s)%nat.
    { unfold parse_int in E2. destruct (eat 48 s) eqn:E.
      - apply eat_length in E. injection E2 as _ <-. lia.
      - now apply take_digits1_length in E2. }
    assert (List.length s3 <= List.length s2)%nat.
    { unfold parse_frac in E3. destruct (eat 46 s2) eqn:E.
      - apply eat_length in E. apply take_digits1_length in E3. lia.
      - injection E3 as _ <-. lia. }
    assert (List.length s4 <= List.length s3)%nat.
    { unfold parse_exp in E4.
      destruct (match eat 101 s3 with Some r0 => Some r0 | None => eat 69 s3 end)
        as [r0|] eqn:E.
      - assert (List.length r0 < List.length s3)%nat.
        { destruct (eat 101 s3) eqn:Ea.
          - injection E as ->. apply eat_length in Ea. lia.
          - apply eat_length in E. lia. }
        destruct (eat 45 r0) as [r1|] eqn:Em.
        + apply eat_length in Em.
          destruct (take_digits1 r1) as [[ep r2]|] eqn:Ed; [|discriminate].
          apply take_digits1_length in Ed. injection E4 as _ <-. lia.
        + destruct (eat 43 r0) as [r1|] eqn:Ep.
          * apply eat_length in Ep.
            destruct (take_digits1 r1) as [[ep r2]|] eqn:Ed; [|discriminate].
            apply take_digits1_length in Ed. injection E4 as _ <-. lia.
          * destruct (take_digits1 r0) as [[ep r2]|] eqn:Ed; [|discriminate].
            apply take_digits1_length in Ed. injection E4 as _ <-. lia.
      - injection E4 as _ <-. lia. }
    lia.
Qed.

Lemma parse_scalar_length (s r : jsstring) (v : json) :
  parse_scalar s = Some (v, r) -> (List.length r <= List.length s)%nat.
Proof.
  unfold parse_scalar. destruct (eat 34 s) as [r0|] eqn:E.
  - apply eat_length in E.
    destruct (parse_chars r0) as [[str r']|] eqn:Ec; [|discriminate].
    apply (parse_chars_length (List.length r0)) in Ec; [|lia].
    intros [= _ <-]. lia.
  - destruct (parse_literal s) as [[v' r']|] eqn:El.
    + intros [= _ <-]. unfold parse_literal, slice in El.
      repeat match type of El with
             | (if ?b then _ else _) = _ => destruct b
             end; try discriminate; injection El as _ <-;
        destruct s as [|? [|? [|? [|? [|? ?]]]]]; cbn; lia.
    + destruct (parse_number s) as [[x r']|] eqn:En; [|discriminate].
      intros [= _ <-]. now apply parse_number_length in En.
Qed.

(** Fuel above the number of code units a parse consumes is enough for
    it. *)
Lemma fuel_enough (f : nat) :
  (forall s v r, parse_value f s = Some (v, r) ->
     (List.length r <= List.length s)%nat
     /\ forall f', (List.length s - List.length r < f')%nat ->
                   parse_value f' s = Some (v, r))
  /\ (forall acc s v r, parse_elements f acc s = Some (v, r) ->
        (List.length r <= List.length s)%nat
        /\ forall f', (List.length s - List.length r < f')%nat ->
                      parse_elements f' acc s = Some (v, r))
  /\ (forall acc s v r, parse_members f acc s = Some (v, r) ->
        (List.length r <= List.length s)%nat
        /\ forall f', (List.length s - List.length r < f')%nat ->
                      parse_members f' acc s = Some (v, r)).
Proof.
  induction f as [|f (IHv & IHe & IHm)];
    [repeat split; intros; discriminate|].
  split; [|split].
  - intros s v r H. cbn [parse_value] in H. cbv zeta in H.
    pose proof (skip_ws_length s) as Hws.
    destruct (eat 91 (skip_ws s)) as [r1|] eqn:E1.
    { pose proof (eat_length _ _ _ E1) as L1.
      pose proof (skip_ws_length r1) as Hws1.
      destruct (eat 93 (skip_ws r1)) as [r2|] eqn:E2.
      - injection H as <- <-. pose proof (eat_length _ _ _ E2) as L2.
        split; [lia|]. intros [|f'] Hf; [lia|].
        cbn [parse_value]. cbv zeta. now rewrite E1, E2.
      - apply IHe in H as [Hl Hf]. split; [lia|].
        intros [|f'] Hf'; [lia|].
        cbn [parse_value]. cbv zeta. rewrite E1, E2. apply Hf. lia. }
    destruct (eat 123 (skip_ws s)) as [r1|] eqn:E3.
    { pose proof (eat_length _ _ _ E3) as L1.
      pose proof (skip_ws_length r1) as Hws1.
      destruct (eat 125 (skip_ws r1)) as [r2|] eqn:E4.
      - injection H as <- <-. pose proof (eat_length _ _ _ E4) as L2.
        split; [lia|]. intros [|f'] Hf; [lia|].
        cbn [parse_value]. cbv zeta. now rewrite E1, E3, E4.
      - apply IHm in H as [Hl Hf]. split; [lia|].
        intros [|f'] Hf'; [lia|].
        cbn [parse_value]. cbv zeta. rewrite E1, E3, E4. apply Hf. lia. }
    pose proof (parse_scalar_length _ _ _ H) as Hl. split; [lia|].
    intros [|f'] Hf; [lia|].
    cbn [parse_value]. cbv zeta. now rewrite E1, E3.
  - intros acc s v r H. cbn [parse_elements] in H.
    destruct (parse_value f s) as [[v1 r1]|] eqn:Ev; [|discriminate].
    apply IHv in Ev as [Hl1 Hf1].
    pose proof (skip_ws_length r1) as Hws.
    destruct (eat 44 (skip_ws r1)) as [r2|] eqn:E1.
    + pose proof (eat_length _ _ _ E1) as L1.
      apply IHe in H as [Hl2 Hf2]. split; [lia|].
      intros [|f'] Hf'; [lia|].
      cbn [parse_elements]. rewrite Hf1 by lia. rewrite E1. apply Hf2. lia.
    + destruct (eat 93 (skip_ws r1)) as [r2|] eqn:E2; [|discriminate].
      pose proof (eat_length _ _ _ E2) as L2. injection H as <- <-.
      split; [lia|]. intros [|f'] Hf'; [lia|].
      cbn [parse_elements]. rewrite Hf1 by lia. now rewrite E1, E2.
  - intros acc s v r H. cbn [parse_members] in H.
    pose proof (skip_ws_length s) as Hws0.
    destruct (eat 34 (skip_ws s)) as [r0|] eqn:E0; [|discriminate].
    pose proof (eat_length _ _ _ E0) as L0.
    destruct (parse_chars r0) as [[key r1]|] eqn:Ec; [|discriminate].
    pose proof (parse_chars_length _ _ _ _ (le_n _) Ec) as Lc.
    pose proof (skip_ws_length r1) as Hws1.
    destruct (eat 58 (skip_ws r1)) as [r2|] eqn:E5; [|discriminate].
    pose proof (eat_length _ _ _ E5) as L5.
    destruct (parse_value f r2) as [[v1 r3]|] eqn:Ev; [|discriminate].
    apply IHv in Ev as [Hl1 Hf1].
    pose proof (skip_ws_length r3) as Hws3.
    destruct (eat 44 (skip_ws r3)) as [r4|] eqn:E1.
    + pose proof (eat_length _ _ _ E1) as L1.
      apply IHm in H as [Hl2 Hf2]. split; [lia|].
      intros [|f'] Hf'; [lia|].
      cbn [parse_members]. rewrite E0, Ec, E5. rewrite Hf1 by lia.
      rewrite E1. apply Hf2. lia.
    + destruct (eat 125 (skip_ws r3)) as [r4|] eqn:E2; [|discriminate].
      pose proof (eat_length _ _ _ E2) as L2. injection H as <- <-.
      split; [lia|]. intros [|f'] Hf'; [lia|].
      cbn [parse_members]. rewrite E0, Ec, E5. rewrite Hf1 by lia.
      now rewrite E1, E2.
Qed.

(** A text that [parse_value] parses to the end with some fuel is parsed
    by [parse]. *)
Lemma parse_fuel_enough (f : nat) (text rest : jsstring) (v : json) :
  parse_value f text = Some (v, rest) -> skip_ws rest = [] ->
  parse text = Some v.
Proof.
  intros H Hr. destruct (fuel_enough f) as (Hv & _ & _).
  apply Hv in H as [_ H]. unfold parse.
  rewrite H by lia. now rewrite Hr.
Qed.

End ParserFacts.

(** ** UTF-8 *)

Module UTF8Facts.
Import JSString UTF8 UTF8Spec.

Lemma lor_add (a b k : N) : b < 2 ^ k -> N.lor (a * 2 ^ k) b = a * 2 ^ k + b.
Proof.
  intros H. rewrite <- N.lxor_lor, <- N.add_nocarry_lxor; try reflexivity;
    apply N.bits_inj; intros n; rewrite N.land_spec, N.bits_0;
    destruct (N.lt_ge_cases n k) as [L|G];
    try (rewrite N.mul_pow2_bits_low by exact L; reflexivity);
    rewrite <- (N.mod_small b (2 ^ k)) by exact H;
    rewrite N.mod_pow2_bits_high by exact G; apply andb_false_r.
Qed.

Lemma lor_128 (x : N) : x < 64 -> N.lor 128 x = 128 + x.
Proof. intros H. apply (lor_add 2 x 6). exact H. Qed.

Lemma lor_192 (x : N) : x < 32 -> N.lor 192 x = 192 + x.
Proof. intros H. apply (lor_add 6 x 5). exact H. Qed.

Lemma lor_224 (x : N) : x < 16 -> N.lor 224 x = 224 + x.
Proof. intros H. apply (lor_add 14 x 4). exact H. Qed.

Lemma lor_240 (x : N) : x < 8 -> N.lor 240 x = 240 + x.
Proof. intros H. apply (lor_add 30 x 3). exact H. Qed.

Lemma land_63 (x : N) : N.land x 63 = x mod 64.
Proof. apply (N.land_ones x 6). Qed.

Lemma land_31 (x : N) : N.land x 31 = x mod 32.
Proof. apply (N.land_ones x 5). Qed.

Lemma land_15 (x : N) : N.land x 15 = x mod 16.
Proof. apply (N.land_ones x 4). Qed.

Lemma land_7 (x : N) : N.land x 7 = x mod 8.
Proof. apply (N.land_ones x 3). Qed.

Lemma shift_in (x b : N) :
  N.lor (N.shiftl x 6) (N.land b 63) = x * 64 + b mod 64.
Proof.
  rewrite land_63, N.shiftl_mul_pow2. apply (lor_add x (b mod 64) 6).
  change (2 ^ 6) with 64. lia.
Qed.

(** The bytes [encode_scalar] writes, in arithmetic. *)
Lemma encode_scalar_2 (cp : N) :
  128 <= cp <= 2047 -> encode_scalar cp = [192 + cp / 64; 128 + cp mod 64].
Proof.
  intros H. unfold encode_scalar. decide_cmp.
  rewrite land_63, N.shiftr_div_pow2. change (2 ^ 6) with 64.
  rewrite lor_192, lor_128 by lia. reflexivity.
Qed.

Lemma encode_scalar_3 (cp : N) :
  2048 <= cp <= 65535 ->
  encode_scalar cp =
  [224 + cp / 4096; 128 + (cp / 64) mod 64; 128 + cp mod 64].
Proof.
  intros H. unfold encode_scalar. decide_cmp.
  rewrite !land_63, !N.shiftr_div_pow2.
  change (2 ^ 6) with 64. change (2 ^ 12) with 4096.
  rewrite lor_224, !lor_128 by lia. reflexivity.
Qed.

Lemma encode_scalar_4 (cp : N) :
  65536 <= cp <= 1114111 ->
  encode_scalar cp =
  [240 + cp / 262144; 128 + (cp / 4096) mod 64; 128 + (cp / 64) mod 64;
   128 + cp mod 64].
Proof.
  intros H. unfold encode_scalar. decide_cmp.
  rewrite !land_63, !N.shiftr_div_pow2.
  change (2 ^ 6) with 64. change (2 ^ 12) with 4096. change (2 ^ 18) with 262144.
  rewrite lor_240, !lor_128 by lia. reflexivity.
Qed.

Lemma run_app (d : decoder) (a b : bytes) :
  run d (a ++ b) =
  let '(d1, o1) := run d a in
  let '(d2, o2) := run d1 b in (d2, o1 ++ o2).
Proof.
  revert d; induction a as [|x a IH]; intros d.
  - cbn. now destruct (run d b).
  - cbn [app run]. destruct (handler d x) as [d1 o1]. rewrite IH.
    destruct (run d1 a) as [d2 o2], (run d2 b) as [d3 o3].
    now rewrite app_assoc.
Qed.

Lemma is_scalar_spec (cp : N) :
  is_scalar cp = true <-> cp < 55296 \/ 57343 < cp < 1114112.
Proof.
  unfold is_scalar, is_surrogate.
  rewrite andb_true_iff, negb_true_iff, andb_false_iff, N.ltb_lt, !N.leb_gt.
  lia.
Qed.

(** The decoder reads the encoding of a scalar value back, and is then
    again in its initial state. *)
Lemma run_encode_scalar (cp : N) :
  is_scalar cp = true -> run decoder_init (encode_scalar cp) = (decoder_init, [cp]).
Proof.
  intros H. apply is_scalar_spec in H.
  destruct (N.le_gt_cases cp 127) as [H1|H1].
  { unfold encode_scalar. decide_cmp. cbn. unfold lead. decide_cmp. reflexivity. }
  destruct (N.le_gt_cases cp 2047) as [H2|H2].
  { rewrite encode_scalar_2 by lia. cbn [run].
    unfold handler at 1. cbn [bytes_needed decoder_init N.eqb].
    unfold lead. decide_cmp.
    unfold handler. cbn [bytes_needed bytes_seen code_point lower_boundary upper_boundary].
    decide_cmp. rewrite shift_in, land_31. cbn [app]. do 3 f_equal. lia. }
  destruct (N.le_gt_cases cp 65535) as [H3|H3].
  { rewrite encode_scalar_3 by lia. cbn [run].
    unfold handler at 1. cbn [bytes_needed decoder_init N.eqb].
    unfold lead. decide_cmp.
    unfold handler at 1.
    cbn [bytes_needed bytes_seen code_point lower_boundary upper_boundary].
    decide_cmp.
    destruct (N.eqb_spec (224 + cp / 4096) 224) as [E1|E1];
      destruct (N.eqb_spec (224 + cp / 4096) 237) as [E2|E2];
      try lia; decide_cmp;
      unfold handler;
      cbn [bytes_needed bytes_seen code_point lower_boundary upper_boundary];
      decide_cmp; rewrite !shift_in, land_15; cbn [app]; do 3 f_equal; lia. }
  rewrite encode_scalar_4 by lia. cbn [run].
  unfold handler at 1. cbn [bytes_needed decoder_init N.eqb].
  unfold lead. decide_cmp.
  unfold handler at 1.
  cbn [bytes_needed bytes_seen code_point lower_boundary upper_boundary].
  decide_cmp.
  destruct (N.eqb_spec (240 + cp / 262144) 240) as [E1|E1];
    destruct (N.eqb_spec (240 + cp / 262144) 244) as [E2|E2];
    try lia; decide_cmp;
    unfold handler;
    cbn [bytes_needed bytes_seen code_point lower_boundary upper_boundary];
    repeat (progress
              (cbn [bytes_needed bytes_seen code_point lower_boundary
                      upper_boundary]; decide_cmp));
    rewrite !shift_in, land_7; cbn [app]; do 3 f_equal; lia.
Qed.

Lemma serialize_app (seen : bool) (a b : list N) :
  serialize seen (a ++ b) =
  let '(seen1, s1) := serialize seen a in
  let '(seen2, s2) := serialize seen1 b in (seen2, s1 ++ s2).
Proof.
  revert seen; induction a as [|cp a IH]; intros seen.
  - cbn. now destruct (serialize seen b).
  - cbn [app serialize]. rewrite IH.
    destruct (serialize true a) as [seen1 s1].
    destruct (serialize seen1 b) as [seen2 s2].
    destruct (negb seen && (cp =? BOM)); [reflexivity|].
    now rewrite app_assoc.
Qed.

(** The decoder does not see where a chunk ends: decoding two chunks one
    after the other gives the text of their concatenation decoded at once,
    a sequence cut by the chunk boundary being carried over. *)
Lemma decode_app (t : TextDecoder) (a b : bytes) :
  decode t (a ++ b) =
  let '(t1, s1) := decode t a in
  let '(t2, s2) := decode t1 b in (t2, s1 ++ s2).
Proof.
  unfold decode. rewrite run_app.
  destruct (run (utf8 t) a) as [d1 o1].
  destruct (serialize (BOM_seen t) o1) as [seen1 s1] eqn:Es.
  cbn [utf8 BOM_seen].
  destruct (run d1 b) as [d2 o2]. rewrite serialize_app, Es.
  destruct (serialize seen1 o2) as [seen2 s2]. reflexivity.
Qed.

Lemma run_scalars (cps : list N) :
  forallb is_scalar cps = true ->
  run decoder_init (flat_map encode_scalar cps) = (decoder_init, cps).
Proof.
  induction cps as [|cp cps IH]; intros H; [reflexivity|].
  cbn [forallb] in H. apply andb_true_iff in H as [H1 H2].
  cbn [flat_map]. rewrite run_app, run_encode_scalar, IH by assumption.
  reflexivity.
Qed.

Lemma surrogate_ranges (c : N) :
  (is_lead_surrogate c = true <-> 55296 <= c <= 56319)
  /\ (is_trail_surrogate c = true <-> 56320 <= c <= 57343)
  /\ (is_surrogate c = true <-> 55296 <= c <= 57343).
Proof.
  unfold is_lead_surrogate, is_trail_surrogate, is_surrogate.
  rewrite !andb_true_iff, !N.leb_le. tauto.
Qed.

Lemma not_true_false (b : bool) : b = false <-> ~ b = true.
Proof. destruct b; split; congruence. Qed.

(** A well-formed string is the UTF-16 form of its scalar values, which
    are scalar values indeed. *)
Lemma well_formed_scalar_values (n : nat) :
  forall s, (List.length s <= n)%nat -> well_formed s = true ->
    forallb is_scalar (scalar_values s) = true
    /\ List.concat (List.map utf16 (scalar_values s)) = s.
Proof.
  induction n as [|n IH]; intros s Hn Hw.
  - destruct s; [split; reflexivity|cbn in Hn; lia].
  - destruct s as [|c s]; [split; reflexivity|].
    cbn [well_formed scalar_values] in *. cbn in Hn.
    destruct (surrogate_ranges c) as (RL & RT & RS).
    destruct (is_lead_surrogate c) eqn:EL.
    + destruct s as [|c2 s]; [discriminate|].
      apply andb_true_iff in Hw as [Ht Hw]. rewrite Ht.
      destruct (surrogate_ranges c2) as (_ & RT2 & _).
      apply RT2 in Ht. assert (HL : 55296 <= c <= 56319) by now apply RL.
      destruct (IH s) as [I1 I2]; [cbn in Hn; lia|exact Hw|].
      cbn [forallb List.map List.concat]. rewrite I1, I2. split.
      * rewrite andb_true_r. apply is_scalar_spec. lia.
      * unfold utf16. decide_cmp. cbn [app]. f_equal; [lia|]. f_equal. lia.
    + apply andb_true_iff in Hw as [Hw Hw3].
      apply andb_true_iff in Hw as [Hw1 Hw2].
      apply negb_true_iff in Hw1. rewrite Hw1.
      apply N.ltb_lt in Hw2.
      apply not_true_false in EL. apply not_true_false in Hw1.
      assert (NL : ~ 55296 <= c <= 56319)
        by (intros X; apply RL in X; discriminate).
      assert (NT : ~ 56320 <= c <= 57343) by tauto.
      destruct (IH s) as [I1 I2]; [lia|exact Hw3|].
      cbn [forallb List.map List.concat]. rewrite I1, I2. split.
      * rewrite andb_true_r. apply is_scalar_spec. lia.
      * unfold utf16. decide_cmp. reflexivity.
Qed.

Lemma serialize_utf16 (b : bool) (cps : list N) :
  b = true \/ hd 0 cps <> BOM ->
  snd (serialize b cps) = List.concat (List.map utf16 cps).
Proof.
  assert (T : forall l, snd (serialize true l) = List.concat (List.map utf16 l)).
  { induction l as [|cp l IH]; [reflexivity|].
    cbn [serialize]. destruct (serialize true l) as [seen s]. cbn in *.
    now rewrite IH. }
  intros H. destruct cps as [|cp cps]; [reflexivity|].
  cbn [serialize]. specialize (T cps).
  destruct (serialize true cps) as [seen s]. cbn in *. subst s.
  destruct b; [reflexivity|].
  destruct H as [H|H]; [discriminate|].
  apply N.eqb_neq in H. now rewrite H.
Qed.

(** Decoding the encoding of a well-formed text that does not begin with a
    byte order mark, from a decoder with no sequence open, gives the text
    back and leaves no sequence open. *)
Lemma decode_encode (t : TextDecoder) (text : jsstring) :
  utf8 t = decoder_init ->
  well_formed text = true ->
  hd 0 text <> BOM ->
  exists t', decode t (encode text) = (t', text) /\ utf8 t' = decoder_init.
Proof.
  intros Ht Hw Hb.
  destruct (well_formed_scalar_values (List.length text) text (le_n _) Hw)
    as [Hs Hc].
  unfold decode, encode. rewrite Ht, run_scalars by exact Hs.
  pose proof (serialize_utf16 (BOM_seen t) (scalar_values text)) as Hser.
  destruct (serialize (BOM_seen t) (scalar_values text)) as [seen s].
  cbn in Hser. exists {| utf8 := decoder_init; BOM_seen := seen |}.
  split; [|reflexivity].
  rewrite Hser, Hc; [reflexivity|]. right.
  destruct text as [|c text]; [exact Hb|].
  cbn [hd] in Hb. cbn [scalar_values].
  destruct (is_lead_surrogate c) eqn:EL.
  - destruct text as [|c2 text]; [discriminate|].
    destruct (is_trail_surrogate c2); cbn [hd]; unfold BOM; [|discriminate].
    apply (proj1 (surrogate_ranges c)) in EL.
    cbn [well_formed] in Hw. lia.
  - destruct (is_trail_surrogate c); cbn [hd]; [discriminate|exact Hb].
Qed.

End UTF8Facts.

(** ** Lines of the reformatted stream *)

Module WireFacts.
Import JSString UTF8 UTF8Spec JSON Completion Http WireSpec.
Import UTF8Facts JSONFacts.

Lemma well_formed_plain_app (a b : jsstring) :
  plain a = true -> well_formed (a ++ b) = well_formed b.
Proof.
  induction a as [|c a IH]; intros H; [reflexivity|].
  cbn [plain forallb] in H. apply andb_true_iff in H as [H1 H2].
  apply andb_true_iff in H1 as [H1 H3]. apply negb_true_iff in H1.
  rewrite surrogate_cases in H1. apply orb_false_iff in H1 as [HL HT].
  cbn [app well_formed]. rewrite HL, HT, H3. cbn [negb andb].
  now apply IH.
Qed.

Lemma well_formed_app (n : nat) :
  forall a b, (List.length a <= n)%nat ->
    well_formed a = true -> well_formed b = true -> well_formed (a ++ b) = true.
Proof.
  induction n as [|n IH]; intros a b Hn Ha Hb.
  - destruct a; [exact Hb|cbn in Hn; lia].
  - destruct a as [|c a]; [exact Hb|].
    cbn [app well_formed] in *. cbn in Hn.
    destruct (is_lead_surrogate c).
    + destruct a as [|c2 a]; [discriminate|].
      apply andb_true_iff in Ha as [H1 H2]. cbn [app]. rewrite H1.
      apply IH; [cbn in Hn; lia|assumption..].
    + apply andb_true_iff in Ha as [H1 H2]. rewrite H1.
      apply IH; [lia|assumption..].
Qed.

Lemma well_formed_concat (ls : list jsstring) :
  forallb well_formed ls = true -> well_formed (List.concat ls) = true.
Proof.
  induction ls as [|l ls IH]; intros H; [reflexivity|].
  cbn [forallb] in H. apply andb_true_iff in H as [H1 H2].
  cbn [List.concat]. apply (well_formed_app (List.length l)); auto.
Qed.

Lemma hex_char_bounds (d : N) : d < 16 -> 48 <= hex_char d < 128.
Proof.
  intros H. unfold hex_char. destruct (d <? 10) eqn:E; [|lia].
  apply N.ltb_lt in E. lia.
Qed.

Lemma hex_char_not_LF (d : N) : hex_char d <> LF.
Proof.
  unfold hex_char, LF. destruct (d <? 10); lia.
Qed.

Lemma plain_ascii (c : N) : c < 128 -> negb (is_surrogate c) && (c <? 65536) = true.
Proof.
  intros H. unfold is_surrogate. decide_cmp. reflexivity.
Qed.

Lemma plain_unicode_escape (c : code_unit) :
  c < 65536 -> plain (unicode_escape c) = true.
Proof.
  intros H. unfold unicode_escape, plain. cbn [forallb].
  rewrite !plain_ascii; try reflexivity; try lia;
    apply hex_char_bounds; lia.
Qed.

Lemma plain_quote_one (c : code_unit) :
  c < 65536 -> is_surrogate c = false -> plain (quote_one c) = true.
Proof.
  intros H Hs. unfold quote_one.
  repeat match goal with
         | |- context [if ?b then _ else _] =>
             destruct b; [first [reflexivity | now apply plain_unicode_escape]|]
         end.
  cbn. rewrite Hs. apply N.ltb_lt in H. now rewrite H.
Qed.

(** What [JSON.stringify] writes for a string of 16-bit code units is
    well formed, lone surrogates being escaped. *)
Lemma well_formed_quote_chars (n : nat) :
  forall s, (List.length s <= n)%nat -> is_string s = true ->
    well_formed (quote_chars s) = true.
Proof.
  induction n as [|n IH]; intros s Hn Hs.
  - destruct s; [reflexivity|cbn in Hn; lia].
  - destruct s as [|c s]; [reflexivity|].
    cbn [is_string forallb] in Hs. apply andb_true_iff in Hs as [Hc Hs].
    apply N.ltb_lt in Hc. cbn in Hn. cbn [quote_chars].
    destruct (is_lead_surrogate c) eqn:EL.
    + destruct s as [|c2 s].
      * rewrite <- (app_nil_r (unicode_escape c)).
        now rewrite well_formed_plain_app by now apply plain_unicode_escape.
      * cbn [forallb] in Hs. apply andb_true_iff in Hs as [Hc2 Hs].
        destruct (is_trail_surrogate c2) eqn:ET.
        -- cbn [well_formed]. rewrite EL, ET. cbn [andb].
           apply IH; [cbn in Hn; lia|exact Hs].
        -- rewrite well_formed_plain_app by now apply plain_unicode_escape.
           apply IH; [lia|]. cbn [is_string forallb]. now rewrite Hc2.
    + destruct (is_trail_surrogate c) eqn:ET.
      * rewrite well_formed_plain_app by now apply plain_unicode_escape.
        apply IH; [lia|exact Hs].
      * rewrite well_formed_plain_app.
        -- apply IH; [lia|exact Hs].
        -- apply plain_quote_one; [exact Hc|].
           now rewrite surrogate_cases, EL, ET.
Qed.

Lemma no_LF_app (a b : jsstring) : no_LF (a ++ b) = no_LF a && no_LF b.
Proof. apply forallb_app. Qed.

Lemma no_LF_unicode_escape (c : code_unit) : no_LF (unicode_escape c) = true.
Proof.
  unfold unicode_escape, no_LF. cbn [forallb].
  repeat match goal with
         | |- context [hex_char ?d =? LF] =>
             replace (hex_char d =? LF) with false
               by (symmetry; apply N.eqb_neq, hex_char_not_LF)
         end.
  reflexivity.
Qed.

Lemma no_LF_quote_one (c : code_unit) : no_LF (quote_one c) = true.
Proof.
  unfold quote_one.
  destruct (c =? 8); [reflexivity|].
  destruct (c =? 9); [reflexivity|].
  destruct (c =? 10) eqn:E; [reflexivity|].
  repeat match goal with
         | |- context [if ?b then _ else _] =>
             destruct b; [first [reflexivity | apply no_LF_unicode_escape]|]
         end.
  cbn. unfold LF. now rewrite E.
Qed.

(** What [JSON.stringify] writes for a string holds no line feed. *)
Lemma no_LF_quote_chars (n : nat) :
  forall s, (List.length s <= n)%nat -> no_LF (quote_chars s) = true.
Proof.
  induction n as [|n IH]; intros s Hn.
  - destruct s; [reflexivity|cbn in Hn; lia].
  - destruct s as [|c s]; [reflexivity|]. cbn in Hn. cbn [quote_chars].
    destruct (is_lead_surrogate c) eqn:EL.
    + assert (Hc : (c =? LF) = false).
      { apply N.eqb_neq. apply (proj1 (surrogate_ranges c)) in EL.
        unfold LF. lia. }
      destruct s as [|c2 s]; [apply no_LF_unicode_escape|].
      destruct (is_trail_surrogate c2) eqn:ET.
      * assert (Hc2 : (c2 =? LF) = false).
        { apply N.eqb_neq.
          apply (proj1 (proj1 (proj2 (surrogate_ranges c2)))) in ET.
          unfold LF. lia. }
        cbn [no_LF forallb]. rewrite Hc, Hc2. apply IH. cbn in Hn. lia.
      * rewrite no_LF_app, no_LF_unicode_escape. apply IH. lia.
    + destruct (is_trail_surrogate c).
      * rewrite no_LF_app, no_LF_unicode_escape. apply IH. lia.
      * rewrite no_LF_app, no_LF_quote_one. apply IH. lia.
Qed.

(** [split] cuts at the first line feed. *)
Lemma split_app_LF (a rest : jsstring) :
  no_LF a = true -> split (a ++ LF :: rest) = a :: split rest.
Proof.
  induction a as [|c a IH]; intros H.
  - cbn [app split]. now rewrite N.eqb_refl.
  - cbn [no_LF forallb] in H. apply andb_true_iff in H as [H1 H2].
    apply negb_true_iff in H1. cbn [app split]. rewrite H1, IH by exact H2.
    reflexivity.
Qed.

Lemma render_body (l : wire_line) : render l = line_body l ++ [LF].
Proof.
  destruct l; cbn [render line_body]; unfold Route.delta_line, Route.finish_line;
    now rewrite app_assoc.
Qed.

Lemma no_LF_body (l : wire_line) : no_LF (line_body l) = true.
Proof.
  destruct l as [d|]; [|vm_compute; reflexivity].
  cbn [line_body stringify]. unfold quote.
  rewrite !no_LF_app, (no_LF_quote_chars (List.length d)) by lia.
  reflexivity.
Qed.

Lemma well_formed_render (l : wire_line) :
  valid_line l = true -> well_formed (render l) = true.
Proof.
  destruct l as [d|]; [|intros _; vm_compute; reflexivity].
  cbn [valid_line render]. intros H. unfold Route.delta_line.
  cbn [stringify]. unfold quote.
  rewrite well_formed_plain_app by reflexivity.
  rewrite <- !app_assoc.
  rewrite well_formed_plain_app by reflexivity.
  apply (well_formed_app (List.length (quote_chars d))); [lia| |reflexivity].
  now apply (well_formed_quote_chars (List.length d)).
Qed.

(** The lines of a chunk that holds whole lines. *)
Lemma split_rendered (g : list wire_line) :
  split (List.concat (List.map render g)) = List.map line_body g ++ [[]].
Proof.
  induction g as [|l g IH]; [reflexivity|].
  cbn [List.map List.concat]. rewrite render_body, <- app_assoc.
  cbn [app]. rewrite split_app_LF by apply no_LF_body.
  now rewrite IH.
Qed.

End WireFacts.

(** ** The Renderer on a reformatted stream *)

Module StreamFacts.
Import JSString UTF8 UTF8Spec JSON Completion Http WireSpec.
Import Chatbot ChatbotSpec.
Import UTF8Facts JSONFacts WireFacts ChatbotFacts Examples.

Lemma body_head (l : wire_line) :
  exists c rest, line_body l = c :: rest /\ is_space c = false /\ c <> BOM.
Proof.
  destruct l as [d|].
  - exists 48, (58 :: stringify (JStr d)). repeat split. discriminate.
  - exists 100, (58 :: stringify Route.finishMessage). repeat split. discriminate.
Qed.

Lemma truthy_trim_body (l : wire_line) : JSString.truthy (trim (line_body l)) = true.
Proof.
  destruct (trim (line_body l)) eqn:E; [|reflexivity].
  apply trim_nil in E. destruct (body_head l) as (c & rest & Hb & Hs & _).
  rewrite Hb in E. cbn in E. rewrite Hs in E. discriminate.
Qed.

Lemma lines_of_rendered (g : list wire_line) :
  lines_of (List.concat (List.map render g)) = List.map line_body g.
Proof.
  unfold lines_of. rewrite split_rendered, filter_app. cbn [filter trim].
  cbn. rewrite app_nil_r.
  induction g as [|l g IH]; [reflexivity|].
  cbn [List.map filter]. now rewrite truthy_trim_body, IH.
Qed.

Lemma startsWith_nil (s : jsstring) : startsWith s [] = true.
Proof. now destruct s. Qed.

Lemma read_line_delta (aid fc d : jsstring) (w : world) :
  read_line aid fc (lit "0:" ++ stringify (JStr d)) w =
  (fc ++ d, setMessages (with_content aid (fc ++ d)) w).
Proof.
  unfold read_line. change (lit "0:") with [48; 58].
  cbn [app startsWith slice skipn]. rewrite !N.eqb_refl. cbn [andb].
  rewrite startsWith_nil.
  unfold try_delta. cbn [stringify].
  change (slice (48 :: 58 :: quote d) 2) with (quote d).
  rewrite parse_quote. reflexivity.
Qed.

Lemma read_line_body (aid fc : jsstring) (l : wire_line) (w : world) :
  read_line aid fc (line_body l) w = read_deltas aid fc (deltas_of [l]) w.
Proof.
  destruct l as [d|]; [apply read_line_delta|reflexivity].
Qed.

Lemma read_lines_bodies (aid : jsstring) (g : list wire_line) :
  forall fc w,
    read_lines aid fc (List.map line_body g) w = read_deltas aid fc (deltas_of g) w.
Proof.
  induction g as [|l g IH]; intros fc w; [reflexivity|].
  cbn [List.map read_lines]. rewrite read_line_body.
  destruct l as [d|]; cbn [deltas_of read_deltas]; apply IH.
Qed.

Lemma deltas_of_app (a b : list wire_line) :
  deltas_of (a ++ b) = deltas_of a ++ deltas_of b.
Proof.
  induction a as [|l a IH]; [reflexivity|].
  destruct l; cbn [app deltas_of]; now rewrite IH.
Qed.

Lemma deltas_of_reformatted (deltas : list jsstring) :
  deltas_of (reformatted deltas) = deltas.
Proof.
  unfold reformatted. rewrite deltas_of_app. cbn. rewrite app_nil_r.
  induction deltas as [|d ds IH]; [reflexivity|]. cbn. now rewrite IH.
Qed.

Lemma read_deltas_app (aid : jsstring) (a b : list jsstring) :
  forall fc w,
    read_deltas aid fc (a ++ b) w =
    read_deltas aid (fst (read_deltas aid fc a w)) b
      (snd (read_deltas aid fc a w)).
Proof.
  induction a as [|d a IH]; intros fc w; [reflexivity|].
  cbn [app read_deltas]. apply IH.
Qed.

Lemma read_deltas_content (aid : jsstring) (ds : list jsstring) :
  forall fc w, fst (read_deltas aid fc ds w) = fc ++ List.concat ds.
Proof.
  induction ds as [|d ds IH]; intros fc w.
  - cbn. now rewrite app_nil_r.
  - cbn [read_deltas List.concat]. rewrite IH. now rewrite app_assoc.
Qed.

Lemma with_content_twice (aid c1 c2 : jsstring) (ms : list Message) :
  with_content aid c2 (with_content aid c1 ms) = with_content aid c2 ms.
Proof.
  unfold with_content. rewrite map_map. apply map_ext. intros m.
  destruct (eqb (id m) aid) eqn:E; cbn [id role]; now rewrite E.
Qed.

(** After at least one delta the message list is the one before the
    deltas with the whole accumulated content in the placeholder. *)
Lemma read_deltas_messages (aid : jsstring) (ds : list jsstring) :
  forall fc st tr, ds <> [] ->
    messages (fst (snd (read_deltas aid fc ds (st, tr)))) =
    with_content aid (fc ++ List.concat ds) (messages st).
Proof.
  induction ds as [|d ds IH]; intros fc st tr H; [congruence|].
  cbn [read_deltas List.concat]. unfold setMessages.
  destruct ds as [|d2 ds].
  - cbn. now rewrite app_nil_r.
  - rewrite IH by discriminate. cbn [messages].
    now rewrite with_content_twice, app_assoc.
Qed.

Lemma hd_rendered (g : list wire_line) :
  hd 0 (List.concat (List.map render g)) <> BOM.
Proof.
  destruct g as [|l g]; [discriminate|].
  cbn [List.map List.concat]. rewrite render_body.
  destruct (body_head l) as (c & rest & Hb & _ & Hc).
  rewrite Hb. exact Hc.
Qed.

(** Chunks that hold whole lines are read as their deltas. *)
Lemma read_chunks_groups (aid : jsstring) (groups : list (list wire_line)) :
  forall t fc w,
    utf8 t = decoder_init ->
    forallb (forallb valid_line) groups = true ->
    read_chunks aid t fc (List.map chunk_of groups) w =
    read_deltas aid fc (deltas_of (List.concat groups)) w.
Proof.
  induction groups as [|g groups IH]; intros t fc w Ht Hv; [reflexivity|].
  cbn [forallb] in Hv. apply andb_true_iff in Hv as [Hg Hv].
  cbn [List.map read_chunks List.concat]. unfold chunk_of at 1.
  destruct (decode_encode t (List.concat (List.map render g)) Ht)
    as (t' & Hd & Ht').
  { apply well_formed_concat. rewrite forallb_forall in *.
    intros x Hx. apply in_map_iff in Hx as (l & <- & Hl).
    apply well_formed_render. now apply Hg. }
  { apply hd_rendered. }
  rewrite Hd, lines_of_rendered, read_lines_bodies.
  rewrite deltas_of_app, read_deltas_app.
  destruct (read_deltas aid fc (deltas_of g) w) as [fc1 w1].
  now apply IH.
Qed.

End StreamFacts.

(** ** The Reformatter: the TransformStream *)

Module TransformFacts.
Import JSString UTF8 UTF8Spec JSON Completion Http WireSpec.
Import Route RouteSpec.
Import UTF8Facts JSONFacts WireFacts ChatbotFacts Examples.

(** The chunks enqueued for a line do not depend on the accumulated
    content. *)
Lemma transform_line_emitted (fc line : jsstring) :
  snd (transform_line fc line) = emitted line.
Proof.
  unfold emitted, transform_line.
  destruct (startsWith line (lit "data: ")); [|reflexivity].
  destruct (eqb (slice line 6) (lit "[DONE]")); [reflexivity|].
  unfold try_parse. destruct (parse (slice line 6)) as [v|]; [|reflexivity].
  cbn [bind]. destruct (content_of v) as [[c|]|e]; cbn [bind try_catch];
    try reflexivity.
  destruct (truthy (Some c)); [|reflexivity].
  destruct (ToString c); reflexivity.
Qed.

Lemma transform_lines_emitted (lines : list jsstring) :
  forall fc, snd (transform_lines fc lines) = flat_map emitted lines.
Proof.
  induction lines as [|l lines IH]; intros fc; [reflexivity|].
  cbn [transform_lines flat_map].
  pose proof (transform_line_emitted fc l) as H.
  destruct (transform_line fc l) as [fc1 out1]. cbn in H. subst out1.
  specialize (IH fc1). destruct (transform_lines fc1 lines) as [fc2 out2].
  cbn in *. now rewrite IH.
Qed.

(** The output of the stream is what its lines emit, in order. *)
Lemma transform_all_emitted (cs : list bytes) :
  forall st,
    snd (transform_all st cs) = flat_map emitted (lines_seen (decoder st) cs).
Proof.
  induction cs as [|c cs IH]; intros st; [reflexivity|].
  cbn [transform_all lines_seen]. unfold transform.
  destruct (decode (decoder st) c) as [dec text].
  pose proof (transform_lines_emitted (lines_of text) (fullContent st)) as H.
  destruct (transform_lines (fullContent st) (lines_of text)) as [fc out].
  cbn in H. subst out.
  specialize (IH {| decoder := dec; fullContent := fc |}).
  destruct (transform_all _ cs) as [st2 out2]. cbn in *.
  now rewrite IH, flat_map_app.
Qed.

Lemma optional_member_Some (x : option json) (key : jsstring) (c : json) :
  optional_member x key = Some c ->
  exists w, x = Some w /\ member w key = Some c.
Proof.
  destruct x as [[]|]; cbn; intros H; try discriminate; eauto.
Qed.

Lemma member_optional (w : json) (key : jsstring) (c : json) :
  member w key = Some c -> optional_member (Some w) key = Some c.
Proof. destruct w; cbn; intros H; try discriminate; exact H. Qed.

(** The optional chain reads the content exactly when there is one. *)
Lemma content_of_has_content (v c : json) :
  content_of v = Normal (Some c) <-> has_content v c.
Proof.
  unfold has_content. split.
  - unfold content_of. destruct v; try discriminate; intros H;
      injection H as H;
      apply optional_member_Some in H as (delta & H & Hc);
      apply optional_member_Some in H as (first & H & Hd);
      apply optional_member_Some in H as (choices & H & Hf);
      eauto 8.
  - intros (choices & first & delta & H1 & H2 & H3 & H4).
    unfold content_of.
    destruct v; try discriminate; rewrite H1;
      rewrite (member_optional _ _ _ H2), (member_optional _ _ _ H3),
        (member_optional _ _ _ H4); reflexivity.
Qed.

(** A malformed event emits nothing and leaves the accumulated content as
    it was. *)
Lemma transform_line_malformed (fc line : jsstring) :
  malformed (slice line 6) -> transform_line fc line = (fc, []).
Proof.
  intros [Hd Hm]. unfold transform_line.
  destruct (startsWith line (lit "data: ")); [|reflexivity].
  destruct (eqb (slice line 6) (lit "[DONE]")) eqn:E.
  { apply eqb_eq in E. contradiction. }
  unfold try_parse. destruct (parse (slice line 6)) as [v|] eqn:Ep;
    [|reflexivity].
  cbn [bind]. destruct (content_of v) as [[c|]|e] eqn:Ec;
    cbn [bind try_catch]; try reflexivity.
  apply content_of_has_content in Ec. exfalso. exact (Hm v c eq_refl Ec).
Qed.

Lemma parse_DONE : parse (lit "[DONE]") = None.
Proof. vm_compute. reflexivity. Qed.

(** An event with a non-empty string content emits its delta line. *)
Lemma transform_line_carries (fc line s : jsstring) :
  carries line s ->
  transform_line fc line = (fc ++ s, [encode (delta_line (JStr s))]).
Proof.
  intros (Hp & Hs & v & Hv & Hc). unfold transform_line. rewrite Hp.
  destruct (eqb (slice line 6) (lit "[DONE]")) eqn:E.
  { apply eqb_eq in E. rewrite E, parse_DONE in Hv. discriminate. }
  unfold try_parse. rewrite Hv. cbn [bind].
  apply content_of_has_content in Hc. rewrite Hc. cbn [bind].
  destruct s as [|x s]; [congruence|]. reflexivity.
Qed.

Lemma transform_line_done (fc : jsstring) :
  transform_line fc done_line = (fc, [encode finish_line]).
Proof. reflexivity. Qed.

(** Whatever a line emits is one delta line or the terminal line, and only
    the line [data: [DONE]] emits the terminal line. *)
Lemma emitted_cases (line : jsstring) :
  emitted line = []
  \/ (exists c, emitted line = [encode (delta_line c)])
  \/ (line = done_line /\ emitted line = [encode finish_line]).
Proof.
  unfold emitted, transform_line.
  destruct (startsWith line (lit "data: ")) eqn:Hp; [|now left].
  destruct (eqb (slice line 6) (lit "[DONE]")) eqn:E.
  - right. right. split; [|reflexivity].
    apply eqb_eq in E. unfold done_line.
    change (lit "data: [DONE]") with (lit "data: " ++ lit "[DONE]").
    rewrite <- E. clear E.
    change (lit "data: ") with [100; 97; 116; 97; 58; 32] in *.
    repeat (destruct line as [|? line]; [discriminate|];
            cbn [startsWith] in Hp;
            apply andb_true_iff in Hp as [Hx Hp];
            apply N.eqb_eq in Hx; subst).
    reflexivity.
  - unfold try_parse. destruct (parse (slice line 6)) as [v|]; [|now left].
    cbn [bind]. destruct (content_of v) as [[c|]|e]; cbn [bind try_catch];
      try (now left).
    destruct (truthy (Some c)); [|now left].
    destruct (ToString c); cbn [bind try_catch]; [|now left].
    right. left. now exists c.
Qed.

Lemma encode_delta_not_finish (c : json) :
  encode (delta_line c) <> encode finish_line.
Proof.
  assert (H1 : hd 0 (encode (delta_line c)) = 48) by reflexivity.
  assert (H2 : hd 0 (encode finish_line) = 100) by (vm_compute; reflexivity).
  intros H. rewrite H, H2 in H1. discriminate.
Qed.

Lemma transform_lines_app (a b : list jsstring) :
  forall fc,
    transform_lines fc (a ++ b) =
    (fst (transform_lines (fst (transform_lines fc a)) b),
     snd (transform_lines fc a)
     ++ snd (transform_lines (fst (transform_lines fc a)) b)).
Proof.
  induction a as [|l a IH]; intros fc.
  - cbn. now destruct (transform_lines fc b).
  - cbn [app transform_lines]. destruct (transform_line fc l) as [fc1 o1].
    rewrite IH. destruct (transform_lines fc1 a) as [fc2 o2]. cbn [fst snd].
    destruct (transform_lines fc2 b) as [fc3 o3]. cbn [fst snd].
    now rewrite app_assoc.
Qed.

Lemma emitted_not_data (line : jsstring) :
  startsWith line (lit "data: ") = false -> emitted line = [].
Proof. intros H. unfold emitted, transform_line. now rewrite H. Qed.

Lemma emitted_no_data (post : list jsstring) :
  (forall l, In l post -> startsWith l (lit "data: ") = false) ->
  flat_map emitted post = [].
Proof.
  induction post as [|l post IH]; intros H; [reflexivity|].
  cbn [flat_map]. rewrite emitted_not_data by (apply H; now left).
  apply IH. intros l' Hl'. apply H. now right.
Qed.

Lemma split_lines (g : list jsstring) :
  forallb no_LF g = true ->
  split (List.concat (List.map (fun l => l ++ [LF]) g)) = g ++ [[]].
Proof.
  induction g as [|l g IH]; intros H; [reflexivity|].
  cbn [forallb] in H. apply andb_true_iff in H as [H1 H2].
  cbn [List.map List.concat]. rewrite <- app_assoc. cbn [app].
  rewrite split_app_LF by exact H1. now rewrite IH.
Qed.

Lemma emitted_blank (l : jsstring) : eqb (trim l) [] = true -> emitted l = [].
Proof.
  intros H. apply eqb_eq, trim_nil in H. apply emitted_not_data.
  destruct l as [|c l]; [reflexivity|].
  cbn [forallb] in H. apply andb_true_iff in H as [H _].
  change (lit "data: ") with [100; 97; 116; 97; 58; 32]. cbn [startsWith].
  destruct (N.eqb_spec 100 c) as [<-|_]; [discriminate|reflexivity].
Qed.

Lemma emitted_lines_of (ls : list jsstring) :
  flat_map emitted (filter (fun l => negb (eqb (trim l) [])) ls) =
  flat_map emitted ls.
Proof.
  induction ls as [|l ls IH]; [reflexivity|].
  cbn [filter flat_map]. destruct (eqb (trim l) []) eqn:E; cbn [negb].
  - now rewrite emitted_blank, IH.
  - cbn [flat_map]. now rewrite IH.
Qed.

(** The Reformatter on chunks that hold whole lines: the output is what
    the lines of the stream emit, in order, however they are grouped into
    chunks. *)
Lemma transform_whole_lines (groups : list (list jsstring)) :
  forall st,
    utf8 (decoder st) = decoder_init ->
    forallb (forallb plain_line) groups = true ->
    snd (transform_all st (List.map upstream_chunk groups)) =
    flat_map emitted (List.concat groups).
Proof.
  intros st Ht Hg. rewrite transform_all_emitted.
  generalize dependent (decoder st). clear st.
  induction groups as [|g groups IH]; intros t Ht; [reflexivity|].
  cbn [forallb] in Hg. apply andb_true_iff in Hg as [H1 H2].
  cbn [List.map lines_seen List.concat]. unfold upstream_chunk at 1.
  assert (Hwf : forallb well_formed (List.map (fun l => l ++ [LF]) g) = true).
  { rewrite forallb_forall in *. intros x Hx.
    apply in_map_iff in Hx as (l & <- & Hl). specialize (H1 l Hl).
    unfold plain_line in H1. apply andb_true_iff in H1 as [H1 _].
    apply andb_true_iff in H1 as [H1 _].
    now apply (well_formed_app (List.length l)). }
  assert (Hnl : forallb no_LF g = true).
  { rewrite forallb_forall in *. intros l Hl. specialize (H1 l Hl).
    unfold plain_line in H1. apply andb_true_iff in H1 as [H1 _].
    now apply andb_true_iff in H1 as [_ H1]. }
  assert (Hhd : hd 0 (List.concat (List.map (fun l => l ++ [LF]) g)) <> BOM).
  { destruct g as [|l g]; [discriminate|].
    cbn [forallb] in H1. apply andb_true_iff in H1 as [H1 _].
    unfold plain_line in H1. apply andb_true_iff in H1 as [_ H1].
    apply negb_true_iff, N.eqb_neq in H1.
    cbn [List.map List.concat]. destruct l; [discriminate|exact H1]. }
  destruct (decode_encode t _ Ht (well_formed_concat _ Hwf) Hhd)
    as (t' & Hd & Ht').
  rewrite Hd. unfold lines_of. rewrite split_lines by exact Hnl.
  rewrite !flat_map_app, emitted_lines_of, flat_map_app. cbn [flat_map].
  rewrite app_nil_r. f_equal. now apply IH.
Qed.

(** C2, as stated, fails: the Reformatter goes on after [data: [DONE]].
    With an event after the sentinel the output is the terminal line
    followed by a delta line, and with the sentinel twice the output holds
    two terminal lines. *)
Lemma lines_after_done_processed :
  snd (transform_all transform_init [done_then_more]) =
    [encode finish_line; encode (delta_line (JStr (lit "x")))]
  /\ snd (transform_all transform_init [done_twice]) =
    [encode finish_line; encode finish_line].
Proof. vm_compute. split; reflexivity. Qed.

(** C2, amended. For every upstream stream, a line [data: [DONE]] that
    the loop meets makes the Reformatter emit the terminal line at that
    point of its output, after what the earlier lines emitted and before
    what the later lines emit, which are processed like any other line.
    When no earlier line is [data: [DONE]], all that precedes the terminal
    line is delta lines; when no later line starts with [data: ], nothing
    follows it: the output then holds one terminal line, which is its last
    line. *)
Theorem done_emits_finish (st : TransformState) (cs : list bytes)
  (pre post : list jsstring) :
  lines_seen (decoder st) cs = pre ++ done_line :: post ->
  snd (transform_all st cs) =
    flat_map emitted pre ++ [encode finish_line] ++ flat_map emitted post
  /\ ((forall l, In l pre -> l <> done_line) ->
      forall chunk, In chunk (flat_map emitted pre) ->
        chunk <> encode finish_line
        /\ exists c, chunk = encode (delta_line c))
  /\ ((forall l, In l post -> startsWith l (lit "data: ") = false) ->
      snd (transform_all st cs) =
        flat_map emitted pre ++ [encode finish_line]).
Proof.
  intros H.
  assert (Hout : snd (transform_all st cs) =
                 flat_map emitted pre ++ [encode finish_line]
                 ++ flat_map emitted post).
  { rewrite transform_all_emitted, H, flat_map_app. reflexivity. }
  split; [exact Hout|split].
  - intros Hpre chunk Hin. apply in_flat_map in Hin as (l & Hl & Hc).
    destruct (emitted_cases l) as [E|[[c E]|[E _]]].
    + rewrite E in Hc. destruct Hc.
    + rewrite E in Hc. destruct Hc as [<-|[]].
      split; [apply encode_delta_not_finish|now exists c].
    + exfalso. exact (Hpre l Hl E).
  - intros Hpost. rewrite Hout, (emitted_no_data post Hpost).
    now rewrite app_nil_r.
Qed.

Lemma done_emits_finish_witness :
  snd (transform_all transform_init [hi_upstream]) =
    flat_map emitted [event_line (lit "hi")] ++ [encode finish_line]
    ++ flat_map emitted []
  /\ ((forall l, In l [event_line (lit "hi")] -> l <> done_line) ->
      forall chunk, In chunk (flat_map emitted [event_line (lit "hi")]) ->
        chunk <> encode finish_line
        /\ exists c, chunk = encode (delta_line c))
  /\ ((forall l, In l [] -> startsWith l (lit "data: ") = false) ->
      snd (transform_all transform_init [hi_upstream]) =
        flat_map emitted [event_line (lit "hi")] ++ [encode finish_line]).
Proof.
  apply (done_emits_finish transform_init [hi_upstream]
           [event_line (lit "hi")] []).
  vm_compute. reflexivity.
Defined.

(** C5. An event line that the loop meets and whose remainder after
    [data: ] is neither [[DONE]] nor JSON with a first-choice content emits
    nothing, and the stream goes on as if the line had not been there: the
    output is what the lines before it and the lines after it emit, the
    accumulated content is theirs, and every later event line that carries a
    non-empty string content has its delta line in the output. *)
Theorem malformed_event_skipped (st : TransformState) (cs : list bytes)
  (pre post : list jsstring) (line : jsstring) :
  lines_seen (decoder st) cs = pre ++ line :: post ->
  startsWith line (lit "data: ") = true ->
  malformed (slice line 6) ->
  emitted line = []
  /\ snd (transform_all st cs) = flat_map emitted pre ++ flat_map emitted post
  /\ (forall later s, In later post -> carries later s ->
        In (encode (delta_line (JStr s))) (snd (transform_all st cs)))
  /\ (forall fc, transform_lines fc (pre ++ line :: post) =
                 transform_lines fc (pre ++ post)).
Proof.
  intros H Hp Hm.
  assert (He : emitted line = []).
  { unfold emitted. now rewrite transform_line_malformed. }
  assert (Hout : snd (transform_all st cs) =
                 flat_map emitted pre ++ flat_map emitted post).
  { rewrite transform_all_emitted, H, flat_map_app. cbn [flat_map].
    now rewrite He. }
  split; [exact He|split; [exact Hout|split]].
  - intros later s Hin Hc. rewrite Hout. apply in_or_app. right.
    apply in_flat_map. exists later. split; [exact Hin|].
    unfold emitted. rewrite (transform_line_carries [] later s Hc). now left.
  - intros fc. rewrite !transform_lines_app. cbn [transform_lines].
    rewrite transform_line_malformed by exact Hm.
    destruct (transform_lines (fst (transform_lines fc pre)) post).
    reflexivity.
Qed.

Lemma malformed_event_skipped_witness :
  emitted (lit "data: {oops") = []
  /\ snd (transform_all transform_init [garbled_upstream]) =
       flat_map emitted [event_line (lit "a")]
       ++ flat_map emitted [event_line (lit "b")]
  /\ (forall later s, In later [event_line (lit "b")] -> carries later s ->
        In (encode (delta_line (JStr s)))
           (snd (transform_all transform_init [garbled_upstream])))
  /\ (forall fc,
        transform_lines fc
          ([event_line (lit "a")] ++ lit "data: {oops" :: [event_line (lit "b")]) =
        transform_lines fc ([event_line (lit "a")] ++ [event_line (lit "b")])).
Proof.
  apply (malformed_event_skipped transform_init [garbled_upstream]).
  - vm_compute. reflexivity.
  - reflexivity.
  - split; [discriminate|]. intros v c Hv. vm_compute in Hv. discriminate.
Defined.

End TransformFacts.

(** ** Chunk boundaries *)

Module ChunkBoundaries.
Import JSString UTF8 UTF8Spec JSON Completion Http WireSpec.
Import Chatbot ChatbotSpec RouteSpec.
Import UTF8Facts JSONFacts WireFacts ChatbotFacts StreamFacts TransformFacts.
Import Examples.

(** C1, as stated, fails: neither loop keeps the unfinished last line of
    a chunk for the next chunk.  The reformatted stream of the delta [hi],
    fed whole, gives the Renderer the content [hi]; cut after its fourth
    byte, inside the delta line, it gives the empty content.  So does the
    stream of a delta that is the one letter U+00E9, cut between the two
    bytes of the letter.  Likewise the provider's stream for [hi], fed whole
    to the Reformatter, is turned into the delta line and the terminal line;
    cut inside the event line it is turned into the terminal line alone. *)
Lemma chunk_boundary_inside_line :
  let aid := assistantId_of 2 in
  let w := (initial_state, []) in
  (firstn 4 hi_stream ++ skipn 4 hi_stream = hi_stream
   /\ fst (read_chunks aid new_TextDecoder [] [hi_stream] w) = lit "hi"
   /\ fst (read_chunks aid new_TextDecoder []
             [firstn 4 hi_stream; skipn 4 hi_stream] w) = [])
  /\ (firstn 4 e_acute_stream ++ skipn 4 e_acute_stream = e_acute_stream
      /\ fst (read_chunks aid new_TextDecoder [] [e_acute_stream] w) = [233]
      /\ fst (read_chunks aid new_TextDecoder []
                [firstn 4 e_acute_stream; skipn 4 e_acute_stream] w) = [])
  /\ (firstn 20 hi_upstream ++ skipn 20 hi_upstream = hi_upstream
      /\ snd (Route.transform_all Route.transform_init [hi_upstream]) =
           [encode (render (Delta (lit "hi"))); encode (render Finish)]
      /\ snd (Route.transform_all Route.transform_init
                [firstn 20 hi_upstream; skipn 20 hi_upstream]) =
           [encode (render Finish)]).
Proof. vm_compute. repeat split. Qed.

(** C1, amended. For every reformatted stream of delta lines D1..Dn
    followed by the terminal line, the deltas being strings of 16-bit code
    units, and for every way of cutting the stream into chunks at ends of
    lines (each chunk holds whole lines; the stream as one chunk is one such
    way), the Renderer reads the chunks as it reads the deltas one by one:
    its accumulated content is D1+...+Dn in the end, and with at least one
    delta that is the content of the placeholder.  The same holds of the
    Reformatter: on an upstream stream cut into chunks at ends of lines its
    output is what the lines of the stream emit, in order, however the lines
    are grouped into chunks. *)
Theorem whole_line_chunks (deltas : list jsstring)
  (groups : list (list wire_line)) (aid : jsstring) (st : State)
  (tr : list Event) (upstream : list (list jsstring)) :
  forallb is_string deltas = true ->
  List.concat groups = reformatted deltas ->
  forallb (forallb plain_line) upstream = true ->
  read_chunks aid new_TextDecoder [] (List.map chunk_of groups) (st, tr) =
    read_deltas aid [] deltas (st, tr)
  /\ read_chunks aid new_TextDecoder [] [chunk_of (reformatted deltas)] (st, tr) =
    read_deltas aid [] deltas (st, tr)
  /\ fst (read_deltas aid [] deltas (st, tr)) = List.concat deltas
  /\ (deltas <> [] ->
      messages (fst (snd (read_deltas aid [] deltas (st, tr)))) =
      with_content aid (List.concat deltas) (messages st))
  /\ snd (Route.transform_all Route.transform_init
            (List.map upstream_chunk upstream)) =
     flat_map emitted (List.concat upstream)
  /\ snd (Route.transform_all Route.transform_init
            [upstream_chunk (List.concat upstream)]) =
     flat_map emitted (List.concat upstream).
Proof.
  intros Hs Hg Hu.
  assert (Hv : forallb valid_line (reformatted deltas) = true).
  { unfold reformatted. rewrite forallb_app. cbn. rewrite andb_true_r.
    rewrite forallb_forall in *. intros l Hl.
    apply in_map_iff in Hl as (d & <- & Hd). cbn. now apply Hs. }
  split; [|split; [|split; [|split; [|split]]]].
  - rewrite read_chunks_groups; [|reflexivity|].
    + now rewrite Hg, deltas_of_reformatted.
    + rewrite forallb_forall. intros g Hin. rewrite forallb_forall.
      intros l Hl. rewrite forallb_forall in Hv. apply Hv.
      rewrite <- Hg. apply in_concat. now exists g.
  - change [chunk_of (reformatted deltas)]
      with (List.map chunk_of [reformatted deltas]).
    rewrite read_chunks_groups; [|reflexivity|].
    + cbn [List.concat]. now rewrite app_nil_r, deltas_of_reformatted.
    + cbn [forallb]. now rewrite Hv.
  - apply read_deltas_content.
  - intros Hne. now rewrite read_deltas_messages.
  - now apply transform_whole_lines.
  - change [upstream_chunk (List.concat upstream)]
      with (List.map upstream_chunk [List.concat upstream]).
    rewrite transform_whole_lines; [|reflexivity|].
    + cbn [List.concat]. now rewrite app_nil_r.
    + cbn [forallb]. rewrite andb_true_r.
      rewrite forallb_forall in *. intros l Hl.
      apply in_concat in Hl as (g & Hg1 & Hg2).
      specialize (Hu g Hg1). rewrite forallb_forall in Hu. now apply Hu.
Qed.

Lemma whole_line_chunks_witness :
  let deltas := [lit "Yes"; awkward] in
  let groups := [[Delta (lit "Yes")]; []; [Delta awkward; Finish]] in
  let aid := assistantId_of 2 in
  let st := initial_state in
  let upstream :=
    [[event_line (lit "Yes"); []]; []; [event_line awkward; []; done_line]] in
  read_chunks aid new_TextDecoder [] (List.map chunk_of groups) (st, []) =
    read_deltas aid [] deltas (st, [])
  /\ read_chunks aid new_TextDecoder [] [chunk_of (reformatted deltas)] (st, []) =
    read_deltas aid [] deltas (st, [])
  /\ fst (read_deltas aid [] deltas (st, [])) = List.concat deltas
  /\ (deltas <> [] ->
      messages (fst (snd (read_deltas aid [] deltas (st, [])))) =
      with_content aid (List.concat deltas) (messages st))
  /\ snd (Route.transform_all Route.transform_init
            (List.map upstream_chunk upstream)) =
     flat_map emitted (List.concat upstream)
  /\ snd (Route.transform_all Route.transform_init
            [upstream_chunk (List.concat upstream)]) =
     flat_map emitted (List.concat upstream).
Proof.
  intros deltas groups aid st upstream.
  apply (whole_line_chunks deltas groups aid st [] upstream); reflexivity.
Defined.

End ChunkBoundaries.

(** ** Deltas from the Reformatter to the Renderer *)

Module RoundTrip.
Import JSString UTF8 UTF8Spec JSON Completion Http WireSpec.
Import Chatbot ChatbotSpec RouteSpec.
Import UTF8Facts JSONFacts WireFacts ChatbotFacts StreamFacts TransformFacts.
Import Examples.

Lemma read_chunks_delta (aid fc s : jsstring) (t : TextDecoder) (w : world) :
  is_string s = true -> utf8 t = decoder_init ->
  read_chunks aid t fc [encode (Route.delta_line (JStr s))] w =
  (fc ++ s, setMessages (with_content aid (fc ++ s)) w).
Proof.
  intros Hs Ht.
  replace [encode (Route.delta_line (JStr s))]
    with (List.map chunk_of [[Delta s]])
    by (cbn; unfold chunk_of; cbn; now rewrite app_nil_r).
  rewrite read_chunks_groups; [reflexivity|exact Ht|].
  cbn. now rewrite Hs.
Qed.

(** C7. Deltas round-trip: for every string [s], the line the Reformatter
    writes for the content [s], [0:] followed by the JSON encoding of [s],
    is decoded by the Renderer to exactly [s], which it appends to its
    accumulated content: on the line itself whatever the code units of [s]
    are (quotes, backslashes, line feeds, control characters, surrogates,
    paired or not), and on the UTF-8 bytes of the line, and so on what the
    Reformatter enqueues for an event that carries [s], for every string of
    16-bit code units.  In particular the line [0:"hello"] decodes to
    [hello]. *)
Theorem delta_round_trip (s : jsstring) :
  parse (slice (lit "0:" ++ stringify (JStr s)) 2) = Some (JStr s)
  /\ (forall (aid fc : jsstring) (w : world),
        read_line aid fc (lit "0:" ++ stringify (JStr s)) w =
        (fc ++ s, setMessages (with_content aid (fc ++ s)) w))
  /\ (is_string s = true ->
      forall (aid fc : jsstring) (t : TextDecoder) (w : world),
        utf8 t = decoder_init ->
        read_chunks aid t fc [encode (Route.delta_line (JStr s))] w =
        (fc ++ s, setMessages (with_content aid (fc ++ s)) w)
        /\ forall upstream line : jsstring,
             carries line s ->
             read_chunks aid t fc (snd (Route.transform_line upstream line)) w =
             (fc ++ s, setMessages (with_content aid (fc ++ s)) w))
  /\ (forall (aid fc : jsstring) (w : world),
        read_line aid fc (lit "0:" ++ [QUOTE] ++ lit "hello" ++ [QUOTE]) w =
        (fc ++ lit "hello",
         setMessages (with_content aid (fc ++ lit "hello")) w)).
Proof.
  split; [|split; [|split]].
  - change (slice (lit "0:" ++ stringify (JStr s)) 2) with (quote s).
    apply parse_quote.
  - intros. apply read_line_delta.
  - intros Hs aid fc t w Ht. split.
    + now apply read_chunks_delta.
    + intros upstream line Hc. rewrite (transform_line_carries _ _ _ Hc).
      now apply read_chunks_delta.
  - intros. apply (read_line_delta aid fc (lit "hello")).
Qed.

Lemma delta_round_trip_witness :
  is_string awkward = true
  /\ (read_chunks (assistantId_of 2) new_TextDecoder []
        [encode (Route.delta_line (JStr awkward))] (initial_state, []) =
      ([] ++ awkward,
       setMessages (with_content (assistantId_of 2) ([] ++ awkward))
         (initial_state, []))
      /\ forall upstream line : jsstring,
           carries line awkward ->
           read_chunks (assistantId_of 2) new_TextDecoder []
             (snd (Route.transform_line upstream line)) (initial_state, []) =
           ([] ++ awkward,
            setMessages (with_content (assistantId_of 2) ([] ++ awkward))
              (initial_state, []))).
Proof.
  split; [reflexivity|].
  apply (proj1 (proj2 (proj2 (delta_round_trip awkward)))); reflexivity.
Defined.

(** An event of the provider with the content [awkward] carries it. *)
Lemma event_line_carries_awkward : carries (event_line awkward) awkward.
Proof.
  split; [reflexivity|]. split; [discriminate|].
  exists (event awkward). split; [vm_compute; reflexivity|].
  unfold has_content, event. do 3 eexists. repeat split.
Qed.

End RoundTrip.

(** ** The scenarios of the specification *)

Module Scenarios.
Import JSString UTF8 JSON Completion Http WireSpec Examples.
Import Chatbot ChatbotSpec.

(** The provider streams [Yes], [, we], [ do.] and the sentinel: the
    Reformatter writes three delta lines and the terminal line, and the
    Renderer ends the turn with the content [Yes, we do.]. *)
Example carpet_cleaning :
  let response :=
    fst (Route.POST None (Normal (Some carpet_request))
           (fun _ => Resolved carpet_upstream)) in
  option_map chunks (body response) =
    Some [encode (render (Delta (lit "Yes")));
          encode (render (Delta (lit ", we")));
          encode (render (Delta (lit " do.")));
          encode (render Finish)]
  /\ sendMessage [] carpet_question 1 2 (Resolved response) (initial_state, []) =
     (({| isOpen := false; input := [];
          messages :=
            [userMsg_of carpet_question 1;
             {| id := assistantId_of 2; role := assistant;
                content := lit "Yes, we do." |}];
          isLoading := false |},
       [SetMessages [userMsg_of carpet_question 1];
        SetIsLoading true;
        SetMessages [userMsg_of carpet_question 1; placeholder_of 2];
        Fetch [(user, carpet_question)];
        SetMessages [userMsg_of carpet_question 1;
                     {| id := assistantId_of 2; role := assistant;
                        content := lit "Yes" |}];
        SetMessages [userMsg_of carpet_question 1;
                     {| id := assistantId_of 2; role := assistant;
                        content := lit "Yes, we" |}];
        SetMessages [userMsg_of carpet_question 1;
                     {| id := assistantId_of 2; role := assistant;
                        content := lit "Yes, we do." |}];
        SetIsLoading false]),
      Normal tt).
Proof. vm_compute. split; reflexivity. Qed.

(** The provider answers 401: the Reformatter answers 500 with the error
    body, and the Renderer ends the turn with the apology. *)
Example upstream_unauthorized :
  let response :=
    fst (Route.POST None (Normal (Some carpet_request))
           (fun _ => Resolved response_401)) in
  status response = 500
  /\ option_map chunks (body response) = Some [encode Route.error_body]
  /\ messages
       (fst (fst (sendMessage [] carpet_question 1 2 (Resolved response)
                    (initial_state, [])))) =
     [userMsg_of carpet_question 1;
      {| id := assistantId_of 2; role := assistant; content := apology |}].
Proof. vm_compute. repeat split. Qed.

End Scenarios.

(** * Further properties of the route handler *)

Module HandlerFacts.
Import JSString UTF8 UTF8Spec JSON Completion Http WireSpec.
Import Route RouteSpec TurnSpec.
Import UTF8Facts JSONFacts WireFacts ChatbotFacts TransformFacts Examples.

(** ** The handler *)

(** X1. When the body of the request cannot be used (reading it as JSON
    fails, or it has no [messages]), [POST] answers with the 500 error
    response and sends nothing to the provider. *)
Theorem POST_unusable_request (key : option jsstring)
  (request_json : completion (option (list msg)))
  (fetch : UpstreamRequest -> FetchResult) :
  unusable request_json ->
  POST key request_json fetch = (failure_response, [])
  /\ ok failure_response = false.
Proof.
  intros H. split; [|reflexivity].
  destruct request_json as [[msgs|]|e]; [destruct H| |]; reflexivity.
Qed.

Lemma POST_unusable_request_witness :
  unusable (Throw SyntaxError)
  /\ (POST None (Throw SyntaxError) (fun _ => Rejected) = (failure_response, [])
      /\ ok failure_response = false).
Proof.
  split; [exact I|].
  apply (POST_unusable_request None (Throw SyntaxError) (fun _ => Rejected)).
  exact I.
Defined.


(** ** The transform *)

Lemma sentinel_line (line : jsstring) :
  startsWith line (lit "data: ") = true ->
  eqb (slice line 6) (lit "[DONE]") = true ->
  line = done_line.
Proof.
  intros Hp E. apply eqb_eq in E. unfold done_line.
  change (lit "data: [DONE]") with (lit "data: " ++ lit "[DONE]").
  rewrite <- E. clear E.
  change (lit "data: ") with [100; 97; 116; 97; 58; 32] in *.
  repeat (destruct line as [|? line]; [discriminate|];
          cbn [startsWith] in Hp;
          apply andb_true_iff in Hp as [Hx Hp];
          apply N.eqb_eq in Hx; subst).
  reflexivity.
Qed.

(** What a line enqueues, with the reason. *)
Lemma emitted_origin (line : jsstring) (chunk : bytes) :
  In chunk (emitted line) ->
  (line = done_line /\ chunk = encode finish_line)
  \/ (exists v c str,
        is_data line = true
        /\ eqb (slice line 6) (lit "[DONE]") = false
        /\ parse (slice line 6) = Some v
        /\ has_content v c
        /\ JSON.truthy (Some c) = true
        /\ ToString c = Normal str
        /\ chunk = encode (delta_line c)).
Proof.
  unfold emitted, transform_line, is_data.
  destruct (startsWith line (lit "data: ")) eqn:Hp; [|intros []].
  destruct (eqb (slice line 6) (lit "[DONE]")) eqn:E.
  - intros [<-|[]]. left. split; [|reflexivity].
    now apply sentinel_line.
  - unfold try_parse. destruct (parse (slice line 6)) as [v|]; [|intros []].
    cbn [bind]. destruct (content_of v) as [[c|]|e] eqn:Ec;
      cbn [bind try_catch]; try (intros []).
    destruct (JSON.truthy (Some c)) eqn:Ht; [|intros []].
    destruct (ToString c) as [str|] eqn:Es; cbn [bind try_catch snd];
      [|intros []].
    intros [<-|[]]. right. exists v, c, str.
    apply content_of_has_content in Ec. now repeat split.
Qed.



Lemma count_finish_app (a b : list bytes) :
  count_finish (a ++ b) = (count_finish a + count_finish b)%nat.
Proof. unfold count_finish. now rewrite filter_app, length_app. Qed.

Lemma count_finish_emitted (line : jsstring) :
  count_finish (emitted line) = if eqb line done_line then 1%nat else 0%nat.
Proof.
  destruct (eqb line done_line) eqn:E.
  - apply eqb_eq in E. subst line. unfold emitted.
    rewrite transform_line_done. cbn [snd]. unfold count_finish.
    cbn [filter]. now rewrite eqb_refl.
  - destruct (emitted line) as [|chunk rest] eqn:He; [reflexivity|].
    assert (Hin : In chunk (emitted line)) by (rewrite He; now left).
    apply emitted_origin in Hin
      as [[-> _]|(v & c & str & Hp & Hd & Hv & Hc & Ht & Hs & ->)].
    + now rewrite eqb_refl in E.
    + revert He. unfold emitted, transform_line. unfold is_data in Hp.
      rewrite Hp, Hd. unfold try_parse. rewrite Hv. cbn [bind].
      apply content_of_has_content in Hc. rewrite Hc. cbn [bind].
      rewrite Ht, Hs. cbn [bind try_catch snd]. intros He.
      injection He as <-. unfold count_finish. cbn [filter].
      destruct (eqb (encode (delta_line c)) (encode finish_line)) eqn:E';
        [|reflexivity].
      apply eqb_eq in E'. now apply encode_delta_not_finish in E'.
Qed.

(** X4. The transform enqueues one terminal line for each line [data:
    [DONE]] it meets, and no other: the number of terminal lines in the
    output is the number of such lines in the input.  A stream that ends
    without [data: [DONE]] is therefore reformatted without a terminal
    line, and one that repeats it gets it repeated. *)
Theorem finish_lines_counted (st : TransformState) (cs : list bytes) :
  count_finish (snd (transform_all st cs))
  = count_done (lines_seen (decoder st) cs).
Proof.
  rewrite transform_all_emitted.
  induction (lines_seen (decoder st) cs) as [|l ls IH]; [reflexivity|].
  cbn [flat_map]. rewrite count_finish_app, IH, count_finish_emitted.
  unfold count_done. cbn [filter].
  destruct (eqb l done_line); reflexivity.
Qed.

Lemma transform_line_not_data (fc line : jsstring) :
  is_data line = false -> transform_line fc line = (fc, []).
Proof. unfold is_data, transform_line. now intros ->. Qed.

(** X5. Lines that do not start with [data: ] (comments, [event:] or
    [id:] fields, [data:] without the blank) change neither the output nor
    the accumulated content: the loop gives the same result on the lines
    with them taken out. *)
Theorem other_lines_ignored (fullContent : jsstring) (lines : list jsstring) :
  transform_lines fullContent lines
  = transform_lines fullContent (filter is_data lines).
Proof.
  revert fullContent.
  induction lines as [|l ls IH]; intros fc; [reflexivity|].
  cbn [filter]. destruct (is_data l) eqn:E.
  - cbn [transform_lines]. destruct (transform_line fc l) as [fc1 out1].
    now rewrite IH.
  - cbn [transform_lines]. rewrite (transform_line_not_data _ _ E).
    rewrite IH. now destruct (transform_lines fc (filter is_data ls)).
Qed.

(** The accumulated content of the transform after the chunks [cs]. *)
Lemma transform_all_content (cs : list bytes) :
  forall st,
    fullContent (fst (transform_all st cs))
    = fst (transform_lines (fullContent st) (lines_seen (decoder st) cs)).
Proof.
  induction cs as [|c cs IH]; intros st; [reflexivity|].
  cbn [transform_all lines_seen]. unfold transform.
  destruct (decode (decoder st) c) as [dec text].
  rewrite transform_lines_app. cbn [fst].
  destruct (transform_lines (fullContent st) (Route.lines_of text))
    as [fc out].
  specialize (IH {| decoder := dec; fullContent := fc |}).
  destruct (transform_all {| decoder := dec; fullContent := fc |} cs)
    as [st2 out2].
  cbn [fst]. exact IH.
Qed.

Lemma transform_line_append (fc line : jsstring) :
  transform_line fc line
  = (fc ++ fst (transform_line [] line), snd (transform_line [] line)).
Proof.
  unfold transform_line.
  destruct (startsWith line (lit "data: "));
    [|cbn; now rewrite app_nil_r].
  destruct (eqb (slice line 6) (lit "[DONE]"));
    [cbn; now rewrite app_nil_r|].
  unfold try_parse. destruct (parse (slice line 6)) as [v|];
    [|cbn; now rewrite app_nil_r].
  cbn [bind]. destruct (content_of v) as [[c|]|e]; cbn [bind try_catch];
    try (cbn; now rewrite app_nil_r).
  destruct (JSON.truthy (Some c)); [|cbn; now rewrite app_nil_r].
  destruct (ToString c); cbn [bind try_catch fst snd app];
    [reflexivity|now rewrite app_nil_r].
Qed.

Lemma transform_lines_append (lines : list jsstring) :
  forall fc,
    fst (transform_lines fc lines) = fc ++ fst (transform_lines [] lines).
Proof.
  induction lines as [|l lines IH]; intros fc;
    [cbn; now rewrite app_nil_r|].
  cbn [transform_lines]. rewrite (transform_line_append fc l).
  destruct (transform_line [] l) as [d out]. cbn [fst snd].
  pose proof (IH (fc ++ d)) as H1. pose proof (IH d) as H2.
  destruct (transform_lines (fc ++ d) lines) as [fc2 out2].
  destruct (transform_lines d lines) as [fc3 out3].
  cbn [fst] in *. now rewrite H1, H2, List.app_assoc.
Qed.

(** X6. The content the transform accumulates is written and never
    read: what is enqueued does not depend on it, and the chunks of a
    stream only append to it what they would have accumulated from the
    empty string. *)
Theorem fullContent_only_appended (st : TransformState) (cs : list bytes) :
  let st0 := {| decoder := decoder st; fullContent := [] |} in
  snd (transform_all st cs) = snd (transform_all st0 cs)
  /\ fullContent (fst (transform_all st cs))
     = fullContent st ++ fullContent (fst (transform_all st0 cs)).
Proof.
  cbv zeta. split.
  - now rewrite !transform_all_emitted.
  - rewrite !transform_all_content. cbn [decoder fullContent].
    apply transform_lines_append.
Qed.

End HandlerFacts.

(** * Further properties of the component *)

Module ComponentFacts.
Import JSString UTF8 UTF8Spec JSON Completion Http WireSpec.
Import Chatbot ChatbotSpec TurnSpec.
Import UTF8Facts JSONFacts WireFacts ChatbotFacts StreamFacts Examples.
Import TurnExamples.

(** ** The loop over the response *)

Lemma read_line_cases (aid fc line : jsstring) (w : world) :
  read_line aid fc line w = (fc, w)
  \/ exists d,
       read_line aid fc line w =
       (fc ++ d, setMessages (with_content aid (fc ++ d)) w).
Proof.
  unfold read_line. destruct (startsWith line (lit "0:")); [|now left].
  unfold try_delta. destruct (parse (slice line 2)) as [v|]; cbn; [|now left].
  destruct (ToString v) as [str|e]; cbn; [|now left].
  right. now exists str.
Qed.

Lemma chain_extends_app (l1 l2 : list jsstring) :
  forall a,
    chain extends (a :: l1) -> chain extends (last l1 a :: l2) ->
    chain extends (a :: l1 ++ l2).
Proof.
  induction l1 as [|b l1 IH]; intros a H1 H2; [exact H2|].
  rewrite last_cons in H2. destruct H1 as [Hab H1].
  change (extends a b /\ chain extends (b :: l1 ++ l2)).
  split; [exact Hab|]. now apply IH.
Qed.

Lemma last_app_default {A} (l1 l2 : list A) (d : A) :
  last (l1 ++ l2) d = last l2 (last l1 d).
Proof.
  revert d. induction l1 as [|x l1 IH]; intros d; [reflexivity|].
  change ((x :: l1) ++ l2) with (x :: (l1 ++ l2)).
  now rewrite !last_cons, IH.
Qed.

Lemma read_lines_growth (aid : jsstring) (lines : list jsstring) :
  forall fc w,
    exists cs,
      read_lines aid fc lines w = (last cs fc, republished aid cs w)
      /\ chain extends (fc :: cs).
Proof.
  induction lines as [|l lines IH]; intros fc w.
  - exists []. now split.
  - cbn [read_lines].
    destruct (read_line_cases aid fc l w) as [H|[d H]]; rewrite H.
    + apply IH.
    + destruct (IH (fc ++ d) (setMessages (with_content aid (fc ++ d)) w))
        as (cs & Hr & Hc).
      exists ((fc ++ d) :: cs). rewrite last_cons. split; [exact Hr|].
      split; [now exists d|exact Hc].
Qed.

Lemma read_chunks_growth (aid : jsstring) (values : list bytes) :
  forall (dec : TextDecoder) (fc : jsstring) (w : world),
    exists cs,
      read_chunks aid dec fc values w = (last cs fc, republished aid cs w)
      /\ chain extends (fc :: cs).
Proof.
  induction values as [|v values IH]; intros dec fc w.
  - exists []. now split.
  - cbn [read_chunks]. destruct (decode dec v) as [dec' chunk].
    destruct (read_lines_growth aid (lines_of chunk) fc w) as (cs1 & H1 & C1).
    rewrite H1.
    destruct (IH dec' (last cs1 fc) (republished aid cs1 w)) as (cs2 & H2 & C2).
    exists (cs1 ++ cs2).
    rewrite last_app_default, republished_app. split; [exact H2|].
    now apply chain_extends_app.
Qed.

(** X7. While a response is read, whatever its bytes, the loop changes
    nothing but the message list, and the content only grows: there are
    contents, each extending the one before (the first extends what had
    been accumulated), such that the loop publishes the message list with
    the placeholder's content set to each of them in turn, calls no other
    setter, and ends with the last of them as the accumulated content. *)
Theorem content_only_grows (aid : jsstring) (values : list bytes)
  (dec : TextDecoder) (fullContent : jsstring) (st : State)
  (tr : list Event) :
  exists cs,
    read_chunks aid dec fullContent values (st, tr)
      = (last cs fullContent,
         ({| isOpen := isOpen st; input := input st;
             messages := last (snapshots aid cs (messages st)) (messages st);
             isLoading := isLoading st |},
          tr ++ List.map SetMessages (snapshots aid cs (messages st))))
    /\ chain extends (fullContent :: cs).
Proof.
  destruct (read_chunks_growth aid values dec fullContent (st, tr))
    as (cs & H & Hc).
  exists cs. rewrite H, republished_spec. now split.
Qed.

Lemma read_lines_app (aid : jsstring) (a b : list jsstring) :
  forall fc w,
    read_lines aid fc (a ++ b) w =
    read_lines aid (fst (read_lines aid fc a w)) b
      (snd (read_lines aid fc a w)).
Proof.
  induction a as [|l a IH]; intros fc w; [reflexivity|].
  cbn [app read_lines]. destruct (read_line aid fc l w) as [fc1 w1].
  apply IH.
Qed.

(** X8. A line of the response that does not start with [0:], or whose
    remainder is not JSON, is passed over: the content, the state and the
    trace are as if the line had not been there, and the lines after it
    are read as before. *)
Theorem unreadable_line_skipped (aid fullContent : jsstring)
  (pre post : list jsstring) (line : jsstring) (w : world) :
  startsWith line (lit "0:") = false \/ parse (slice line 2) = None ->
  read_lines aid fullContent (pre ++ line :: post) w
  = read_lines aid fullContent (pre ++ post) w.
Proof.
  intros H. rewrite !read_lines_app. cbn [read_lines].
  assert (E : forall fc w', read_line aid fc line w' = (fc, w')).
  { intros fc w'. unfold read_line.
    destruct (startsWith line (lit "0:")); [|reflexivity].
    destruct H as [H|H]; [discriminate|].
    unfold try_delta. now rewrite H. }
  rewrite E. reflexivity.
Qed.

Lemma unreadable_line_skipped_witness :
  (startsWith (line_body Finish) (lit "0:") = false
   \/ parse (slice (line_body Finish) 2) = None)
  /\ read_lines (assistantId_of 2) []
       ([line_body (Delta (lit "a"))] ++ line_body Finish
          :: [line_body (Delta (lit "b"))]) (initial_state, [])
     = read_lines (assistantId_of 2) []
         ([line_body (Delta (lit "a"))] ++ [line_body (Delta (lit "b"))])
         (initial_state, []).
Proof.
  assert (H : startsWith (line_body Finish) (lit "0:") = false
              \/ parse (slice (line_body Finish) 2) = None)
    by (left; reflexivity).
  split; [exact H|].
  exact (unreadable_line_skipped (assistantId_of 2) []
           [line_body (Delta (lit "a"))] [line_body (Delta (lit "b"))]
           (line_body Finish) (initial_state, []) H).
Defined.

(** ** The end of a turn *)

Lemma read_line_content (aid aid' fc line : jsstring) (w w' : world) :
  fst (read_line aid fc line w) = fst (read_line aid' fc line w').
Proof.
  unfold read_line. destruct (startsWith line (lit "0:")); [|reflexivity].
  unfold try_delta. destruct (parse (slice line 2)) as [v|]; cbn;
    [|reflexivity].
  destruct (ToString v); reflexivity.
Qed.

Lemma read_lines_content (aid aid' : jsstring) (lines : list jsstring) :
  forall fc w w',
    fst (read_lines aid fc lines w) = fst (read_lines aid' fc lines w').
Proof.
  induction lines as [|l lines IH]; intros fc w w'; [reflexivity|].
  cbn [read_lines].
  pose proof (read_line_content aid aid' fc l w w') as H.
  destruct (read_line aid fc l w) as [fc1 w1].
  destruct (read_line aid' fc l w') as [fc2 w2].
  cbn in H. subst fc2. apply IH.
Qed.

(** The content the loop accumulates depends on the bytes alone. *)
Lemma read_chunks_content (aid aid' : jsstring) (values : list bytes) :
  forall dec fc w w',
    fst (read_chunks aid dec fc values w)
    = fst (read_chunks aid' dec fc values w').
Proof.
  induction values as [|v values IH]; intros dec fc w w'; [reflexivity|].
  cbn [read_chunks]. destruct (decode dec v) as [dec' chunk].
  pose proof (read_lines_content aid aid' (lines_of chunk) fc w w') as H.
  destruct (read_lines aid fc (lines_of chunk) w) as [fc1 w1].
  destruct (read_lines aid' fc (lines_of chunk) w') as [fc2 w2].
  cbn in H. subst fc2. apply IH.
Qed.

Lemma last_snapshot (aid : jsstring) (cs : list jsstring) :
  forall ms,
    last (snapshots aid cs ms) ms =
    match cs with
    | [] => ms
    | _ => with_content aid (last cs []) ms
    end.
Proof.
  induction cs as [|c cs IH]; intros ms; [reflexivity|].
  cbn [snapshots]. rewrite last_cons, IH.
  destruct cs as [|c' cs]; [reflexivity|].
  now rewrite with_content_twice, !last_cons.
Qed.

Lemma with_content_turn (aid c : jsstring) (prev : list Message)
  (u p : Message) :
  eqb (id u) aid = false -> id p = aid ->
  with_content aid c (prev ++ [u; p]) =
  with_content aid c prev
  ++ [u; {| id := aid; role := role p; content := c |}].
Proof.
  intros Hu Hp. unfold with_content. rewrite map_app. cbn [List.map].
  now rewrite Hu, Hp, eqb_refl.
Qed.

Lemma user_id_differs (now1 now2 : N) :
  eqb (lit "user-" ++ decimal now1) (assistantId_of now2) = false.
Proof. reflexivity. Qed.

Lemma frame_refl (aid : jsstring) (ms : list Message) : frame aid ms ms.
Proof. induction ms; constructor; auto. Qed.

(** The messages once the contents [cs] have been republished over a
    list that ends with the user message and the placeholder. *)
Lemma republished_turn (aid : jsstring) (cs : list jsstring)
  (prev : list Message) (u : Message) :
  eqb (id u) aid = false ->
  exists prefix,
    last (snapshots aid cs
            (prev ++ [u; {| id := aid; role := assistant; content := [] |}]))
         (prev ++ [u; {| id := aid; role := assistant; content := [] |}])
    = prefix ++ [u; {| id := aid; role := assistant; content := last cs [] |}]
    /\ frame aid prev prefix.
Proof.
  intros Hu. rewrite last_snapshot. destruct cs as [|c cs].
  - exists prev. split; [reflexivity|apply frame_refl].
  - exists (with_content aid (last (c :: cs) []) prev).
    split; [|apply frame_with_content].
    now rewrite with_content_turn.
Qed.

(** The turn from the point where [fetch] has resolved to a success
    response with a body. *)
Lemma sendMessage_resume_stream (now2 : N) (r : Response) (s : Stream)
  (w : world) :
  ok r = true -> body r = Some s ->
  sendMessage_resume now2 (Resolved r) w =
  (setIsLoading false
     (if errored s
      then setMessages (with_content (assistantId_of now2) apology)
             (emit ConsoleError
                (snd (read_chunks (assistantId_of now2) new_TextDecoder []
                        (chunks s) w)))
      else snd (read_chunks (assistantId_of now2) new_TextDecoder []
                  (chunks s) w)),
   Normal tt).
Proof.
  intros Hok Hb. unfold sendMessage_resume, try_catch_finally, try_read.
  fold (assistantId_of now2). rewrite Hok, Hb. cbn [negb].
  destruct (read_chunks _ _ _ _ _) as [fc w']. cbn [snd].
  now destruct (errored s).
Qed.

Lemma frame_with_content_after (aid c : jsstring) (a b : list Message) :
  frame aid a b -> frame aid a (with_content aid c b).
Proof.
  intros Hf. induction Hf as [|m m' a b (Hi & Hr & Hn) Hf IH]; [constructor|].
  cbn [with_content List.map]. constructor; [|exact IH].
  destruct (eqb (id m') aid) eqn:E; cbn [id role].
  - repeat split; auto. intros Hne. apply eqb_eq in E. congruence.
  - repeat split; auto.
Qed.

(** The turn from the point where [fetch] has settled, over a list that
    ends with the user message and the placeholder. *)
Lemma sendMessage_resume_shape (now2 : N) (net : FetchResult) (st : State)
  (tr : list Event) (prev : list Message) (u : Message) :
  messages st = prev ++ [u; placeholder_of now2] ->
  eqb (id u) (assistantId_of now2) = false ->
  exists (st' : State) (tr' : list Event) (prefix : list Message)
         (reply : jsstring),
    sendMessage_resume now2 net (st, tr) = ((st', tr'), Normal tt)
    /\ messages st' =
         prefix ++ [u; {| id := assistantId_of now2; role := assistant;
                          content := reply |}]
    /\ frame (assistantId_of now2) prev prefix
    /\ isLoading st' = false
    /\ input st' = input st
    /\ isOpen st' = isOpen st.
Proof.
  intros Hm Hu.
  destruct (sendMessage_resume_spec now2 net (st, tr)) as (cs & failed & H).
  rewrite H. clear H. rewrite republished_spec.
  set (aid := assistantId_of now2) in *. rewrite Hm.
  destruct (republished_turn aid cs prev u Hu) as (prefix & Hl & Hf).
  unfold placeholder_of. fold aid. rewrite Hl. destruct failed.
  - unfold emit, setMessages, setIsLoading.
    cbn [messages isOpen input isLoading].
    do 2 eexists. exists (with_content aid apology prefix), apology.
    split; [reflexivity|]. cbn [messages isOpen input isLoading].
    repeat split.
    + rewrite with_content_turn by first [exact Hu | reflexivity].
      reflexivity.
    + now apply frame_with_content_after.
  - unfold setIsLoading. cbn [messages isOpen input isLoading].
    do 2 eexists. exists prefix, (last cs []).
    split; [reflexivity|]. cbn [messages isOpen input isLoading].
    now repeat split.
Qed.

(** X9. Every turn, however the request ends, settles without an
    exception and leaves the conversation longer by exactly two messages:
    the user message as it was passed, then one assistant message with the
    placeholder's id.  The messages before them keep their ids and roles,
    and their contents unless they have the placeholder's id.  The loading
    flag ends cleared; the input and the open flag are not touched. *)
Theorem turn_appends_two (ms : list Message) (userMessage : jsstring)
  (now1 now2 : N) (net : FetchResult) (st : State) :
  exists (st' : State) (tr : list Event) (prefix : list Message)
         (reply : jsstring),
    sendMessage ms userMessage now1 now2 net (st, []) = ((st', tr), Normal tt)
    /\ messages st' =
         prefix ++ [{| id := lit "user-" ++ decimal now1; role := user;
                       content := userMessage |};
                    {| id := lit "assistant-" ++ decimal now2;
                       role := assistant; content := reply |}]
    /\ frame (lit "assistant-" ++ decimal now2) (messages st) prefix
    /\ isLoading st' = false
    /\ input st' = input st
    /\ isOpen st' = isOpen st.
Proof.
  unfold sendMessage. rewrite sendMessage_start_spec.
  match goal with
  | |- context [sendMessage_resume now2 net (?s, ?t)] =>
      destruct (sendMessage_resume_shape now2 net s t (messages st)
                  (userMsg_of userMessage now1) eq_refl
                  (user_id_differs now1 now2))
        as (st' & tr & prefix & reply & H & Hm & Hf & Hl & Hi & Ho)
  end.
  rewrite H. exists st', tr, prefix, reply.
  split; [reflexivity|]. now repeat split.
Qed.

Lemma not_in_published (l : list (list Message)) :
  ~ In ConsoleError (List.map SetMessages l).
Proof. intros H. apply in_map_iff in H as (x & H & _). discriminate. Qed.

(** The turn when the response is a success with a body: the contents
    [cs] are republished over the list that ends with the user message
    and the placeholder; a break of the stream adds the log entry and the
    apology. *)
Lemma sendMessage_stream (ms : list Message) (userMessage : jsstring)
  (now1 now2 : N) (r : Response) (s : Stream) (st : State) :
  ok r = true -> body r = Some s ->
  exists cs : list jsstring,
    last cs [] = accumulated (chunks s)
    /\ let aid := assistantId_of now2 in
       let ms0 := messages st
                  ++ [userMsg_of userMessage now1;
                      {| id := aid; role := assistant; content := [] |}] in
       let shown := last (snapshots aid cs ms0) ms0 in
       sendMessage ms userMessage now1 now2 (Resolved r) (st, []) =
       (({| isOpen := isOpen st; input := input st;
            messages := if errored s then with_content aid apology shown
                        else shown;
            isLoading := false |},
         [SetMessages (messages st ++ [userMsg_of userMessage now1]);
          SetIsLoading true;
          SetMessages ms0;
          Fetch (history (ms ++ [userMsg_of userMessage now1]))]
         ++ List.map SetMessages (snapshots aid cs ms0)
         ++ (if errored s
             then [ConsoleError; SetMessages (with_content aid apology shown)]
             else [])
         ++ [SetIsLoading false]),
        Normal tt).
Proof.
  intros Hok Hb. unfold sendMessage.
  rewrite (sendMessage_resume_stream now2 r s _ Hok Hb).
  rewrite sendMessage_start_spec.
  match goal with
  | |- context [read_chunks ?a ?d ?f ?v ?w] =>
      destruct (read_chunks_growth a v d f w) as (cs & H & _);
      pose proof (read_chunks_content a [] v d f w (initial_state, [])) as Hc
  end.
  rewrite H in Hc |- *. clear H. cbn [fst] in Hc. cbn [snd].
  fold (accumulated (chunks s)) in Hc.
  exists cs. split; [exact Hc|]. cbv zeta.
  rewrite republished_spec. cbn [messages isOpen input isLoading].
  change (messages st ++ [userMsg_of userMessage now1] ++ [placeholder_of now2])
    with (messages st ++
          [userMsg_of userMessage now1;
           {| id := assistantId_of now2; role := assistant; content := [] |}]).
  destruct (errored s).
  - unfold emit, setMessages, setIsLoading.
    cbn [messages isOpen input isLoading app].
    repeat rewrite <- List.app_assoc. reflexivity.
  - unfold setIsLoading. cbn [messages isOpen input isLoading app].
    repeat rewrite <- List.app_assoc. reflexivity.
Qed.

Lemma apology_over_snapshots (aid : jsstring) (cs : list jsstring)
  (prev : list Message) :
  with_content aid apology
    (last (snapshots aid cs
             (prev ++ [{| id := aid; role := assistant; content := [] |}]))
          (prev ++ [{| id := aid; role := assistant; content := [] |}]))
  = with_content aid apology prev
    ++ [{| id := aid; role := assistant; content := apology |}].
Proof.
  rewrite last_snapshot.
  assert (E : with_content aid apology
                (prev ++ [{| id := aid; role := assistant; content := [] |}])
              = with_content aid apology prev
                ++ [{| id := aid; role := assistant; content := apology |}]).
  { unfold with_content. rewrite map_app. cbn [List.map id role].
    now rewrite eqb_refl. }
  destruct cs; [|rewrite with_content_twice]; exact E.
Qed.

(** X10. When the response is a success but its stream breaks before the
    end, whatever had been shown of the reply is replaced by the apology:
    the turn ends with the apology as the content of the assistant
    message, the error logged, the loading flag cleared, and no
    exception. *)
Theorem broken_stream_apology (ms : list Message) (userMessage : jsstring)
  (now1 now2 : N) (r : Response) (s : Stream) (st : State) :
  ok r = true -> body r = Some s -> errored s = true ->
  exists (st' : State) (tr : list Event),
    sendMessage ms userMessage now1 now2 (Resolved r) (st, [])
      = ((st', tr), Normal tt)
    /\ messages st' =
         with_content (assistantId_of now2) apology
           (messages st ++ [userMsg_of userMessage now1])
         ++ [{| id := assistantId_of now2; role := assistant;
                content := apology |}]
    /\ isLoading st' = false
    /\ In ConsoleError tr.
Proof.
  intros Hok Hb He.
  destruct (sendMessage_stream ms userMessage now1 now2 r s st Hok Hb)
    as (cs & _ & H).
  cbv zeta in H. rewrite He in H. rewrite H. clear H.
  do 2 eexists. split; [reflexivity|]. cbn [messages isLoading].
  split; [|split; [reflexivity|]].
  - replace (messages st ++
             [userMsg_of userMessage now1;
              {| id := assistantId_of now2; role := assistant;
                 content := [] |}])
      with ((messages st ++ [userMsg_of userMessage now1]) ++
            [{| id := assistantId_of now2; role := assistant;
                content := [] |}])
      by (now rewrite <- List.app_assoc).
    apply apology_over_snapshots.
  - rewrite !in_app_iff. right. right. left. now left.
Qed.

Lemma broken_stream_apology_witness :
  ok broken_response = true
  /\ body broken_response
     = Some {| chunks := [encode (render (Delta (lit "Yes")))];
               errored := true |}
  /\ exists (st' : State) (tr : list Event),
       sendMessage [] (lit "hi") 1 2 (Resolved broken_response)
         (initial_state, []) = ((st', tr), Normal tt)
       /\ messages st' =
            with_content (assistantId_of 2) apology
              (messages initial_state ++ [userMsg_of (lit "hi") 1])
            ++ [{| id := assistantId_of 2; role := assistant;
                   content := apology |}]
       /\ isLoading st' = false
       /\ In ConsoleError tr.
Proof.
  split; [reflexivity|]. split; [reflexivity|].
  apply (broken_stream_apology [] (lit "hi") 1 2 broken_response
           {| chunks := [encode (render (Delta (lit "Yes")))];
              errored := true |} initial_state);
    reflexivity.
Defined.

(** X11. When the response is a success and its stream ends well, the
    turn ends with the accumulated content of the stream as the content of
    the assistant message, which is the empty string when the stream held
    no delta; nothing is logged and the apology is not written. *)
Theorem clean_stream_content (ms : list Message) (userMessage : jsstring)
  (now1 now2 : N) (r : Response) (s : Stream) (st : State) :
  ok r = true -> body r = Some s -> errored s = false ->
  exists (st' : State) (tr : list Event) (prefix : list Message),
    sendMessage ms userMessage now1 now2 (Resolved r) (st, [])
      = ((st', tr), Normal tt)
    /\ messages st' =
         prefix ++ [userMsg_of userMessage now1;
                    {| id := assistantId_of now2; role := assistant;
                       content := accumulated (chunks s) |}]
    /\ frame (assistantId_of now2) (messages st) prefix
    /\ isLoading st' = false
    /\ ~ In ConsoleError tr.
Proof.
  intros Hok Hb He.
  destruct (sendMessage_stream ms userMessage now1 now2 r s st Hok Hb)
    as (cs & Hc & H).
  cbv zeta in H. rewrite He in H. rewrite H. clear H.
  destruct (republished_turn (assistantId_of now2) cs (messages st)
              (userMsg_of userMessage now1) (user_id_differs now1 now2))
    as (prefix & Hl & Hf).
  rewrite <- Hc, Hl. do 2 eexists. exists prefix.
  split; [reflexivity|]. cbn [messages isLoading]. repeat split; auto.
  rewrite !in_app_iff. intros [Hin|[Hin|[[]|Hin]]].
  - repeat (destruct Hin as [Hin|Hin]; [discriminate|]). destruct Hin.
  - now apply not_in_published in Hin.
  - destruct Hin as [Hin|[]]. discriminate.
Qed.

Lemma clean_stream_content_witness :
  ok silent_response = true
  /\ body silent_response
     = Some {| chunks := [encode (render Finish)]; errored := false |}
  /\ exists (st' : State) (tr : list Event) (prefix : list Message),
       sendMessage [] (lit "hi") 1 2 (Resolved silent_response)
         (initial_state, []) = ((st', tr), Normal tt)
       /\ messages st' =
            prefix ++ [userMsg_of (lit "hi") 1;
                       {| id := assistantId_of 2; role := assistant;
                          content := accumulated [encode (render Finish)] |}]
       /\ frame (assistantId_of 2) (messages initial_state) prefix
       /\ isLoading st' = false
       /\ ~ In ConsoleError tr.
Proof.
  split; [reflexivity|]. split; [reflexivity|].
  apply (clean_stream_content [] (lit "hi") 1 2 silent_response
           {| chunks := [encode (render Finish)]; errored := false |}
           initial_state);
    reflexivity.
Defined.

(** The turn when the request has failed. *)
Lemma failed_turn_state (ms : list Message) (userMessage : jsstring)
  (now1 now2 : N) (net : FetchResult) (st : State) :
  request_failed net ->
  exists (st' : State) (tr : list Event),
    sendMessage ms userMessage now1 now2 net (st, []) = ((st', tr), Normal tt)
    /\ messages st' =
         with_content (assistantId_of now2) apology
           (messages st ++ [userMsg_of userMessage now1])
         ++ [{| id := assistantId_of now2; role := assistant;
                content := apology |}]
    /\ isLoading st' = false.
Proof.
  intros Hf. unfold sendMessage. rewrite sendMessage_start_spec.
  rewrite (sendMessage_resume_failed now2 net _ Hf).
  unfold setIsLoading, setMessages, emit. cbn [isOpen input messages isLoading].
  do 2 eexists. split; [reflexivity|]. cbn [messages isLoading].
  split; [|reflexivity].
  rewrite List.app_assoc. unfold with_content. rewrite (map_app _ (_ ++ _)).
  cbn [List.map]. unfold placeholder_of at 1 2 3. cbn [id role].
  now rewrite eqb_refl.
Qed.

(** ** The form and the view *)

Lemma gate_submit_disabled (st : State) :
  negb (JSString.truthy (trim (input st))) || isLoading st
  = View.submit_disabled (View.render st).
Proof. cbn [View.render View.submit_disabled]. apply orb_comm. Qed.

(** X12. The send button and the handler agree: the button is disabled
    in exactly the states in which submitting the form does nothing, that
    is, leaves the state as it is and calls neither a setter nor [fetch]. *)
Theorem submit_disabled_iff_ignored (now1 now2 : N) (net : FetchResult)
  (st : State) :
  View.submit_disabled (View.render st) = true
  <-> handleSubmit now1 now2 net st = (st, []).
Proof.
  unfold handleSubmit. rewrite gate_submit_disabled.
  destruct (View.submit_disabled (View.render st)); split; auto;
    try discriminate.
  intros H. exfalso.
  rewrite sendMessage_start_spec in H. unfold setInput in H.
  match type of H with
  | context [sendMessage_resume now2 net (?s, ?t)] =>
      destruct (sendMessage_resume_trace now2 net s t)
        as (cs & after & st' & E & _)
  end.
  rewrite E in H. cbn [fst] in H. injection H as _ H.
  discriminate H.
Qed.

(** The state and the trace of a submission that passes the gate. *)
Lemma handleSubmit_shape (now1 now2 : N) (net : FetchResult) (st : State) :
  View.submit_disabled (View.render st) = false ->
  exists (st' : State) (later : list Event) (prefix : list Message)
         (reply : jsstring),
    handleSubmit now1 now2 net st =
      (st',
       [SetMessages (messages st ++ [userMsg_of (input st) now1]);
        SetIsLoading true;
        SetMessages (messages st ++ [userMsg_of (input st) now1;
                                     placeholder_of now2]);
        Fetch (history (messages st ++ [userMsg_of (input st) now1]));
        SetInput []] ++ later)
    /\ forallb (fun e => negb (is_fetch e)) later = true
    /\ messages st' =
         prefix ++ [userMsg_of (input st) now1;
                    {| id := assistantId_of now2; role := assistant;
                       content := reply |}]
    /\ frame (assistantId_of now2) (messages st) prefix
    /\ isLoading st' = false
    /\ input st' = []
    /\ isOpen st' = isOpen st.
Proof.
  intros Hg. unfold handleSubmit. rewrite gate_submit_disabled, Hg.
  rewrite sendMessage_start_spec. unfold setInput.
  match goal with
  | |- context [sendMessage_resume now2 net (?s, ?t)] =>
      destruct (sendMessage_resume_shape now2 net s t (messages st)
                  (userMsg_of (input st) now1) eq_refl
                  (user_id_differs now1 now2))
        as (st' & tr' & prefix & reply & H & Hm & Hf & Hl & Hi & Ho);
      destruct (sendMessage_resume_trace now2 net s t)
        as (cs & after & st2 & E & Hn & _)
  end.
  rewrite H in E. injection E as _ E.
  rewrite H. cbn [fst]. subst tr'.
  exists st', (after ++ [SetIsLoading false]), prefix, reply.
  split; [reflexivity|]. split.
  { rewrite forallb_app, Hn. reflexivity. }
  now repeat split.
Qed.

(** X13. A submission that passes the gate sends the text of the input
    as it was typed, blanks around it included, as the content of the user
    message and as the last message of the request, after the messages of
    the conversation so far; the input is cleared right after [fetch] has
    been called, before the response is read, and no second request
    follows. *)
Theorem submit_sends_input (now1 now2 : N) (net : FetchResult) (st : State) :
  isLoading st = false -> forallb is_space (input st) = false ->
  exists later : list Event,
    snd (handleSubmit now1 now2 net st) =
      [SetMessages (messages st ++ [{| id := lit "user-" ++ decimal now1;
                                       role := user;
                                       content := input st |}]);
       SetIsLoading true;
       SetMessages (messages st ++ [{| id := lit "user-" ++ decimal now1;
                                       role := user;
                                       content := input st |};
                                    {| id := lit "assistant-" ++ decimal now2;
                                       role := assistant;
                                       content := [] |}]);
       Fetch (history (messages st) ++ [(user, input st)]);
       SetInput []] ++ later
    /\ forallb (fun e => negb (is_fetch e)) later = true.
Proof.
  intros Hl Hs.
  assert (Hg : View.submit_disabled (View.render st) = false).
  { cbn [View.render View.submit_disabled]. rewrite Hl. cbn [orb].
    destruct (trim (input st)) eqn:E; [|reflexivity].
    apply trim_nil in E. congruence. }
  destruct (handleSubmit_shape now1 now2 net st Hg)
    as (st' & later & prefix & reply & H & Hn & _).
  rewrite H. exists later. split; [|exact Hn]. cbn [snd].
  unfold history. rewrite map_app. reflexivity.
Qed.

Lemma submit_sends_input_witness :
  isLoading typed_padded = false
  /\ forallb is_space (input typed_padded) = false
  /\ exists later : list Event,
       snd (handleSubmit 1 2 Rejected typed_padded) =
         [SetMessages (messages typed_padded
                       ++ [{| id := lit "user-" ++ decimal 1; role := user;
                              content := input typed_padded |}]);
          SetIsLoading true;
          SetMessages (messages typed_padded
                       ++ [{| id := lit "user-" ++ decimal 1; role := user;
                              content := input typed_padded |};
                           {| id := lit "assistant-" ++ decimal 2;
                              role := assistant; content := [] |}]);
          Fetch (history (messages typed_padded)
                 ++ [(user, input typed_padded)]);
          SetInput []] ++ later
       /\ forallb (fun e => negb (is_fetch e)) later = true.
Proof.
  split; [reflexivity|]. split; [reflexivity|].
  apply (submit_sends_input 1 2 Rejected typed_padded); reflexivity.
Defined.

Lemma typing_gate (value : jsstring) (st : State) :
  View.submit_disabled (View.render (View.onChange value st))
  = isLoading st || forallb is_space value.
Proof.
  unfold View.render, View.onChange.
  cbn [View.submit_disabled isLoading input]. f_equal.
  destruct (forallb is_space value) eqn:E.
  - apply trim_nil in E. now rewrite E.
  - destruct (trim value) eqn:T; [|reflexivity].
    apply trim_nil in T. congruence.
Qed.

(** X14. Once a text has been typed into the input, the send button
    is enabled exactly when no turn is loading and the text has a code
    unit that is no white space; the input shows the text as typed. *)
Theorem typing_enables_send (value : jsstring) (st : State) :
  View.submit_disabled (View.render (View.onChange value st))
  = isLoading st || forallb is_space value
  /\ View.input_value (View.render (View.onChange value st)) = value
  /\ View.area (View.render (View.onChange value st))
     = View.area (View.render st).
Proof.
  split; [apply typing_gate|]. now split.
Qed.

(** X15. When a submitted turn is over, however the request ended, the
    view shows the input empty and enabled and the send button disabled;
    the message area is the list, not the welcome panel, with two bubbles
    more than there were messages; the window is shown or hidden as
    before. *)
Theorem view_after_turn (now1 now2 : N) (net : FetchResult) (st : State) :
  View.submit_disabled (View.render st) = false ->
  let v := View.render (fst (handleSubmit now1 now2 net st)) in
  View.input_value v = []
  /\ View.input_disabled v = false
  /\ View.submit_disabled v = true
  /\ (exists bs, View.area v = View.Bubbles bs
                 /\ List.length bs = (List.length (messages st) + 2)%nat)
  /\ View.window_shown v = View.window_shown (View.render st).
Proof.
  intros Hg.
  destruct (handleSubmit_shape now1 now2 net st Hg)
    as (st' & later & prefix & reply & H & _ & Hm & Hf & Hl & Hi & Ho).
  rewrite H. cbn [fst]. cbv zeta.
  unfold View.render.
  cbn [View.input_value View.input_disabled View.submit_disabled View.area
       View.window_shown].
  rewrite Hl, Hi, Ho. repeat split.
  exists (List.map View.bubble (messages st')). split.
  - rewrite Hm. now destruct prefix.
  - rewrite length_map, Hm, length_app. cbn [List.length].
    now rewrite (Forall2_length Hf).
Qed.

Lemma view_after_turn_witness :
  View.submit_disabled (View.render typed_hi) = false
  /\ (let v := View.render (fst (handleSubmit 1 2 Rejected typed_hi)) in
      View.input_value v = []
      /\ View.input_disabled v = false
      /\ View.submit_disabled v = true
      /\ (exists bs, View.area v = View.Bubbles bs
                     /\ List.length bs
                        = (List.length (messages typed_hi) + 2)%nat)
      /\ View.window_shown v = View.window_shown (View.render typed_hi)).
Proof.
  split; [reflexivity|].
  apply (view_after_turn 1 2 Rejected typed_hi). reflexivity.
Defined.

(** X16. When the response is a success and its stream ends well but
    holds no text, the turn ends with the bubble of the assistant still
    showing the typing dots although the loading flag is cleared and the
    input is enabled again; before it comes the bubble of the user
    message. *)
Theorem empty_reply_keeps_dots (ms : list Message) (userMessage : jsstring)
  (now1 now2 : N) (r : Response) (s : Stream) (st : State) :
  ok r = true -> body r = Some s -> errored s = false ->
  accumulated (chunks s) = [] ->
  exists (st' : State) (tr : list Event) (bs : list View.Bubble),
    sendMessage ms userMessage now1 now2 (Resolved r) (st, [])
      = ((st', tr), Normal tt)
    /\ View.area (View.render st') =
         View.Bubbles
           (bs ++ [View.bubble (userMsg_of userMessage now1);
                   {| View.bubble_key := assistantId_of now2;
                      View.justify := View.justify_start;
                      View.avatar_before := Some View.SparklesAvatar;
                      View.user_colours := false;
                      View.bubble_body := View.Dots;
                      View.avatar_after := None |}])
    /\ View.input_disabled (View.render st') = false.
Proof.
  intros Hok Hb He Ha.
  destruct (sendMessage_stream ms userMessage now1 now2 r s st Hok Hb)
    as (cs & Hc & H).
  cbv zeta in H. rewrite He in H. rewrite H. clear H.
  destruct (republished_turn (assistantId_of now2) cs (messages st)
              (userMsg_of userMessage now1) (user_id_differs now1 now2))
    as (prefix & Hl & _).
  rewrite Ha in Hc. rewrite Hl, Hc.
  do 2 eexists. exists (List.map View.bubble prefix).
  split; [reflexivity|]. unfold View.render.
  cbn [View.area View.input_disabled messages isLoading].
  split; [|reflexivity].
  rewrite map_app. now destruct prefix.
Qed.

Lemma empty_reply_keeps_dots_witness :
  ok silent_response = true
  /\ body silent_response
     = Some {| chunks := [encode (render Finish)]; errored := false |}
  /\ accumulated [encode (render Finish)] = []
  /\ exists (st' : State) (tr : list Event) (bs : list View.Bubble),
       sendMessage [] (lit "hi") 1 2 (Resolved silent_response)
         (initial_state, []) = ((st', tr), Normal tt)
       /\ View.area (View.render st') =
            View.Bubbles
              (bs ++ [View.bubble (userMsg_of (lit "hi") 1);
                      {| View.bubble_key := assistantId_of 2;
                         View.justify := View.justify_start;
                         View.avatar_before := Some View.SparklesAvatar;
                         View.user_colours := false;
                         View.bubble_body := View.Dots;
                         View.avatar_after := None |}])
       /\ View.input_disabled (View.render st') = false.
Proof.
  split; [reflexivity|]. split; [reflexivity|].
  split; [vm_compute; reflexivity|].
  apply (empty_reply_keeps_dots [] (lit "hi") 1 2 silent_response
           {| chunks := [encode (render Finish)]; errored := false |}
           initial_state);
    reflexivity.
Defined.

(** ** A session *)

Lemma frame_keeps_users (aid : jsstring) (a b : list Message) :
  (exists n, aid = assistantId_of n) ->
  user_ids a -> frame aid a b ->
  List.map role b = List.map role a
  /\ user_contents b = user_contents a
  /\ user_ids b.
Proof.
  intros [n ->] Hu Hf. unfold user_contents, user_ids in *.
  induction Hf as [|m m' a b (Hi & Hr & Hn) Hf IH];
    [repeat split; constructor|].
  apply Forall_cons_iff in Hu as [Hm Hu].
  destruct (IH Hu) as (IH1 & IH2 & IH3).
  cbn [List.map filter]. unfold is_user in *. rewrite Hr.
  destruct (role m) eqn:E.
  - destruct (Hm eq_refl) as [k Hk].
    assert (Hne : id m <> assistantId_of n).
    { rewrite Hk. intros X.
      pose proof (user_id_differs k n) as D. rewrite X, eqb_refl in D.
      discriminate. }
    rewrite (Hn Hne). cbn [List.map]. rewrite IH1, IH2.
    repeat split. constructor; [|exact IH3].
    rewrite E. intros _. now exists k.
  - rewrite IH1, IH2. repeat split. constructor; [|exact IH3].
    intros X. unfold is_user in X. rewrite Hr in X. discriminate.
Qed.

Lemma submit_step (a : Submission) (st : State) :
  isLoading st = false -> user_ids (messages st) ->
  let st' := submit a st in
  let new := if forallb is_space (typed a) then [] else [typed a] in
  List.map role (messages st') = List.map role (messages st) ++ pairs new
  /\ user_contents (messages st') = user_contents (messages st) ++ new
  /\ isLoading st' = false
  /\ user_ids (messages st').
Proof.
  intros Hl Hu. cbv zeta. unfold submit.
  pose proof (typing_gate (typed a) st) as Hg. rewrite Hl in Hg.
  cbn [orb] in Hg.
  destruct (forallb is_space (typed a)) eqn:E.
  - unfold handleSubmit. rewrite gate_submit_disabled, Hg. cbn [fst].
    unfold View.onChange. cbn [messages isLoading pairs List.map List.concat].
    now rewrite !app_nil_r.
  - destruct (handleSubmit_shape (at1 a) (at2 a) (settles a)
                (View.onChange (typed a) st) Hg)
      as (st' & later & prefix & reply & H & _ & Hm & Hf & Hl' & _).
    rewrite H. cbn [fst]. rewrite Hm.
    unfold View.onChange in Hf |- *. cbn [messages input] in Hf |- *.
    destruct (frame_keeps_users _ _ _
                (ex_intro _ (at2 a) eq_refl) Hu Hf) as (F1 & F2 & F3).
    unfold user_contents. rewrite map_app, filter_app, map_app.
    fold (user_contents prefix) (user_contents (messages st)).
    rewrite F1, F2. repeat split; auto.
    apply Forall_app. split; [exact F3|].
    constructor; [intros _; now exists (at1 a)|].
    constructor; [discriminate|constructor].
Qed.

Lemma session_from (l : list Submission) :
  forall st,
    isLoading st = false -> user_ids (messages st) ->
    List.map role (messages (session l st))
      = List.map role (messages st) ++ pairs (sent l)
    /\ user_contents (messages (session l st))
       = user_contents (messages st) ++ sent l
    /\ isLoading (session l st) = false.
Proof.
  induction l as [|a l IH]; intros st Hl Hu.
  - cbn. now rewrite !app_nil_r.
  - destruct (submit_step a st Hl Hu) as (S1 & S2 & S3 & S4).
    destruct (IH (submit a st) S3 S4) as (I1 & I2 & I3).
    change (session (a :: l) st) with (session l (submit a st)).
    rewrite I1, I2, S1, S2, <- !List.app_assoc. unfold sent, pairs.
    cbn [filter]. destruct (forallb is_space (typed a));
      cbn [negb List.map List.concat app]; now repeat split.
Qed.

(** X17. A session keeps the conversation in pairs.  After any number of
    uses of the form from the initial state (a text is typed, the form is
    submitted, the turn runs to its end, however the request ends), the
    conversation has one user message followed by one assistant message
    for each typed text that was not blank, in order; the contents of the
    user messages are those texts as typed; and the component is not
    loading. *)
Theorem session_conversation (l : list Submission) :
  List.map role (messages (session l initial_state)) = pairs (sent l)
  /\ user_contents (messages (session l initial_state)) = sent l
  /\ isLoading (session l initial_state) = false.
Proof.
  apply (session_from l initial_state); [reflexivity|constructor].
Qed.

Example session_of_three :
  List.map (fun m => (role m, content m))
    (messages (session three_submissions initial_state))
  = [(user, lit "hi"); (assistant, apology);
     (user, lit "ok?"); (assistant, [])].
Proof. vm_compute. reflexivity. Qed.

End ComponentFacts.

(** * The route handler and the component together *)

Module EndToEnd.
Import JSString UTF8 UTF8Spec JSON Completion Http WireSpec.
Import Route RouteSpec Chatbot ChatbotSpec TurnSpec.
Import UTF8Facts JSONFacts WireFacts ChatbotFacts StreamFacts TransformFacts.
Import HandlerFacts ComponentFacts Examples TurnExamples.

Lemma chunk_of_one (x : wire_line) : chunk_of [x] = encode (render x).
Proof. unfold chunk_of. cbn [List.map List.concat]. now rewrite app_nil_r. Qed.

(** A line whose content, if it has one, is a string is reformatted into
    at most one line of the wire format. *)
Lemma transform_line_wire (fc line : jsstring) :
  (forall v c, is_data line = true -> parse (slice line 6) = Some v ->
               has_content v c ->
               exists s, c = JStr s /\ is_string s = true) ->
  exists ws,
    transform_line fc line
    = (fc ++ List.concat (deltas_of ws),
       List.map (fun x => chunk_of [x]) ws)
    /\ forallb valid_line ws = true.
Proof.
  intros H. unfold transform_line, is_data in *.
  destruct (startsWith line (lit "data: ")).
  2:{ exists []. cbn. now rewrite app_nil_r. }
  destruct (eqb (slice line 6) (lit "[DONE]")).
  { exists [Finish]. cbn [deltas_of List.concat List.map forallb valid_line].
    now rewrite app_nil_r, chunk_of_one. }
  unfold try_parse. destruct (parse (slice line 6)) as [v|].
  2:{ exists []. cbn. now rewrite app_nil_r. }
  cbn [bind]. destruct (content_of v) as [[c|]|e] eqn:Ec;
    cbn [bind try_catch];
    try (exists []; cbn; now rewrite app_nil_r).
  apply content_of_has_content in Ec.
  destruct (H v c eq_refl eq_refl Ec) as (s & -> & Hs).
  destruct s as [|x s].
  { exists []. cbn. now rewrite app_nil_r. }
  exists [Delta (x :: s)].
  cbn [JSON.truthy ToString bind try_catch deltas_of List.concat List.map
       forallb valid_line].
  now rewrite Hs, app_nil_r, chunk_of_one.
Qed.

Lemma transform_lines_wire (lines : list jsstring) :
  forall fc,
    string_contents lines ->
    exists ws,
      transform_lines fc lines
      = (fc ++ List.concat (deltas_of ws),
         List.map (fun x => chunk_of [x]) ws)
      /\ forallb valid_line ws = true.
Proof.
  induction lines as [|l lines IH]; intros fc H.
  - exists []. cbn. now rewrite app_nil_r.
  - cbn [transform_lines].
    destruct (transform_line_wire fc l) as (ws1 & E1 & V1).
    { intros v c. apply H. now left. }
    rewrite E1.
    destruct (IH (fc ++ List.concat (deltas_of ws1))) as (ws2 & E2 & V2).
    { intros l' v c Hin. apply H. now right. }
    rewrite E2. exists (ws1 ++ ws2).
    rewrite deltas_of_app, concat_app, map_app, forallb_app, V1, V2.
    now rewrite List.app_assoc.
Qed.

Lemma concat_singletons {A} (l : list A) :
  List.concat (List.map (fun x => [x]) l) = l.
Proof. induction l as [|x l IH]; [reflexivity|]. cbn. now rewrite IH. Qed.

(** Reading the output of the transform is reading the strings its
    events carried, which are what the transform has accumulated. *)
Lemma read_transformed (cs : list bytes) (st : TransformState)
  (aid : jsstring) (t : TextDecoder) (acc : jsstring) (w : world) :
  utf8 t = decoder_init ->
  string_contents (lines_seen (decoder st) cs) ->
  exists ds,
    read_chunks aid t acc (snd (transform_all st cs)) w
    = read_deltas aid acc ds w
    /\ fullContent (fst (transform_all st cs))
       = fullContent st ++ List.concat ds.
Proof.
  intros Ht H. rewrite transform_all_content, transform_all_emitted.
  rewrite <- (transform_lines_emitted _ (fullContent st)).
  destruct (transform_lines_wire (lines_seen (decoder st) cs)
              (fullContent st) H) as (ws & E & V).
  rewrite E. cbn [fst snd]. exists (deltas_of ws). split; [|reflexivity].
  rewrite <- (map_map (fun x => [x]) chunk_of).
  rewrite read_chunks_groups; [now rewrite concat_singletons | exact Ht |].
  rewrite forallb_forall in *. intros g Hg.
  apply in_map_iff in Hg as (x & <- & Hx). cbn [forallb].
  now rewrite (V x Hx).
Qed.

(** X18. The two loops fit together.  When every content of the
    provider's events is a string, what the Renderer accumulates from the
    chunks the transform enqueues is exactly what the transform itself has
    accumulated in [fullContent], whatever the chunking of the provider's
    stream was. *)
Theorem renderer_reads_reformatter (cs : list bytes) :
  string_contents (lines_seen new_TextDecoder cs) ->
  accumulated (snd (transform_all transform_init cs))
  = fullContent (fst (transform_all transform_init cs)).
Proof.
  intros H. unfold accumulated.
  destruct (read_transformed cs transform_init [] new_TextDecoder []
              (initial_state, []) eq_refl H) as (ds & Hr & Hf).
  rewrite Hr, Hf, read_deltas_content. reflexivity.
Qed.

Lemma string_contents_hi :
  string_contents (lines_seen new_TextDecoder [hi_upstream]).
Proof.
  intros l v c Hin Hd Hp Hc. vm_compute in Hin.
  apply content_of_has_content in Hc.
  destruct Hin as [<-|[<-|[]]].
  - vm_compute in Hp. injection Hp as <-.
    vm_compute in Hc. injection Hc as <-.
    eexists. split; reflexivity.
  - vm_compute in Hp. discriminate.
Defined.

Lemma renderer_reads_reformatter_witness :
  string_contents (lines_seen new_TextDecoder [hi_upstream])
  /\ accumulated (snd (transform_all transform_init [hi_upstream]))
     = fullContent (fst (transform_all transform_init [hi_upstream])).
Proof.
  split; [exact string_contents_hi|].
  exact (renderer_reads_reformatter [hi_upstream] string_contents_hi).
Defined.

(** X19. Whatever keeps the route handler from streaming (an unusable
    request body, a rejected [fetch], a status of the provider that is no
    success), the component that receives its response ends the turn with
    the apology as the content of the assistant message and the loading
    flag cleared. *)
Theorem server_failure_shows_apology (key : option jsstring)
  (request_json : completion (option (list msg)))
  (fetch : UpstreamRequest -> FetchResult)
  (ms : list Message) (userMessage : jsstring) (now1 now2 : N) (st : State) :
  no_stream key request_json fetch ->
  exists (st' : State) (tr : list Event),
    sendMessage ms userMessage now1 now2
      (Resolved (fst (POST key request_json fetch))) (st, [])
      = ((st', tr), Normal tt)
    /\ messages st' =
         with_content (assistantId_of now2) apology
           (messages st ++ [userMsg_of userMessage now1])
         ++ [{| id := assistantId_of now2; role := assistant;
                content := apology |}]
    /\ isLoading st' = false.
Proof.
  intros H. apply failed_turn_state. left.
  assert (E : fst (POST key request_json fetch) = failure_response).
  { unfold no_stream in H. unfold POST, try_POST.
    destruct request_json as [[msgs|]|e]; try reflexivity.
    destruct (fetch (upstream_request key msgs)) as [|r]; [reflexivity|].
    rewrite H. cbn [negb fst]. destruct (response_text r); reflexivity. }
  rewrite E. reflexivity.
Qed.

Lemma server_failure_shows_apology_witness :
  no_stream None (Normal (Some carpet_request)) (fun _ => Resolved response_401)
  /\ exists (st' : State) (tr : list Event),
       sendMessage [] carpet_question 1 2
         (Resolved (fst (POST None (Normal (Some carpet_request))
                           (fun _ => Resolved response_401))))
         (initial_state, []) = ((st', tr), Normal tt)
       /\ messages st' =
            with_content (assistantId_of 2) apology
              (messages initial_state ++ [userMsg_of carpet_question 1])
            ++ [{| id := assistantId_of 2; role := assistant;
                   content := apology |}]
       /\ isLoading st' = false.
Proof.
  split; [reflexivity|].
  apply (server_failure_shows_apology None (Normal (Some carpet_request))
           (fun _ => Resolved response_401) [] carpet_question 1 2
           initial_state).
  reflexivity.
Defined.

(** X20. A break of the provider's stream reaches the user.  When the
    provider answers with a success whose stream breaks before the end,
    the response of the route handler is a success whose stream breaks
    too, and the component ends the turn with the apology in place of
    what it had shown of the reply. *)
Theorem upstream_break_shows_apology (key : option jsstring)
  (msgs : list msg) (fetch : UpstreamRequest -> FetchResult)
  (r : Response) (s : Stream)
  (ms : list Message) (userMessage : jsstring) (now1 now2 : N) (st : State) :
  fetch (upstream_request key msgs) = Resolved r ->
  ok r = true -> body r = Some s -> errored s = true ->
  let response := fst (POST key (Normal (Some msgs)) fetch) in
  ok response = true
  /\ option_map errored (body response) = Some true
  /\ exists (st' : State) (tr : list Event),
       sendMessage ms userMessage now1 now2 (Resolved response) (st, [])
         = ((st', tr), Normal tt)
       /\ messages st' =
            with_content (assistantId_of now2) apology
              (messages st ++ [userMsg_of userMessage now1])
            ++ [{| id := assistantId_of now2; role := assistant;
                   content := apology |}]
       /\ isLoading st' = false.
Proof.
  intros Hf Hok Hb He. cbv zeta.
  assert (E : fst (POST key (Normal (Some msgs)) fetch)
              = stream_response (Some s)).
  { unfold POST, try_POST. rewrite Hf, Hok, Hb. reflexivity. }
  rewrite E. split; [reflexivity|]. split; [cbn; now rewrite He|].
  destruct (sendMessage_stream ms userMessage now1 now2
              (stream_response (Some s)) (pipeThrough s) st
              eq_refl eq_refl)
    as (ps & _ & H).
  cbv zeta in H. cbn [pipeThrough errored] in H. rewrite He in H.
  rewrite H. clear H.
  do 2 eexists. split; [reflexivity|]. cbn [messages isLoading].
  split; [|reflexivity].
  replace (messages st ++
           [userMsg_of userMessage now1;
            {| id := assistantId_of now2; role := assistant;
               content := [] |}])
    with ((messages st ++ [userMsg_of userMessage now1]) ++
          [{| id := assistantId_of now2; role := assistant;
              content := [] |}])
    by (now rewrite <- List.app_assoc).
  apply apology_over_snapshots.
Qed.

Lemma upstream_break_shows_apology_witness :
  ok broken_upstream = true
  /\ body broken_upstream
     = Some {| chunks := [encode (event_line (lit "Yes") ++ [LF; LF])];
               errored := true |}
  /\ (let response :=
        fst (POST None (Normal (Some carpet_request))
               (fun _ => Resolved broken_upstream)) in
      ok response = true
      /\ option_map errored (body response) = Some true
      /\ exists (st' : State) (tr : list Event),
           sendMessage [] carpet_question 1 2 (Resolved response)
             (initial_state, []) = ((st', tr), Normal tt)
           /\ messages st' =
                with_content (assistantId_of 2) apology
                  (messages initial_state ++ [userMsg_of carpet_question 1])
                ++ [{| id := assistantId_of 2; role := assistant;
                       content := apology |}]
           /\ isLoading st' = false).
Proof.
  split; [reflexivity|]. split; [reflexivity|].
  apply (upstream_break_shows_apology None carpet_request
           (fun _ => Resolved broken_upstream) broken_upstream
           {| chunks := [encode (event_line (lit "Yes") ++ [LF; LF])];
              errored := true |}
           [] carpet_question 1 2 initial_state);
    reflexivity.
Defined.



End EndToEnd.
